(** * SpeedRead host: a shallow embedding of the search / download core

    The repository holds several generations of one Express server.  The
    definitions below follow the JavaScript of each generation function by
    function; the module names say which file a definition comes from:

    - [WikiProxy]: the multi-source proxy with the Wikisource adapters
      (the longest file, with [downloadWikisourceSmart]);
    - [EbooksProxy]: the Gutenberg + Standard Ebooks proxy of [server.js]
      ([pickBestFormat], [contentDisposition]);
    - [OpdsHost]: the host with the OPDS parser and the base64url ids;
    - [GutendexHost]: the single-source Gutendex host.

    JavaScript strings are sequences of UTF-16 code units; they are modelled
    as [list N].  Built-ins of the language ([trim], [split],
    [encodeURIComponent], [decodeURIComponent], [Array.prototype.sort], ...)
    are modelled after ECMA-262. *)

From Stdlib Require Import NArith ZArith List String Ascii Lia Bool Sorted.
From stdpp Require Import base option list gmap.

Local Open Scope N_scope.

(** ** JavaScript strings *)

Abbreviation jsstring := (list N).

(** [UTF16EncodeCodePoint] (ECMA-262, 11.1.1). *)
Definition utf16EncodeCodePoint (cp : N) : jsstring :=
  if cp <? 0x10000 then [cp]
  else [0xD800 + (cp - 0x10000) / 1024; 0xDC00 + (cp - 0x10000) mod 1024].

(** Source literals: the code units of a literal written in this file
    (which is UTF-8 encoded, as the JavaScript sources are). *)
Fixpoint literal_units (bs : list N) : jsstring :=
  match bs with
  | [] => []
  | b0 :: t0 =>
    if b0 <? 0x80 then b0 :: literal_units t0
    else match t0 with
    | [] => [0xFFFD]
    | b1 :: t1 =>
      if b0 <? 0xE0 then ((b0 - 0xC0) * 64 + (b1 - 0x80)) :: literal_units t1
      else match t1 with
      | [] => [0xFFFD]
      | b2 :: t2 =>
        if b0 <? 0xF0
        then ((b0 - 0xE0) * 4096 + (b1 - 0x80) * 64 + (b2 - 0x80))
               :: literal_units t2
        else match t2 with
        | [] => [0xFFFD]
        | b3 :: t3 =>
          utf16EncodeCodePoint
            ((b0 - 0xF0) * 262144 + (b1 - 0x80) * 4096
             + (b2 - 0x80) * 64 + (b3 - 0x80))
            ++ literal_units t3
        end
      end
    end
  end.

Fixpoint string_bytes (s : string) : list N :=
  match s with
  | EmptyString => []
  | String a r => N_of_ascii a :: string_bytes r
  end.

Definition js (s : string) : jsstring := literal_units (string_bytes s).
Arguments js s%_string.

(** The double quote, which a literal of this file cannot hold. *)
Definition dquote : N := 0x22.

(** Truthiness of a string: only the empty string is falsy. *)
Definition truthy (s : jsstring) : bool :=
  match s with [] => false | _ => true end.

(** [s.length]. *)
Definition strlen (s : jsstring) : N := N.of_nat (length s).

(** [a === b] on strings. *)
Definition str_eqb (a b : jsstring) : bool := bool_decide (a = b).

(** [s.startsWith(p)]. *)
Fixpoint startsWith (s p : jsstring) : bool :=
  match p, s with
  | [], _ => true
  | _ :: _, [] => false
  | x :: p', y :: s' => (x =? y) && startsWith s' p'
  end.

(** [s.includes(p)]. *)
Fixpoint includes (s p : jsstring) : bool :=
  startsWith s p || match s with [] => false | _ :: s' => includes s' p end.

(** [s.split(sep)] for a one-code-unit separator. *)
Fixpoint split_on (sep : N) (s : jsstring) : list jsstring :=
  match s with
  | [] => [[]]
  | c :: s' =>
    if c =? sep then [] :: split_on sep s'
    else match split_on sep s' with
         | [] => [[c]]
         | l :: ls => (c :: l) :: ls
         end
  end.

(** White space and line terminators (ECMA-262, 12.2 and 12.3): what
    [trim] strips and what [\s] matches. *)
Definition isWhiteSpace (c : N) : bool :=
  (c =? 0x09) || (c =? 0x0A) || (c =? 0x0B) || (c =? 0x0C) || (c =? 0x0D)
  || (c =? 0x20) || (c =? 0xA0) || (c =? 0x1680)
  || ((0x2000 <=? c) && (c <=? 0x200A))
  || (c =? 0x2028) || (c =? 0x2029) || (c =? 0x202F) || (c =? 0x205F)
  || (c =? 0x3000) || (c =? 0xFEFF).

Fixpoint trimStart (s : jsstring) : jsstring :=
  match s with
  | c :: s' => if isWhiteSpace c then trimStart s' else s
  | [] => []
  end.

Definition trimEnd (s : jsstring) : jsstring := rev (trimStart (rev s)).

Definition trim (s : jsstring) : jsstring := trimEnd (trimStart s).

(** [s.replace(/c/g, r)] for a one-code-unit pattern. *)
Definition replaceAll (c : N) (r : jsstring) (s : jsstring) : jsstring :=
  flat_map (fun x => if x =? c then r else [x]) s.

(** [s.replace(/[class]+/g, r)]: every maximal run of code units of the
    class becomes one [r]; [inRun] tells that the previous code unit was of
    the class. *)
Fixpoint replaceRuns (inClass : N -> bool) (r : jsstring) (inRun : bool)
    (s : jsstring) : jsstring :=
  match s with
  | [] => []
  | c :: rest =>
    if inClass c
    then (if inRun then [] else r) ++ replaceRuns inClass r true rest
    else c :: replaceRuns inClass r false rest
  end.

(** ** Exceptions *)

Inductive error : Type :=
| URIError
| UnknownSource
| FetchFailed
| BookNotFound
| NoReadableFormat
| FileFetchFailed
| PageNotFound
| IndexPage.

Inductive outcome (A : Type) : Type :=
| Ret (a : A)
| Throw (e : error).
Arguments Ret {A} a.
Arguments Throw {A} e.

Definition obind {A B} (m : outcome A) (k : A -> outcome B) : outcome B :=
  match m with Ret a => k a | Throw e => Throw e end.

Notation "'let*' x ':=' m 'in' k" := (obind m (fun x => k))
  (at level 10, x pattern, m at level 100, k at level 200).

(** What [await fetch(url)] brings: the request fails altogether (the
    promise rejects), the response is not [ok], or the body arrives. *)
Inductive fetched (A : Type) : Type :=
| Rejected
| NotOk
| Ok (body : A).
Arguments Rejected {A}.
Arguments NotOk {A}.
Arguments Ok {A} body.

(** What a [/search] handler answers: [res.json({page, hasMore, results})],
    [res.status(400).json({error})] or [res.status(500).json({error})]. *)
Inductive response (A : Type) : Type :=
| Results (page : Z) (hasMore : bool) (results : list A)
| BadRequest (message : jsstring)
| ServerError (e : error).
Arguments Results {A} page hasMore results.
Arguments BadRequest {A} message.
Arguments ServerError {A} e.

(** The values of the promises that [Promise.allSettled] found fulfilled. *)
Definition fulfilled {A} (settled : list (outcome A)) : list A :=
  flat_map (fun r => match r with Ret v => [v] | Throw _ => [] end) settled.

(** ** Percent encoding (ECMA-262, 19.2.6) *)

Module URI.

Definition isAsciiWord (c : N) : bool :=
  ((0x41 <=? c) && (c <=? 0x5A)) || ((0x61 <=? c) && (c <=? 0x7A))
  || ((0x30 <=? c) && (c <=? 0x39)) || (c =? 0x5F).

(** The always-unescaped set: ASCII word characters and [-.!~*'()]. *)
Definition alwaysUnescaped (c : N) : bool :=
  isAsciiWord c
  || (c =? 0x2D) || (c =? 0x2E) || (c =? 0x21) || (c =? 0x7E)
  || (c =? 0x2A) || (c =? 0x27) || (c =? 0x28) || (c =? 0x29).

Definition isHighSurrogate (c : N) : bool := (0xD800 <=? c) && (c <=? 0xDBFF).
Definition isLowSurrogate (c : N) : bool := (0xDC00 <=? c) && (c <=? 0xDFFF).

Definition hexDigit (d : N) : N := if d <? 10 then 0x30 + d else 0x37 + d.

Definition percent (octet : N) : jsstring :=
  [0x25; hexDigit (octet / 16); hexDigit (octet mod 16)].

(** The UTF-8 transformation of a code point. *)
Definition utf8Octets (cp : N) : list N :=
  if cp <? 0x80 then [cp]
  else if cp <? 0x800 then [0xC0 + cp / 64; 0x80 + cp mod 64]
  else if cp <? 0x10000
       then [0xE0 + cp / 4096; 0x80 + (cp / 64) mod 64; 0x80 + cp mod 64]
  else [0xF0 + cp / 262144; 0x80 + (cp / 4096) mod 64;
        0x80 + (cp / 64) mod 64; 0x80 + cp mod 64].

(** [Encode(string, extraUnescaped)]: the unescaped set is a parameter. *)
Fixpoint Encode (unescaped : N -> bool) (s : jsstring) : outcome jsstring :=
  match s with
  | [] => Ret []
  | c :: rest =>
    if unescaped c then
      let* r := Encode unescaped rest in Ret (c :: r)
    else if isLowSurrogate c then Throw URIError
    else if isHighSurrogate c then
      match rest with
      | d :: rest' =>
        if isLowSurrogate d then
          let cp := (c - 0xD800) * 1024 + (d - 0xDC00) + 0x10000 in
          let* r := Encode unescaped rest' in
          Ret (flat_map percent (utf8Octets cp) ++ r)
        else Throw URIError
      | [] => Throw URIError
      end
    else
      let* r := Encode unescaped rest in
      Ret (flat_map percent (utf8Octets c) ++ r)
  end.

Definition encodeURIComponent (s : jsstring) : outcome jsstring :=
  Encode alwaysUnescaped s.

Definition hexValue (c : N) : option N :=
  if (0x30 <=? c) && (c <=? 0x39) then Some (c - 0x30)
  else if (0x41 <=? c) && (c <=? 0x46) then Some (c - 0x37)
  else if (0x61 <=? c) && (c <=? 0x66) then Some (c - 0x57)
  else None.

(** [ParseHexOctet] on the two code units after a percent sign. *)
Definition parseHexOctet (h l : N) : option N :=
  match hexValue h, hexValue l with
  | Some a, Some b => Some (a * 16 + b)
  | _, _ => None
  end.

(** The number of leading 1 bits of an octet. *)
Definition leadingOnes (b : N) : nat :=
  if b <? 0x80 then 0%nat
  else if b <? 0xC0 then 1%nat
  else if b <? 0xE0 then 2%nat
  else if b <? 0xF0 then 3%nat
  else if b <? 0xF8 then 4%nat
  else 5%nat.

Definition isContinuation (b : N) : bool := (0x80 <=? b) && (b <=? 0xBF).

(** The code point of a well-formed UTF-8 sequence (Unicode, table 3-7):
    no overlong forms, no surrogates, nothing above U+10FFFF. *)
Definition utf8CodePoint (octets : list N) : option N :=
  match octets with
  | [b0; b1] =>
    if (0xC2 <=? b0) && isContinuation b1
    then Some ((b0 - 0xC0) * 64 + (b1 - 0x80)) else None
  | [b0; b1; b2] =>
    if isContinuation b1 && isContinuation b2
       && negb ((b0 =? 0xE0) && (b1 <? 0xA0))
       && negb ((b0 =? 0xED) && (0xA0 <=? b1))
    then Some ((b0 - 0xE0) * 4096 + (b1 - 0x80) * 64 + (b2 - 0x80))
    else None
  | [b0; b1; b2; b3] =>
    if isContinuation b1 && isContinuation b2 && isContinuation b3
       && negb ((b0 =? 0xF0) && (b1 <? 0x90))
       && ((b0 <? 0xF4) || ((b0 =? 0xF4) && (b1 <? 0x90)))
    then Some ((b0 - 0xF0) * 262144 + (b1 - 0x80) * 4096
               + (b2 - 0x80) * 64 + (b3 - 0x80))
    else None
  | _ => None
  end.

(** The [n] continuation escapes [%XX] that follow a lead escape. *)
Fixpoint continuationOctets (n : nat) (s : jsstring)
  : option (list N * jsstring) :=
  match n with
  | O => Some ([], s)
  | S n' =>
    match s with
    | p :: h :: l :: rest =>
      if p =? 0x25 then
        match parseHexOctet h l with
        | Some b =>
          match continuationOctets n' rest with
          | Some (bs, rest') => Some (b :: bs, rest')
          | None => None
          end
        | None => None
        end
      else None
    | _ => None
    end
  end.

(** [Decode(string, preserveEscapeSet)] with an empty preserve set; the
    first argument bounds the number of iterations of the loop, which
    consumes at least one code unit each time. *)
Fixpoint Decode (fuel : nat) (s : jsstring) : outcome jsstring :=
  match fuel with
  | O => match s with [] => Ret [] | _ => Throw URIError end
  | S fuel' =>
    match s with
    | [] => Ret []
    | c :: rest =>
      if c =? 0x25 then
        match rest with
        | h :: l :: rest' =>
          match parseHexOctet h l with
          | None => Throw URIError
          | Some b =>
            match leadingOnes b with
            | O => let* r := Decode fuel' rest' in Ret (b :: r)
            | S O => Throw URIError
            | S (S m as n') =>
              if (3 <=? m)%nat then Throw URIError
              else
                match continuationOctets n' rest' with
                | None => Throw URIError
                | Some (bs, rest'') =>
                  match utf8CodePoint (b :: bs) with
                  | None => Throw URIError
                  | Some v =>
                    let* r := Decode fuel' rest'' in
                    Ret (utf16EncodeCodePoint v ++ r)
                  end
                end
            end
          end
        | _ => Throw URIError
        end
      else let* r := Decode fuel' rest in Ret (c :: r)
    end
  end.

Definition decodeURIComponent (s : jsstring) : outcome jsstring :=
  Decode (length s) s.

(** A Unicode scalar value: a code point that is not a surrogate. *)
Definition scalar (cp : N) : Prop :=
  cp < 0x110000 /\ ~ (0xD800 <= cp <= 0xDFFF).

(** What an encoded string is made of. *)
Definition isEscapeChar (c : N) : bool :=
  (c =? 0x25) || ((0x30 <=? c) && (c <=? 0x39)) || ((0x41 <=? c) && (c <=? 0x46)).

(** Taking one character out of the unescaped set. *)
Definition without (c0 : N) (unescaped : N -> bool) (c : N) : bool :=
  unescaped c && negb (c =? c0).

(** The unescaped set of [rfc5987Encode]. *)
Definition rfc5987Unescaped : N -> bool :=
  without 0x2A (without 0x29 (without 0x28 (without 0x27 alwaysUnescaped))).

End URI.

(** [String.prototype.isWellFormed]: no unpaired surrogate. *)
Fixpoint isWellFormed (s : jsstring) : bool :=
  match s with
  | [] => true
  | c :: rest =>
    if URI.isLowSurrogate c then false
    else if URI.isHighSurrogate c then
      match rest with
      | d :: rest' => URI.isLowSurrogate d && isWellFormed rest'
      | [] => false
      end
    else isWellFormed rest
  end.

(** Every element is a 16-bit code unit. *)
Definition isCodeUnits (s : jsstring) : bool := forallb (fun c => c <? 0x10000) s.

(** A well-formed Unicode string. *)
Definition wellFormed (s : jsstring) : bool := isCodeUnits s && isWellFormed s.

(** ** Regular expressions of the sources (ECMA-262, 22.2) *)

Module RegExp.

(** [Canonicalize] of a case-insensitive pattern without the [u] flag: the
    upper-case mapping of one code unit, kept when it leaves ASCII
    unchanged.  The mapping is written out for ASCII and for the Cyrillic
    letters; other code units are left as they are, and none of them maps to
    a letter of the patterns of this program. *)
Definition canonicalize (c : N) : N :=
  if (0x61 <=? c) && (c <=? 0x7A) then c - 0x20
  else if (0x430 <=? c) && (c <=? 0x44F) then c - 0x20
  else if (0x450 <=? c) && (c <=? 0x45F) then c - 0x50
  else if c =? 0x491 then 0x490
  else if c =? 0x1C80 then 0x412
  else if c =? 0x1C81 then 0x414
  else if c =? 0x1C82 then 0x41E
  else if c =? 0x1C83 then 0x421
  else if (c =? 0x1C84) || (c =? 0x1C85) then 0x422
  else if c =? 0x1C86 then 0x42A
  else c.

(** The pattern [p] matches at the start of [s], ignoring case. *)
Fixpoint matchesAt_i (p s : jsstring) : option jsstring :=
  match p, s with
  | [], _ => Some s
  | _ :: _, [] => None
  | x :: p', y :: s' =>
    if canonicalize x =? canonicalize y then matchesAt_i p' s' else None
  end.

(** [/w1|w2|.../i.test(s)]: one of the words occurs in [s]. *)
Fixpoint test_words_i (words : list jsstring) (s : jsstring) : bool :=
  existsb (fun w => bool_decide (is_Some (matchesAt_i w s))) words
  || match s with [] => false | _ :: s' => test_words_i words s' end.

(** [==\s*(w1|w2|...)\s*==] matches at the start of [s], ignoring case. *)
Definition headingAt_i (words : list jsstring) (s : jsstring) : bool :=
  match s with
  | 0x3D :: 0x3D :: s1 =>
    existsb (fun w =>
      match matchesAt_i w (trimStart s1) with
      | Some s2 => startsWith (trimStart s2) [0x3D; 0x3D]
      | None => false
      end) words
  | _ => false
  end.

(** [/==\s*(w1|w2|...)\s*==/i.test(s)]. *)
Fixpoint test_heading_i (words : list jsstring) (s : jsstring) : bool :=
  headingAt_i words s
  || match s with [] => false | _ :: s' => test_heading_i words s' end.

(** [/^\s*[\*\-•]/.test(l)]. *)
Definition test_bullet (l : jsstring) : bool :=
  match trimStart l with
  | c :: _ => (c =? 0x2A) || (c =? 0x2D) || (c =? 0x2022)
  | [] => false
  end.

(** [/[А-Яа-яЁёІіЇїЄєҐґ]/.test(q)]. *)
Definition isCyrillicLetter (c : N) : bool :=
  ((0x410 <=? c) && (c <=? 0x42F)) || ((0x430 <=? c) && (c <=? 0x44F))
  || (c =? 0x401) || (c =? 0x451) || (c =? 0x406) || (c =? 0x456)
  || (c =? 0x407) || (c =? 0x457) || (c =? 0x404) || (c =? 0x454)
  || (c =? 0x490) || (c =? 0x491).

Definition test_cyrillic (q : jsstring) : bool := existsb isCyrillicLetter q.

End RegExp.

(** ** [Array.prototype.sort] (ECMA-262, 23.1.3.30)

    The sort is stable; with a consistent comparator its result is the one
    of any stable sort, here an insertion sort. *)

Section Sort.
Context {A : Type}.
Variable cmp : A -> A -> Z.

Fixpoint sort_insert (x : A) (l : list A) : list A :=
  match l with
  | [] => [x]
  | y :: l' => if (cmp x y <=? 0)%Z then x :: l else y :: sort_insert x l'
  end.

Definition array_sort (l : list A) : list A := foldr sort_insert [] l.

End Sort.

(** [parseInt(v, 10)] reads the digits that follow the white space and the
    sign; [parseInt10] is their mathematical value, before it becomes a
    Number: [None] is [NaN]. *)
Fixpoint digits_value (acc : option N) (s : jsstring) : option N :=
  match s with
  | c :: s' =>
    if (0x30 <=? c) && (c <=? 0x39)
    then digits_value (Some (10 * default 0 acc + (c - 0x30))) s'
    else acc
  | [] => acc
  end.

Definition parseInt10 (v : jsstring) : option Z :=
  match trimStart v with
  | 0x2D :: s => (fun n => (- Z.of_N n)%Z) <$> digits_value None s
  | 0x2B :: s => Z.of_N <$> digits_value None s
  | s => Z.of_N <$> digits_value None s
  end.

(** The Number values that an integer can become (ECMA-262, 6.1.6.1). *)
Inductive number : Type :=
| NaN
| Infinity (negative : bool)
| Finite (z : Z).

(** The Number value for a natural number: itself below 2^53, else the
    nearest number with a mantissa of 53 bits, a tie going to the even
    mantissa; [None] is [Infinity], when the rounded value reaches 2^1024. *)
Definition toDouble (n : N) : option N :=
  if n <? 2 ^ 53 then Some n
  else
    let e := N.log2 n - 52 in
    let q := N.shiftr n e in
    let r := N.land n (N.ones e) in
    let half := N.shiftl 1 (e - 1) in
    let m :=
      if r <? half then q
      else if half <? r then q + 1
      else if N.even q then q else q + 1 in
    let d := N.shiftl m e in
    if N.log2 d <? 1024 then Some d else None.

(** The Number value for an integer. *)
Definition numberOf (z : Z) : number :=
  match toDouble (Z.abs_N z) with
  | Some d => Finite (Z.sgn z * Z.of_N d)
  | None => Infinity (z <? 0)%Z
  end.

(** [parseInt(v, 10)] as a Number. *)
Definition parseInt (v : jsstring) : number :=
  match parseInt10 v with
  | None => NaN
  | Some z => numberOf z
  end.

(** ** Node buffers *)

(** [Buffer.from(text, "utf-8")]: an unpaired surrogate becomes U+FFFD. *)
Fixpoint buffer_from_utf8 (s : jsstring) : list N :=
  match s with
  | [] => []
  | c :: rest =>
    if URI.isHighSurrogate c then
      match rest with
      | d :: rest' =>
        if URI.isLowSurrogate d
        then URI.utf8Octets ((c - 0xD800) * 1024 + (d - 0xDC00) + 0x10000)
               ++ buffer_from_utf8 rest'
        else [0xEF; 0xBF; 0xBD] ++ buffer_from_utf8 rest
      | [] => [0xEF; 0xBF; 0xBD]
      end
    else if URI.isLowSurrogate c then [0xEF; 0xBF; 0xBD] ++ buffer_from_utf8 rest
    else URI.utf8Octets c ++ buffer_from_utf8 rest
  end.

Module Buffer.

(** The character of a 6-bit value in the standard alphabet. *)
Definition base64Char (v : N) : N :=
  if v <? 26 then 0x41 + v
  else if v <? 52 then 0x61 + (v - 26)
  else if v <? 62 then 0x30 + (v - 52)
  else if v =? 62 then 0x2B
  else 0x2F.

(** [buf.toString("base64")]. *)
Fixpoint toBase64 (bytes : list N) : jsstring :=
  match bytes with
  | [] => []
  | [a] => [base64Char (a / 4); base64Char ((a mod 4) * 16); 0x3D; 0x3D]
  | [a; b] =>
    [base64Char (a / 4); base64Char ((a mod 4) * 16 + b / 16);
     base64Char ((b mod 16) * 4); 0x3D]
  | a :: b :: c :: rest =>
    [base64Char (a / 4); base64Char ((a mod 4) * 16 + b / 16);
     base64Char ((b mod 16) * 4 + c / 64); base64Char (c mod 64)]
    ++ toBase64 rest
  end.

(** The 6-bit values of a sequence of bytes, without padding. *)
Fixpoint bytesSextets (bytes : list N) : list N :=
  match bytes with
  | [] => []
  | [a] => [a / 4; (a mod 4) * 16]
  | [a; b] => [a / 4; (a mod 4) * 16 + b / 16; (b mod 16) * 4]
  | a :: b :: c :: rest =>
    [a / 4; (a mod 4) * 16 + b / 16; (b mod 16) * 4 + c / 64; c mod 64]
    ++ bytesSextets rest
  end.

Definition padding (bytes : list N) : jsstring :=
  match (length bytes mod 3)%nat with
  | 1%nat => [0x3D; 0x3D]
  | 2%nat => [0x3D]
  | _ => []
  end.

Definition isByte (b : N) : Prop := b < 256.
Definition isSextet (v : N) : Prop := v < 64.

(** The URL-safe character of a 6-bit value. *)
Definition urlChar (v : N) : N :=
  let c := base64Char v in
  if c =? 0x2B then 0x2D else if c =? 0x2F then 0x5F else c.

(** The value of a character; the decoder also takes the URL-safe
    alphabet. *)
Definition unbase64 (c : N) : option N :=
  if (0x41 <=? c) && (c <=? 0x5A) then Some (c - 0x41)
  else if (0x61 <=? c) && (c <=? 0x7A) then Some (c - 0x61 + 26)
  else if (0x30 <=? c) && (c <=? 0x39) then Some (c - 0x30 + 52)
  else if (c =? 0x2B) || (c =? 0x2D) then Some 62
  else if (c =? 0x2F) || (c =? 0x5F) then Some 63
  else None.

(** The values up to the first [=]; other characters are skipped. *)
Fixpoint sextets (s : jsstring) : list N :=
  match s with
  | [] => []
  | c :: rest =>
    if c =? 0x3D then []
    else match unbase64 c with
         | Some v => v :: sextets rest
         | None => sextets rest
         end
  end.

Fixpoint fromSextets (vs : list N) : list N :=
  match vs with
  | a :: b :: c :: d :: rest =>
    [a * 4 + b / 16; (b mod 16) * 16 + c / 4; (c mod 4) * 64 + d]
    ++ fromSextets rest
  | [a; b; c] => [a * 4 + b / 16; (b mod 16) * 16 + c / 4]
  | [a; b] => [a * 4 + b / 16]
  | _ => []
  end.

(** [Buffer.from(s, "base64")]. *)
Definition fromBase64 (s : jsstring) : list N := fromSextets (sextets s).

(** The UTF-8 decoder (WHATWG Encoding, 9.1.1): the code point so far, the
    number of bytes still needed, and the bounds of the next byte. *)
Definition decoderState : Type := N * nat * N * N.

(** A byte met when no byte is needed: what is emitted and what is
    expected next. *)
Definition utf8Lead (b : N) : jsstring * option decoderState :=
  if b <? 0x80 then ([b], None)
  else if (0xC2 <=? b) && (b <=? 0xDF)
  then ([], Some (b - 0xC0, 1%nat, 0x80, 0xBF))
  else if (0xE0 <=? b) && (b <=? 0xEF)
  then ([], Some (b - 0xE0, 2%nat,
                  (if b =? 0xE0 then 0xA0 else 0x80),
                  (if b =? 0xED then 0x9F else 0xBF)))
  else if (0xF0 <=? b) && (b <=? 0xF4)
  then ([], Some (b - 0xF0, 3%nat,
                  (if b =? 0xF0 then 0x90 else 0x80),
                  (if b =? 0xF4 then 0x8F else 0xBF)))
  else ([0xFFFD], None).

Fixpoint utf8Decode (st : option decoderState) (bytes : list N) : jsstring :=
  match bytes with
  | [] => match st with None => [] | Some _ => [0xFFFD] end
  | b :: rest =>
    match st with
    | None => fst (utf8Lead b) ++ utf8Decode (snd (utf8Lead b)) rest
    | Some (cp, needed, lower, upper) =>
      if (lower <=? b) && (b <=? upper) then
        let cp' := cp * 64 + (b - 0x80) in
        match needed with
        | S (S n) => utf8Decode (Some (cp', S n, 0x80, 0xBF)) rest
        | _ => utf16EncodeCodePoint cp' ++ utf8Decode None rest
        end
      else
        0xFFFD :: fst (utf8Lead b) ++ utf8Decode (snd (utf8Lead b)) rest
    end
  end.

(** [buf.toString("utf8")]. *)
Definition toStringUtf8 (bytes : list N) : jsstring := utf8Decode None bytes.

End Buffer.

(** ** Header values *)

(** The [filename*] parameter of a header value: what follows the first
    [filename*=UTF-8''], to be percent-decoded by the client. *)
Fixpoint extendedParameter (cd : jsstring) : option jsstring :=
  if startsWith cd (js "filename*=UTF-8''")
  then Some (drop 17 cd)
  else match cd with
       | [] => None
       | _ :: cd' => extendedParameter cd'
       end.

Definition isPrintableAscii (c : N) : bool := (0x20 <=? c) && (c <=? 0x7E).

(** ** Formats maps

    The loop [for (const c of candidates) if (formats[c]) { ...; break }]
    over a formats map: the first candidate whose entry is truthy, as a
    pair of [url] and [mime]. *)
Fixpoint firstCandidate (formats : gmap jsstring jsstring) (cs : list jsstring)
  : option (jsstring * jsstring) :=
  match cs with
  | [] => None
  | c :: cs' =>
    match formats !! c with
    | Some url => if truthy url then Some (url, c) else firstCandidate formats cs'
    | None => firstCandidate formats cs'
    end
  end.

(** An entry of the formats map that the loop accepts. *)
Definition usable (formats : gmap jsstring jsstring) (c : jsstring) : Prop :=
  exists url, formats !! c = Some url /\ truthy url = true.

(** [mime] is the first candidate of [cs] that is usable, and [url] is its
    entry: no candidate before it is usable. *)
Definition firstUsable (formats : gmap jsstring jsstring) (cs : list jsstring)
    (mime url : jsstring) : Prop :=
  exists before after,
    cs = before ++ mime :: after /\
    Forall (fun c => ~ usable formats c) before /\
    formats !! mime = Some url /\ truthy url = true.

(** ** The multi-source proxy with the Wikisource adapters *)

Module WikiProxy.

(** *** Unified ids: [gutenberg:<number>], [wsrc-ru:<encodedTitle>],
    [wsrc-ua:<encodedTitle>] *)

Definition makeId (source raw : jsstring) : outcome jsstring :=
  if str_eqb source (js "gutenberg") then Ret (js "gutenberg:" ++ raw)
  else if str_eqb source (js "wsrc-ru") then
    let* e := URI.encodeURIComponent raw in Ret (js "wsrc-ru:" ++ e)
  else if str_eqb source (js "wsrc-ua") then
    let* e := URI.encodeURIComponent raw in Ret (js "wsrc-ua:" ++ e)
  else Throw UnknownSource.

Record parsedId : Type := { source : jsstring; value : jsstring }.

(** [None] is [null]. *)
Definition parseId (id : jsstring) : outcome (option parsedId) :=
  if negb (truthy id) then Ret None
  else
    match split_on 0x3A id with
    | prefix :: rest :: _ =>
      if negb (truthy rest) then Ret None
      else if str_eqb prefix (js "gutenberg")
      then Ret (Some {| source := js "gutenberg"; value := rest |})
      else if str_eqb prefix (js "wsrc-ru") then
        let* v := URI.decodeURIComponent rest in
        Ret (Some {| source := js "wsrc-ru"; value := v |})
      else if str_eqb prefix (js "wsrc-ua") then
        let* v := URI.decodeURIComponent rest in
        Ret (Some {| source := js "wsrc-ua"; value := v |})
      else Ret None
    | _ => Ret None
    end.

(** *** Content-Disposition *)

(** The class [[a-zA-Z0-9._-]]. *)
Definition isFallbackChar (c : N) : bool :=
  ((0x61 <=? c) && (c <=? 0x7A)) || ((0x41 <=? c) && (c <=? 0x5A))
  || ((0x30 <=? c) && (c <=? 0x39))
  || (c =? 0x2E) || (c =? 0x5F) || (c =? 0x2D).

(** The string without its leading underscores. *)
Fixpoint dropUnderscores (s : jsstring) : jsstring :=
  match s with
  | c :: rest => if c =? 0x5F then dropUnderscores rest else s
  | [] => []
  end.

(** [s.replace(/^_+|_+$/g, empty)]. *)
Definition stripUnderscores (s : jsstring) : jsstring :=
  rev (dropUnderscores (rev (dropUnderscores s))).

(** Strings over [[a-zA-Z0-9._-]]. *)
Definition fallbackChars (s : jsstring) : Prop :=
  Forall (fun c => isFallbackChar c = true) s.

Definition withDot (ext : jsstring) : jsstring :=
  if startsWith ext (js ".") then ext else js "." ++ ext.

Section Headers.
(** [String.prototype.normalize("NFKD")] depends on the Unicode tables; the
    functions below take it as a parameter. *)
Variable normalizeNFKD : jsstring -> jsstring.

Definition asciiFallbackName (name ext : jsstring) : jsstring :=
  let base :=
    stripUnderscores
      (replaceRuns (fun c => negb (isFallbackChar c)) (js "_") false
        (List.filter (fun c => c <? 0x80)
          (normalizeNFKD (if truthy name then name else js "book")))) in
  let safeBase := if truthy base then base else js "book" in
  let safeExt := withDot ext in
  safeBase ++ safeExt.

Definition rfc5987Encode (str : jsstring) : outcome jsstring :=
  let* e := URI.encodeURIComponent str in
  Ret (replaceAll 0x2A (js "%2A")
        (replaceAll 0x29 (js "%29")
          (replaceAll 0x28 (js "%28")
            (replaceAll 0x27 (js "%27") e)))).

Record headers : Type := {
  contentType : jsstring;
  contentDisposition : jsstring;
  xContentTypeOptions : jsstring
}.

Definition setDownloadHeaders (filenameUnicode mime ext : jsstring)
  : outcome headers :=
  let safeExt := withDot ext in
  let fallback := asciiFallbackName filenameUnicode safeExt in
  let* encoded :=
    rfc5987Encode
      ((if truthy filenameUnicode then filenameUnicode else js "book")
       ++ safeExt) in
  let cd :=
    js "attachment; filename=" ++ [dquote] ++ fallback ++ [dquote]
    ++ js "; filename*=UTF-8''" ++ encoded in
  Ret {| contentType := mime;
         contentDisposition := cd;
         xContentTypeOptions := js "nosniff" |}.

End Headers.

(** *** Gutenberg download *)

Record book : Type := {
  book_title : jsstring;                   (* empty when absent *)
  book_formats : gmap jsstring jsstring    (* [book.formats || {}] *)
}.

(** The Gutendex API, by book id, and the file hosts, by URL. *)
Record gutendex : Type := {
  gutendex_book : jsstring -> fetched book;
  gutendex_file : jsstring -> fetched (list N)
}.

Record file : Type := {
  file_title : jsstring;
  file_mime : jsstring;
  file_ext : jsstring;
  file_buffer : list N
}.

Definition candidates : list jsstring :=
  [js "text/plain; charset=utf-8"; js "text/plain";
   js "application/epub+zip"; js "text/html; charset=utf-8"].

(** The output type and extension for the chosen [mime]. *)
Definition outputKind (mime : jsstring) : jsstring * jsstring :=
  if includes mime (js "epub") then (js "application/epub+zip", js "epub")
  else if includes mime (js "text/plain")
  then (js "text/plain; charset=utf-8", js "txt")
  else if includes mime (js "text/html")
  then (js "text/plain; charset=utf-8", js "txt")
  else (js "application/octet-stream", js "bin").

Definition downloadGutenberg (api : gutendex) (gutenbergId : jsstring)
  : outcome file :=
  match gutendex_book api gutenbergId with
  | Rejected => Throw FetchFailed
  | NotOk => Throw BookNotFound
  | Ok book =>
    match firstCandidate (book_formats book) candidates with
    | None => Throw NoReadableFormat
    | Some (url, mime) =>
      match gutendex_file api url with
      | Rejected => Throw FetchFailed
      | NotOk => Throw FileFetchFailed
      | Ok buffer =>
        let '(outMime, ext) := outputKind mime in
        Ret {| file_title :=
                 if truthy (book_title book) then book_title book
                 else js "gutenberg_" ++ gutenbergId;
               file_mime := outMime;
               file_ext := ext;
               file_buffer := buffer |}
      end
    end
  end.

(** *** Wikisource: the classifier *)

Definition badPrefixes : list jsstring :=
  [js "Категория:"; js "Category:";
   js "Служебная:"; js "Special:";
   js "Файл:"; js "File:";
   js "Шаблон:"; js "Template:";
   js "Обсуждение:"; js "Talk:";
   js "Портал:"; js "Portal:";
   js "Викиисточник:"; js "Wikisource:";
   js "Index:"; js "Page:";
   js "Автор:"; js "Author:"].

Definition isBadWikisourceTitle (t : jsstring) : bool :=
  if negb (truthy t) then true
  else
    let s := trim t in
    existsb (fun p => startsWith s p) badPrefixes.

(** [lines.filter((l) => /^\s*[\*\-•]/.test(l)).length]. *)
Definition listyLines (x : jsstring) : N :=
  N.of_nat (length (List.filter RegExp.test_bullet (split_on 0x0A x))).

(** The same count as a natural number. *)
Definition bulletCount (s : jsstring) : nat :=
  length (List.filter RegExp.test_bullet (split_on 0x0A s)).

Definition headingWords : list jsstring :=
  [js "Содержание"; js "Зміст"; js "Contents"].
Definition contentsWords : list jsstring :=
  [js "Оглавление"; js "Зміст"; js "Содержание"].
Definition worksWords : list jsstring :=
  [js "Произведения"; js "Твори"; js "Works"].

Definition looksLikeIndexOrList (title text : jsstring) : bool :=
  let t := trim title in
  if isBadWikisourceTitle t then true
  else
    let x := trim text in
    if negb (truthy x) then true
    else if (strlen x <? 2000) && (8 <=? listyLines x) then true
    else if RegExp.test_heading_i headingWords x then true
    else if RegExp.test_words_i contentsWords x && (strlen x <? 8000) then true
    else if RegExp.test_words_i worksWords x && (strlen x <? 12000) then true
    else false.

(** *** Wikisource: the MediaWiki API *)

(** The first page of a [prop=extracts] answer. *)
Record wikipage : Type := {
  page_missing : bool;
  page_title : jsstring;      (* empty when absent *)
  page_extract : jsstring     (* empty when absent *)
}.

Inductive request : Type :=
| ReqExtract (title : jsstring)
| ReqLinks (title : jsstring) (limit : N).

(** The remote site, through [fetchJson].  An answer may depend on the
    requests made so far.  [ws_extract] gives the first page of the answer,
    if it has one, and [ws_links] the titles of the links of that page. *)
Record wikisource : Type := {
  ws_extract : list request -> jsstring -> fetched (option wikipage);
  ws_links : list request -> jsstring -> N -> fetched (list jsstring)
}.

(** [fetchJson] throws when the request fails or the response is not
    [ok]. *)
Definition fetchJson {A} (r : fetched A) : outcome A :=
  match r with
  | Ok data => Ret data
  | Rejected | NotOk => Throw FetchFailed
  end.

(** Computations that talk to the site: the log of the requests made so far
    is threaded through, and kept when an exception is thrown. *)
Definition wiki (A : Type) : Type := list request -> outcome A * list request.

Definition wret {A} (a : A) : wiki A := fun log => (Ret a, log).
Definition wthrow {A} (e : error) : wiki A := fun log => (Throw e, log).
Definition wbind {A B} (m : wiki A) (k : A -> wiki B) : wiki B :=
  fun log =>
    match m log with
    | (Ret a, log') => k a log'
    | (Throw e, log') => (Throw e, log')
    end.

Notation "'await' x ':=' m 'in' k" := (wbind m (fun x => k))
  (at level 10, x pattern, m at level 100, k at level 200).

Definition fetchExtract (api : wikisource) (title : jsstring)
  : wiki (option wikipage) :=
  fun log => (fetchJson (ws_extract api log title), log ++ [ReqExtract title]).

Definition fetchLinks (api : wikisource) (title : jsstring) (limit : N)
  : wiki (list jsstring) :=
  fun log =>
    (fetchJson (ws_links api log title limit), log ++ [ReqLinks title limit]).

Definition getWikisourcePlain (api : wikisource) (title : jsstring)
  : wiki (jsstring * jsstring) :=
  await page := fetchExtract api title in
  match page with
  | None => wthrow PageNotFound
  | Some p =>
    if page_missing p then wthrow PageNotFound
    else
      let outTitle := if truthy (page_title p) then page_title p else title in
      let text := trim (page_extract p) in
      wret (outTitle, text)
  end.

Definition getWikisourceCandidateLinks (api : wikisource) (title : jsstring)
    (max : N) : wiki (list jsstring) :=
  await links := fetchLinks api title (N.min max 200) in
  wret (List.filter truthy links).

(** [None] is [null]. *)
Definition pickBestLink (currentTitle : jsstring) (links : list jsstring)
  : option jsstring :=
  let cur := trim currentTitle in
  let filtered :=
    List.filter (fun s => negb (isBadWikisourceTitle s))
      (List.filter (fun s => truthy s && negb (str_eqb s cur))
        (map trim links)) in
  match filtered with
  | [] => None
  | first :: _ =>
    let noColon := List.filter (fun s => negb (includes s (js ":"))) filtered in
    match noColon with
    | best :: _ => Some best
    | [] => Some first
    end
  end.

(** The loop [for (let hop = 0; hop < 2; hop++)], with the number of
    iterations left; it returns [resolvedTitle] and [text]. *)
Fixpoint followLinks (api : wikisource) (hopsLeft : nat)
    (resolvedTitle text : jsstring) : wiki (jsstring * jsstring) :=
  match hopsLeft with
  | O => wret (resolvedTitle, text)
  | S hopsLeft' =>
    if negb (looksLikeIndexOrList resolvedTitle text)
    then wret (resolvedTitle, text)
    else
      await links := getWikisourceCandidateLinks api resolvedTitle 120 in
      match pickBestLink resolvedTitle links with
      | None => wret (resolvedTitle, text)
      | Some best =>
        await next := getWikisourcePlain api best in
        if str_eqb (fst next) resolvedTitle then wret (resolvedTitle, text)
        else followLinks api hopsLeft' (fst next) (snd next)
      end
  end.

(** The check after the loop. *)
Definition resolvedFile (resolvedTitle text : jsstring) : outcome file :=
  if negb (truthy text) || looksLikeIndexOrList resolvedTitle text
  then Throw IndexPage
  else Ret {| file_title := resolvedTitle;
              file_mime := js "text/plain; charset=utf-8";
              file_ext := js "txt";
              file_buffer := buffer_from_utf8 text |}.

Definition downloadWikisourceSmart (api : wikisource) (title : jsstring)
  : wiki file :=
  await first := getWikisourcePlain api title in
  await last := followLinks api 2 (fst first) (snd first) in
  fun log => (resolvedFile (fst last) (snd last), log).

(** The requests of a log that fetch a page text, and those that list the
    links of a page. *)
Definition isExtract (r : request) : bool :=
  match r with ReqExtract _ => true | ReqLinks _ _ => false end.
Definition isLinks (r : request) : bool :=
  match r with ReqExtract _ => false | ReqLinks _ _ => true end.

(** The link-follow hops of a download: the page texts fetched after the
    one of the starting title. *)
Definition linkFollowHops (log : list request) : nat :=
  pred (length (List.filter isExtract log)).

(** *** Search *)

(** [Number.isFinite(n) && n > 0 ? n : def]: neither [NaN] nor an infinity
    is finite. *)
Definition safeInt (v : option jsstring) (def : Z) : Z :=
  match v with
  | None => def
  | Some s =>
    match parseInt s with
    | Finite n => if (0 <? n)%Z then n else def
    | NaN | Infinity _ => def
    end
  end.

Record item : Type := {
  item_id : jsstring;
  item_title : jsstring;
  item_author : jsstring;
  item_lang : jsstring;
  item_source : jsstring;
  item_formats : list jsstring
}.

(** What an adapter resolves to. *)
Record found : Type := { items : list item; hasMore : bool }.

(** The three adapters, as functions of [q] and [page]; [Throw] is a
    promise that rejects. *)
Record adapters : Type := {
  searchGutenberg : jsstring -> Z -> outcome found;
  searchWikisourceRu : jsstring -> Z -> outcome found;
  searchWikisourceUa : jsstring -> Z -> outcome found
}.

(** One iteration of [for (const r of [g, ru, ua])]. *)
Definition collect (acc : list item * bool) (r : outcome found)
  : list item * bool :=
  match r with
  | Ret v => (fst acc ++ items v, snd acc || hasMore v)
  | Throw _ => acc
  end.

(** The weight [w] of the comparator. *)
Definition weight (hasCyr : bool) (x : item) : Z :=
  if negb hasCyr
  then (if str_eqb (item_source x) (js "gutenberg") then 0 else 1)%Z
  else if str_eqb (item_source x) (js "wsrc-ru") then 0%Z
  else if str_eqb (item_source x) (js "wsrc-ua") then 0%Z
  else 2%Z.

Definition searchHandler (srv : adapters) (query_q query_page : option jsstring)
  : response item :=
  let q := trim (default [] query_q) in
  let page := safeInt query_page 1 in
  if negb (truthy q) then BadRequest (js "Query is empty")
  else
    let g := searchGutenberg srv q page in
    let ru := searchWikisourceRu srv q page in
    let ua := searchWikisourceUa srv q page in
    let '(items, hasMore) := fold_left collect [g; ru; ua] ([], false) in
    let hasCyr := RegExp.test_cyrillic q in
    Results page hasMore
      (array_sort (fun a b => (weight hasCyr a - weight hasCyr b)%Z) items).

End WikiProxy.

(** ** The host with the OPDS parser: a sequential [/search] *)

Module OpdsHost.

Definition ENABLE_GUTENBERG : bool := true.
Definition ENABLE_STANDARD_EBOOKS : bool := true.
Definition ENABLE_INTERNET_ARCHIVE : bool := false.

(** [s.replace(/=+$/g, empty)]. *)
Fixpoint dropEquals (s : jsstring) : jsstring :=
  match s with
  | c :: rest => if c =? 0x3D then dropEquals rest else s
  | [] => []
  end.

Definition stripPadding (s : jsstring) : jsstring :=
  rev (dropEquals (rev s)).

Definition toB64Url (str : jsstring) : jsstring :=
  stripPadding
    (replaceAll 0x2F (js "_")
      (replaceAll 0x2B (js "-")
        (Buffer.toBase64 (buffer_from_utf8 str)))).

Definition fromB64Url (b64url : jsstring) : jsstring :=
  let b64 :=
    replaceAll 0x5F (js "/") (replaceAll 0x2D (js "+") b64url)
    ++ drop ((length b64url + 3) mod 4) (js "===") in
  Buffer.toStringUtf8 (Buffer.fromBase64 b64).

(** [Math.max(min, Math.min(max, n))], on the mathematical value of [n]:
    between bounds below 2^53, like the 1 and 999 of the program, the clamp
    of the Number is the same, since rounding keeps the order. *)
Definition clampInt (v : option jsstring) (def min max : Z) : Z :=
  match parseInt10 (default [] v) with
  | None => def
  | Some n => Z.max min (Z.min max n)
  end.

Section Search.
Context {Item : Type}.

(** What an adapter resolves to. *)
Record found : Type := { results : list Item; hasMore : bool }.

Record adapters : Type := {
  searchGutenberg : jsstring -> Z -> outcome found;
  searchStandardEbooks : jsstring -> Z -> outcome found;
  searchInternetArchive : jsstring -> Z -> outcome found
}.

(** The body of the [try] block after the test of [q]: an exception that
    is not caught inside leaves it. *)
Definition searchBody (srv : adapters) (q : jsstring) (page : Z)
  : outcome (list Item * bool) :=
  let acc := ([], false) in
  let* acc :=
    if ENABLE_GUTENBERG then
      let* g := searchGutenberg srv q page in
      Ret (fst acc ++ results g, snd acc || hasMore g)
    else Ret acc in
  let acc :=
    if ENABLE_STANDARD_EBOOKS then
      match searchStandardEbooks srv q page with
      | Ret se => (fst acc ++ results se, snd acc || hasMore se)
      | Throw _ => acc
      end
    else acc in
  let* acc :=
    if ENABLE_INTERNET_ARCHIVE then
      let* ia := searchInternetArchive srv q page in
      Ret (fst acc ++ results ia, snd acc || hasMore ia)
    else Ret acc in
  Ret acc.

Definition searchHandler (srv : adapters) (query_q query_page : option jsstring)
  : response Item :=
  let q := trim (default [] query_q) in
  let page := clampInt query_page 1 1 999 in
  if negb (truthy q) then Results page false []
  else
    match searchBody srv q page with
    | Ret (results, hasMore) => Results page hasMore results
    | Throw e => ServerError e
    end.

End Search.
Arguments found Item : clear implicits.
Arguments adapters Item : clear implicits.

End OpdsHost.

(** ** The Gutenberg + Standard Ebooks proxy of [server.js] *)

Module EbooksProxy.

Definition ENABLE_GUTENBERG : bool := true.
Definition ENABLE_STANDARD_EBOOKS : bool := true.
Definition ENABLE_INTERNET_ARCHIVE : bool := false.

(** The class [[\\/:*?<>|]] with the double quote. *)
Definition isReservedChar (c : N) : bool :=
  (c =? 0x5C) || (c =? 0x2F) || (c =? 0x3A) || (c =? 0x2A) || (c =? 0x3F)
  || (c =? dquote) || (c =? 0x3C) || (c =? 0x3E) || (c =? 0x7C).

(** ASCII-only fallback for the [filename=] parameter. *)
Definition safeAsciiFilename (name : jsstring) : jsstring :=
  let base :=
    trim
      (replaceRuns isWhiteSpace (js " ") false
        (replaceRuns isReservedChar (js "_") false
          (List.filter (fun c => (0x20 <=? c) && (c <=? 0x7E))
            (if truthy name then name else js "book")))) in
  if truthy base then base else js "book".

Definition contentDisposition (filenameUtf8 : jsstring) : outcome jsstring :=
  let fallback := safeAsciiFilename filenameUtf8 in
  let* encoded :=
    URI.encodeURIComponent
      (if truthy filenameUtf8 then filenameUtf8 else fallback) in
  Ret (js "attachment; filename=" ++ [dquote] ++ fallback ++ [dquote]
       ++ js "; filename*=UTF-8''" ++ encoded).

(** The formats object as its entries, in the order of [Object.keys]; the
    keys are distinct. *)
Abbreviation formatsObject := (list (jsstring * jsstring)).

(** [formats?.[key]]; [None] is [undefined]. *)
Fixpoint property (formats : formatsObject) (key : jsstring) : option jsstring :=
  match formats with
  | [] => None
  | (k, v) :: rest => if str_eqb k key then Some v else property rest key
  end.

(** Prefer EPUB, then plain text. *)
Definition candidates : list jsstring :=
  [js "application/epub+zip"; js "application/x-mobipocket-ebook";
   js "text/plain; charset=utf-8"; js "text/plain"].

(** An entry of the formats object that the loop accepts. *)
Definition usable (formats : formatsObject) (mime : jsstring) : Prop :=
  exists url, property formats mime = Some url /\ truthy url = true.

(** [mime] is the first candidate of [cs] that is usable, and [url] is its
    entry. *)
Definition firstUsable (formats : formatsObject) (cs : list jsstring)
    (mime url : jsstring) : Prop :=
  exists before after,
    cs = before ++ mime :: after /\
    Forall (fun c => ~ usable formats c) before /\
    property formats mime = Some url /\ truthy url = true.


(** The loop over [candidates], which returns [{mime, url}]. *)
Fixpoint firstFormat (formats : formatsObject) (cs : list jsstring)
  : option (jsstring * jsstring) :=
  match cs with
  | [] => None
  | mime :: cs' =>
    match property formats mime with
    | Some url =>
      if truthy url then Some (mime, url) else firstFormat formats cs'
    | None => firstFormat formats cs'
    end
  end.

(** [None] is [null]. *)
Definition pickBestFormat (formats : formatsObject)
  : option (jsstring * jsstring) :=
  match firstFormat formats candidates with
  | Some best => Some best
  | None =>
    (* Some Gutenberg entries have "text/plain; charset=us-ascii" etc *)
    match List.find (fun kv => startsWith (fst kv) (js "text/plain")) formats with
    | Some (key, _) => Some (key, default [] (property formats key))
    | None => None
    end
  end.

Definition clampStr (s : option jsstring) (max : nat) : jsstring :=
  let s := trim (default [] s) in
  if (max <? length s)%nat then take max s else s.

Section Search.
Context {Item : Type}.

(** The adapters resolve to an array of items. *)
Record adapters : Type := {
  searchGutenberg : jsstring -> outcome (list Item);
  searchStandardEbooks : jsstring -> outcome (list Item);
  searchInternetArchive : jsstring -> outcome (list Item)
}.

Definition searchHandler (srv : adapters) (query_q : option jsstring)
  : response Item :=
  let q := clampStr query_q 120 in
  if negb (truthy q) then Results 1 false []
  else
    let tasks :=
      (if ENABLE_GUTENBERG then [searchGutenberg srv q] else [])
      ++ (if ENABLE_STANDARD_EBOOKS then [searchStandardEbooks srv q] else [])
      ++ (if ENABLE_INTERNET_ARCHIVE then [searchInternetArchive srv q] else []) in
    Results 1 false (concat (fulfilled tasks)).

End Search.
Arguments adapters Item : clear implicits.

End EbooksProxy.

(** ** The single-source Gutendex host *)

Module GutendexHost.

Definition candidates : list jsstring :=
  [js "text/plain; charset=utf-8"; js "text/plain"; js "application/epub+zip"].

(** How [/download-best] goes on once the formats are known: status 404
    without a candidate, status 400 for a URL that looks like an index or a
    list, otherwise the download of [fileUrl]. *)
Inductive choice : Type :=
| NoFullBook
| IndexOrList
| Download (fileUrl mime : jsstring).

Definition chooseFile (formats : gmap jsstring jsstring) : choice :=
  match firstCandidate formats candidates with
  | None => NoFullBook
  | Some (fileUrl, mime) =>
    if includes fileUrl (js "index") || includes fileUrl (js "contents")
    then IndexOrList
    else Download fileUrl mime
  end.

End GutendexHost.

(** ** Sample data *)

Module Samples.

(** NFKD on strings over ASCII and the Russian alphabet, where only the
    letters with a breve or a diaeresis decompose. *)
Definition nfkdRussian (s : jsstring) : jsstring :=
  flat_map (fun c =>
    if c =? 0x439 then [0x438; 0x306]
    else if c =? 0x419 then [0x418; 0x306]
    else if c =? 0x451 then [0x435; 0x308]
    else if c =? 0x401 then [0x415; 0x308]
    else [c]) s.

(** A text of ten lines and 500 characters, of which the first [bullets]
    lines begin with a list marker. *)
Definition sampleLine (bullet : bool) : jsstring :=
  (if bullet then js "* " else js "xx") ++ repeat 0x78 47.

Fixpoint sampleLines (n bullets : nat) : jsstring :=
  match n with
  | O => [0x78]
  | S n' =>
    sampleLine (negb (bullets =? 0)%nat)
      ++ (match n' with O => [] | S _ => [0x0A] end)
      ++ sampleLines n' (pred bullets)
  end.

Definition sampleText (bullets : nat) : jsstring := sampleLines 10 bullets.

(** A book that has a plain text in US-ASCII and an EPUB. *)
Definition asciiAndEpub : gmap jsstring jsstring :=
  {[ js "text/plain; charset=us-ascii" := js "https://example.org/1.txt";
     js "application/epub+zip" := js "https://example.org/1.epub" ]}.

(** The same book as the entries of an object, with a UTF-8 text too. *)
Definition textAndEpub : EbooksProxy.formatsObject :=
  [(js "text/plain; charset=utf-8", js "https://example.org/1.txt.utf-8");
   (js "text/plain; charset=us-ascii", js "https://example.org/1.txt");
   (js "application/epub+zip", js "https://example.org/1.epub")].

(** A book that has an HTML edition only. *)
Definition htmlOnly : gmap jsstring jsstring :=
  {[ js "text/html; charset=utf-8" := js "https://example.org/2.html" ]}.

Definition sampleBook (formats : gmap jsstring jsstring) : WikiProxy.book :=
  {| WikiProxy.book_title := js "Emma"; WikiProxy.book_formats := formats |}.

Definition sampleGutendex (formats : gmap jsstring jsstring)
  : WikiProxy.gutendex :=
  {| WikiProxy.gutendex_book := fun _ => Ok (sampleBook formats);
     WikiProxy.gutendex_file := fun url => Ok (buffer_from_utf8 url) |}.

Definition sampleItem (source title : jsstring) : WikiProxy.item :=
  {| WikiProxy.item_id := source ++ js ":" ++ title;
     WikiProxy.item_title := title;
     WikiProxy.item_author := [];
     WikiProxy.item_lang := [];
     WikiProxy.item_source := source;
     WikiProxy.item_formats := [js "text/plain"] |}.

(** Adapters where Gutenberg finds two books and announces more, the
    Russian Wikisource is down and the Ukrainian one finds one page. *)
Definition sampleAdapters : WikiProxy.adapters :=
  {| WikiProxy.searchGutenberg := fun _ _ =>
       Ret {| WikiProxy.items := [sampleItem (js "gutenberg") (js "2600");
                                  sampleItem (js "gutenberg") (js "986")];
              WikiProxy.hasMore := true |};
     WikiProxy.searchWikisourceRu := fun _ _ => Throw FetchFailed;
     WikiProxy.searchWikisourceUa := fun _ _ =>
       Ret {| WikiProxy.items := [sampleItem (js "wsrc-ua") (js "Війна і мир")];
              WikiProxy.hasMore := false |} |}.

(** Adapters of the sequential host where Gutenberg is down and Standard
    Ebooks finds one book. *)
Definition sampleSequential : OpdsHost.adapters jsstring :=
  {| OpdsHost.searchGutenberg := fun _ _ => Throw FetchFailed;
     OpdsHost.searchStandardEbooks := fun _ _ =>
       Ret {| OpdsHost.results := [js "se:emma"]; OpdsHost.hasMore := false |};
     OpdsHost.searchInternetArchive := fun _ _ =>
       Ret {| OpdsHost.results := []; OpdsHost.hasMore := false |} |}.

Definition sampleEbooks : EbooksProxy.adapters jsstring :=
  {| EbooksProxy.searchGutenberg := fun _ => Ret [js "gutenberg:158"];
     EbooksProxy.searchStandardEbooks := fun _ => Throw FetchFailed;
     EbooksProxy.searchInternetArchive := fun _ => Ret [] |}.

(** A site where every page is a list of links, each to a page not seen
    before. *)
Definition indexWiki : WikiProxy.wikisource :=
  {| WikiProxy.ws_extract := fun _ title =>
       Ok (Some {| WikiProxy.page_missing := false;
                    WikiProxy.page_title := title;
                    WikiProxy.page_extract := sampleText 10 |});
     WikiProxy.ws_links := fun _ title _ => Ok [title ++ js "/1"] |}.

(** A site where every page is a list without links. *)
Definition deadEndWiki : WikiProxy.wikisource :=
  {| WikiProxy.ws_extract := fun _ title =>
       Ok (Some {| WikiProxy.page_missing := false;
                    WikiProxy.page_title := title;
                    WikiProxy.page_extract := sampleText 10 |});
     WikiProxy.ws_links := fun _ _ _ => Ok [] |}.

(** A site with one author page that lists a category and a novel. *)
Definition novelWiki : WikiProxy.wikisource :=
  {| WikiProxy.ws_extract := fun _ title =>
       Ok (Some {| WikiProxy.page_missing := false;
                    WikiProxy.page_title := title;
                    WikiProxy.page_extract :=
                      if str_eqb title (js "Война и мир")
                      then js "Eh bien, mon prince."
                      else sampleText 10 |});
     WikiProxy.ws_links := fun _ _ _ =>
       Ok [js "Категория:Романы"; js "Война и мир"] |}.

End Samples.


(** ** Routes: what the handlers answer, and the helpers they share

    The modules [WikiRoutes], [OpdsRoutes], [EbooksRoutes] and
    [GutendexRoutes] hold the adapters and the route handlers of the same
    four programs, and [ReaderRoutes] those of the first program of
    [server.js].  The remote services are functions of the URL that is
    requested; a handler answers with a [reply]. *)

(** [a.join(sep)]. *)
Definition join (sep : jsstring) (a : list jsstring) : jsstring :=
  match a with
  | [] => []
  | x :: rest => x ++ flat_map (fun y => sep ++ y) rest
  end.

(** [a.map(f)] for a callback that may throw. *)
Fixpoint mapOutcome {A B} (f : A -> outcome B) (a : list A) : outcome (list B) :=
  match a with
  | [] => Ret []
  | x :: rest =>
    let* y := f x in
    let* ys := mapOutcome f rest in
    Ret (y :: ys)
  end.

(** [s.endsWith(p)]. *)
Definition endsWith (s p : jsstring) : bool := startsWith (rev s) (rev p).

(** [s.replace(pattern, replacement)] for a pattern that is a string: the
    first occurrence is replaced. *)
Fixpoint replaceFirst (pattern replacement s : jsstring) : jsstring :=
  if startsWith s pattern then replacement ++ drop (length pattern) s
  else match s with
       | [] => []
       | c :: s' => c :: replaceFirst pattern replacement s'
       end.

(** What [res.setHeader] accepts in a value: Node throws on a code unit
    that matches [[^\t\x20-\x7e\x80-\xff]]. *)
Definition validHeaderChar (c : N) : bool :=
  (c =? 0x09) || ((0x20 <=? c) && (c <=? 0x7E)) || ((0x80 <=? c) && (c <=? 0xFF)).

Definition validHeaderValue (v : jsstring) : bool := forallb validHeaderChar v.

(** What a handler catches: an exception of the adapters, or one of the
    runtime. *)
Inductive fault : Type :=
| Raised (e : error)
| InvalidHeaderChar
| TypeError
| MissingDownloadUrl.

(** What a download handler answers: the file with its headers, a refusal
    with a status ([res.status(n).json({error})] or [res.status(n).send(..)])
    or the status 500 of the [catch] block. *)
Inductive reply : Type :=
| Sent (headers : list (jsstring * jsstring)) (body : list N)
| RefusedJson (status : N) (message : jsstring)
| RefusedText (status : N) (message : jsstring)
| Failed (f : fault).

(** The calls of [res.setHeader], in order, and then [res.send(body)]. *)
Definition send (headers : list (jsstring * jsstring)) (body : list N) : reply :=
  if forallb (fun h => validHeaderValue (snd h)) headers
  then Sent headers body
  else Failed InvalidHeaderChar.

(** What an adapter of a download route comes to: a value, or what the
    [catch] block of the handler receives. *)
Inductive attempt (A : Type) : Type :=
| Done (a : A)
| Fault (f : fault).
Arguments Done {A} a.
Arguments Fault {A} f.

Definition raised {A} (m : outcome A) : attempt A :=
  match m with Ret a => Done a | Throw e => Fault (Raised e) end.

(** [a.map(f)] for a callback that may throw. *)
Fixpoint mapAttempt {A B} (f : A -> attempt B) (a : list A) : attempt (list B) :=
  match a with
  | [] => Done []
  | x :: rest =>
    match f x with
    | Fault e => Fault e
    | Done y =>
      match mapAttempt f rest with
      | Fault e => Fault e
      | Done ys => Done (y :: ys)
      end
    end
  end.

(** [await fetch(url)], the test of [r.ok] and the body. *)
Definition fetchOk {A} (r : fetched A) : outcome A :=
  match r with Ok body => Ret body | Rejected | NotOk => Throw FetchFailed end.

(** [a.slice(start, end)] (ECMA-262, 23.1.3.28): a negative index counts
    from the end, and both are clamped to the array. *)
Definition array_slice {A} (a : list A) (start final : Z) : list A :=
  let len := Z.of_nat (length a) in
  let k := (if start <? 0 then Z.max (len + start) 0 else Z.min start len)%Z in
  let e := (if final <? 0 then Z.max (len + final) 0 else Z.min final len)%Z in
  take (Z.to_nat (e - k)) (drop (Z.to_nat k) a).

(** [a || b] on values that may be [null] or [undefined]: [None], like the
    empty string, is falsy. *)
Definition truthyValue (v : option jsstring) : bool :=
  match v with Some s => truthy s | None => false end.

Definition orElse (a b : option jsstring) : option jsstring :=
  if truthyValue a then a else b.

(** [s.split(sep)] for a separator of several code units; [skip] counts the
    code units of a separator that are still to be passed, and [cur] holds
    the current part, reversed. *)
Fixpoint split_str_from (sep : jsstring) (skip : nat) (cur s : jsstring)
  : list jsstring :=
  match s with
  | [] => [rev cur]
  | c :: s' =>
    match skip with
    | S k => split_str_from sep k cur s'
    | O =>
      if startsWith s sep
      then rev cur :: split_str_from sep (pred (length sep)) [] s'
      else split_str_from sep 0 (c :: cur) s'
    end
  end.

Definition split_str (sep s : jsstring) : list jsstring :=
  split_str_from sep 0 [] s.

(** [/^prefix/i.test(s)] and [s.replace(/^prefix/i, empty)]. *)
Definition testPrefix_i (prefix s : jsstring) : bool :=
  match RegExp.matchesAt_i prefix s with Some _ => true | None => false end.

Definition stripPrefix_i (prefix s : jsstring) : jsstring :=
  match RegExp.matchesAt_i prefix s with Some rest => rest | None => s end.

(** ** The routes of the proxy with the Wikisource adapters *)

Module WikiRoutes.
Import WikiProxy.

Definition GUTENDEX : jsstring := js "https://gutendex.com/books".
Definition WS_RU : jsstring := js "https://ru.wikisource.org/w/api.php".
Definition WS_UA : jsstring := js "https://uk.wikisource.org/w/api.php".

(** A book of a Gutendex answer. *)
Record gutendexBook : Type := {
  gb_id : jsstring;               (* [b.id], as a template literal prints it *)
  gb_title : jsstring;            (* empty when absent *)
  gb_authors : list jsstring;     (* the names of [b.authors || []] *)
  gb_languages : list jsstring;   (* [b.languages || []] *)
  gb_formats : list jsstring      (* [Object.keys(b.formats || {})] *)
}.

Record gutendexPage : Type := {
  gp_results : list gutendexBook;   (* [data.results || []] *)
  gp_next : bool                    (* [Boolean(data.next)] *)
}.

(** A [list=search] answer of MediaWiki. *)
Record wikiHits : Type := {
  wh_search : list jsstring;        (* the titles of [data?.query?.search || []] *)
  wh_totalhits : option Z           (* [data?.query?.searchinfo?.totalhits] *)
}.

(** The remote services: the two search APIs by URL, the Gutendex books and
    files, and the Wikisource sites by the URL of their API. *)
Record internet : Type := {
  web_gutendex_search : jsstring -> fetched gutendexPage;
  web_wiki_search : jsstring -> fetched wikiHits;
  web_gutendex : gutendex;
  web_wikisource : jsstring -> wikisource
}.

Section Search.
(** [Number::toString] (ECMA-262, 6.1.6.1.20), which prints the shortest
    decimal form that reads back as the same number, is a parameter. *)
Variable numberToString : number -> jsstring.
Variable web : internet.

Definition searchGutenberg (q : jsstring) (page : Z) : outcome found :=
  let* e := URI.encodeURIComponent q in
  let url :=
    GUTENDEX ++ js "?search=" ++ e ++ js "&page=" ++ numberToString (Finite page) in
  let* data := fetchJson (web_gutendex_search web url) in
  let* items :=
    mapOutcome (fun b =>
      let* id := makeId (js "gutenberg") (gb_id b) in
      Ret {| item_id := id;
             item_title := gb_title b;
             item_author := join (js ", ") (gb_authors b);
             item_lang := match gb_languages b with l :: _ => l | [] => [] end;
             item_source := js "gutenberg";
             item_formats := gb_formats b |})
      (gp_results data) in
  Ret {| items := items; hasMore := gp_next data |}.

Definition searchWikisource (apiUrl q : jsstring) (page : Z) (tag : jsstring)
  : outcome found :=
  let limit := 20%Z in
  (* [(page - 1) * limit]: a difference or a product that is not a Number
     is rounded, and an infinity stays one *)
  let offset :=
    match numberOf (page - 1) with
    | Finite d => numberOf (d * limit)
    | other => other
    end in
  let* e := URI.encodeURIComponent q in
  let url :=
    apiUrl ++ js "?action=query&list=search"
    ++ js "&srsearch=" ++ e
    ++ js "&srlimit=" ++ numberToString (Finite limit)
    ++ js "&sroffset=" ++ numberToString offset
    ++ js "&format=json&origin=*" in
  let* data := fetchJson (web_wiki_search web url) in
  let results := wh_search data in
  let* items :=
    mapOutcome (fun title =>
      let* id := makeId tag title in
      Ret {| item_id := id;
             item_title := title;
             item_author := [];
             item_lang := if str_eqb tag (js "wsrc-ua") then js "uk" else js "ru";
             item_source := tag;
             item_formats := [js "text/plain"] |})
      results in
  let total := default 0%Z (wh_totalhits data) in
  Ret {| items := items;
         hasMore :=
           match offset with
           | Finite o =>
             match numberOf (o + Z.of_nat (length results)) with
             | Finite sum => (sum <? total)%Z
             | Infinity negative => negative
             | NaN => false
             end
           | Infinity negative => negative
           | NaN => false
           end |}.

(** The adapters of [/search], as [Promise.allSettled] receives them. *)
Definition searchAdapters : adapters :=
  {| WikiProxy.searchGutenberg := searchGutenberg;
     searchWikisourceRu := fun q page => searchWikisource WS_RU q page (js "wsrc-ru");
     searchWikisourceUa := fun q page => searchWikisource WS_UA q page (js "wsrc-ua") |}.

(** [GET /search]. *)
Definition search (query_q query_page : option jsstring) : response item :=
  searchHandler searchAdapters query_q query_page.

End Search.

Section Download.
Variable normalizeNFKD : jsstring -> jsstring.
Variable web : internet.

(** The end of the [try] block of [/download-best]: the headers, then the
    body. *)
Definition sendFile (f : file) : reply :=
  let title := if truthy (file_title f) then file_title f else js "book" in
  match setDownloadHeaders normalizeNFKD title (file_mime f) (file_ext f) with
  | Throw e => Failed (Raised e)
  | Ret h =>
    send [(js "Content-Type", contentType h);
          (js "Content-Disposition", contentDisposition h);
          (js "X-Content-Type-Options", xContentTypeOptions h)]
      (file_buffer f)
  end.

(** The dispatch on [parsed.source]; [None] is the last [else]. *)
Definition fetchFile (parsed : parsedId) : option (outcome file) :=
  if str_eqb (source parsed) (js "gutenberg")
  then Some (downloadGutenberg (web_gutendex web) (value parsed))
  else if str_eqb (source parsed) (js "wsrc-ru")
  then Some (fst (downloadWikisourceSmart (web_wikisource web WS_RU) (value parsed) []))
  else if str_eqb (source parsed) (js "wsrc-ua")
  then Some (fst (downloadWikisourceSmart (web_wikisource web WS_UA) (value parsed) []))
  else None.

(** [GET /download-best]. *)
Definition downloadBest (query_id : option jsstring) : reply :=
  let id := default [] query_id in
  if negb (truthy id) then RefusedJson 400 (js "Missing id")
  else
    match parseId id with
    | Throw e => Failed (Raised e)
    | Ret None => RefusedJson 400 (js "Bad id format")
    | Ret (Some parsed) =>
      match fetchFile parsed with
      | None => RefusedJson 400 (js "Unknown source")
      | Some (Throw e) => Failed (Raised e)
      | Some (Ret f) => sendFile f
      end
    end.

End Download.

End WikiRoutes.

(** ** The routes of the host with the OPDS parser *)

Module OpdsRoutes.
Import OpdsHost.

Definition SE_OPDS_SEARCH_URL : jsstring := js "https://standardebooks.org/opds/search".

(** The class of the characters [<], [>], [:], [/], [\], [|], [?] and the
    asterisk, with the double quote and the control characters up to
    U+001F. *)
Definition isReplacedChar (c : N) : bool :=
  (c =? 0x3C) || (c =? 0x3E) || (c =? 0x3A) || (c =? dquote) || (c =? 0x2F)
  || (c =? 0x5C) || (c =? 0x7C) || (c =? 0x3F) || (c =? 0x2A) || (c <=? 0x1F).

(** A book of Gutendex, as the search and the download read it. *)
Record gutendexBook : Type := {
  b_id : jsstring;                        (* [b.id], as a template literal prints it *)
  b_title : jsstring;                     (* empty when absent *)
  b_authors : list jsstring;              (* the names of [b.authors] *)
  b_languages : list jsstring;            (* [b.languages] *)
  b_formats : gmap jsstring jsstring      (* [b.formats || {}] *)
}.

Record gutendexPage : Type := {
  gp_results : list gutendexBook;         (* [data.results || []] *)
  gp_next : bool                          (* [Boolean(data.next)] *)
}.

(** An entry of an OPDS feed, as [parseOpdsEntries] returns it; [None] is
    [null]. *)
Record opdsEntry : Type := {
  entry_title : jsstring;
  entry_author : jsstring;
  entry_textUrl : option jsstring;
  entry_epubUrl : option jsstring
}.

Record item : Type := {
  item_id : jsstring;
  item_title : jsstring;
  item_author : jsstring;
  item_lang : jsstring;
  item_formats : list jsstring
}.

(** What [gutenbergDownloadBest] and [standardEbooksDownloadBest] return. *)
Record pick : Type := {
  pick_url : jsstring;
  pick_filename : jsstring;
  pick_mime : jsstring
}.

(** The remote services, by URL. *)
Record internet : Type := {
  web_search : jsstring -> fetched gutendexPage;
  web_book : jsstring -> fetched gutendexBook;
  web_text : jsstring -> fetched jsstring;
  web_bytes : jsstring -> fetched (list N)
}.

(** [fetchText] and [fetchBytes] throw when the request fails or the
    response is not [ok]. *)
Definition fetchText (r : fetched jsstring) : outcome jsstring :=
  match r with Ok t => Ret t | Rejected | NotOk => Throw FetchFailed end.

Definition fetchBytes (r : fetched (list N)) : outcome (list N) :=
  match r with Ok b => Ret b | Rejected | NotOk => Throw FetchFailed end.

(** [formats[key]] when it is truthy. *)
Definition format (formats : gmap jsstring jsstring) (key : jsstring)
  : option jsstring :=
  match formats !! key with
  | Some url => if truthy url then Some url else None
  | None => None
  end.

(** Prefer plain text. *)
Definition plainFormat (formats : gmap jsstring jsstring) : option jsstring :=
  orElse (format formats (js "text/plain; charset=utf-8"))
    (orElse (format formats (js "text/plain; charset=us-ascii"))
       (format formats (js "text/plain"))).

Definition epubFormat (formats : gmap jsstring jsstring) : option jsstring :=
  format formats (js "application/epub+zip").

Section Host.
(** [normalize("NFKD")] and [toLowerCase] depend on the Unicode tables,
    [parseOpdsEntries] reads the feed with regular expressions that are not
    modelled here, and [Number::toString] prints a page in the URL of a
    search: the four are parameters.  The pages that [/search] passes on lie
    between 1 and 999, where the arithmetic of Numbers is exact. *)
Variable numberToString : number -> jsstring.
Variable normalizeNFKD : jsstring -> jsstring.
Variable toLowerCase : jsstring -> jsstring.
Variable parseOpdsEntries : jsstring -> list opdsEntry.
Variable web : internet.

Definition safeFilename (name : jsstring) : jsstring :=
  let base :=
    take 120
      (trim
        (replaceRuns isWhiteSpace (js " ") false
          (map (fun c => if isReplacedChar c then 0x20 else c)
            (if truthy name then name else js "book")))) in
  (* ASCII-only for Content-Disposition safety *)
  let ascii :=
    trim (List.filter (fun c => (0x20 <=? c) && (c <=? 0x7E)) (normalizeNFKD base)) in
  replaceRuns isWhiteSpace (js "_") false (if truthy ascii then ascii else js "book").

(** The entry of [results] for a book. *)
Definition gutenbergItem (b : gutendexBook) : item :=
  let plain := plainFormat (b_formats b) in
  let epub := epubFormat (b_formats b) in
  {| item_id := js "gutenberg:" ++ b_id b;
     item_title := b_title b;
     item_author := match b_authors b with a :: _ => a | [] => [] end;
     item_lang :=
       match b_languages b with
       | l :: _ => if truthy l then l else js "en"
       | [] => js "en"
       end;
     item_formats :=
       (if truthyValue plain then [js "text/plain"] else [])
       ++ (if truthyValue epub then [js "application/epub+zip"] else []) |}.

Definition searchGutenberg (q : jsstring) (page : Z) : outcome (found item) :=
  let* e := URI.encodeURIComponent q in
  let url :=
    js "https://gutendex.com/books?search=" ++ e ++ js "&page="
    ++ numberToString (Finite page) in
  let* data := fetchOk (web_search web url) in
  Ret {| results := map gutenbergItem (gp_results data);
         hasMore := gp_next data |}.

Definition gutenbergDownloadBest (idStr : jsstring) : attempt pick :=
  let id := stripPrefix_i (js "gutenberg:") idStr in
  match URI.encodeURIComponent id with
  | Throw e => Fault (Raised e)
  | Ret e =>
    let url := js "https://gutendex.com/books/" ++ e in
    match web_book web url with
    | Rejected | NotOk => Fault (Raised FetchFailed)
    | Ok b =>
      let plain := plainFormat (b_formats b) in
      let epub := epubFormat (b_formats b) in
      let title := if truthy (b_title b) then b_title b else js "book" in
      match plain, epub with
      | Some url, _ =>
        Done {| pick_url := url;
                pick_filename := safeFilename title ++ js ".txt";
                pick_mime := js "text/plain; charset=utf-8" |}
      | None, Some url =>
        Done {| pick_url := url;
                pick_filename := safeFilename title ++ js ".epub";
                pick_mime := js "application/epub+zip" |}
      | None, None => Fault (Raised NoReadableFormat)
      end
    end
  end.

(** The entry of [results] for an entry of the feed. *)
Definition standardItem (e : opdsEntry) : item :=
  let bestUrl := orElse (entry_textUrl e) (entry_epubUrl e) in
  let bestType :=
    if truthyValue (entry_textUrl e) then js "text/plain"
    else if truthyValue (entry_epubUrl e) then js "application/epub+zip"
    else [] in
  {| item_id :=
       js "se:" ++ toB64Url (if truthyValue bestUrl then default [] bestUrl
                            else js "about:blank");
     item_title := entry_title e;
     item_author := entry_author e;
     item_lang := js "en";
     item_formats := if truthy bestType then [bestType] else [] |}.

Definition searchStandardEbooks (q : jsstring) (page : Z) : outcome (found item) :=
  let* e := URI.encodeURIComponent q in
  let url := SE_OPDS_SEARCH_URL ++ js "?query=" ++ e in
  let* xml := fetchText (web_text web url) in
  let entries := parseOpdsEntries xml in
  let pageSize := 25%Z in
  let start := ((page - 1) * pageSize)%Z in
  let slice := array_slice entries start (start + pageSize) in
  Ret {| results := map standardItem slice;
         hasMore := (start + pageSize <? Z.of_nat (length entries))%Z |}.

Definition standardEbooksDownloadBest (idStr : jsstring) : attempt pick :=
  let payload := stripPrefix_i (js "se:") idStr in
  let url := fromB64Url payload in
  if negb (truthy url) || str_eqb url (js "about:blank")
  then Fault MissingDownloadUrl
  else
    let isTxt :=
      includes (toLowerCase url) (js ".txt") || includes (toLowerCase url) (js "text") in
    Done {| pick_url := url;
            pick_filename :=
              if isTxt then js "standard_ebook.txt" else js "standard_ebook.epub";
            pick_mime :=
              if isTxt then js "text/plain; charset=utf-8"
              else js "application/epub+zip" |}.

Definition searchInternetArchive (_q : jsstring) (_page : Z) : outcome (found item) :=
  Ret {| results := []; hasMore := false |}.

Definition searchAdapters : adapters item :=
  {| OpdsHost.searchGutenberg := searchGutenberg;
     OpdsHost.searchStandardEbooks := searchStandardEbooks;
     OpdsHost.searchInternetArchive := searchInternetArchive |}.

(** [GET /search]. *)
Definition search (query_q query_page : option jsstring) : response item :=
  searchHandler searchAdapters query_q query_page.

(** [GET /download-best]. *)
Definition downloadBest (query_id : option jsstring) : reply :=
  let id := trim (default [] query_id) in
  if negb (truthy id) then RefusedText 400 (js "Missing id")
  else
    let pick :=
      if testPrefix_i (js "gutenberg:") id then Some (gutenbergDownloadBest id)
      else if testPrefix_i (js "se:") id then Some (standardEbooksDownloadBest id)
      else None in
    match pick with
    | None => RefusedText 400 (js "Unknown id prefix")
    | Some (Fault f) => Failed f
    | Some (Done pick) =>
      match fetchBytes (web_bytes web (pick_url pick)) with
      | Throw e => Failed (Raised e)
      | Ret bytes =>
        send [(js "Content-Type", pick_mime pick);
              (js "Content-Disposition",
               js "attachment; filename=" ++ [dquote] ++ pick_filename pick ++ [dquote])]
          bytes
      end
    end.

End Host.

End OpdsRoutes.

(** ** The routes of the Gutenberg + Standard Ebooks proxy of [server.js] *)

Module EbooksRoutes.
Import EbooksProxy.

Record item : Type := {
  item_id : jsstring;
  item_title : jsstring;
  item_author : jsstring;
  item_lang : jsstring;
  item_source : jsstring;
  item_formats : list jsstring
}.

(** The defaults of [normalizeBook]; a missing field is empty here. *)
Definition normalizeBook (id title author lang source : jsstring)
    (formats : list jsstring) : item :=
  {| item_id := id;
     item_title := title;
     item_author := author;
     item_lang := lang;
     item_source := source;
     item_formats := formats |}.



(** A book of Gutendex. *)
Record gutendexBook : Type := {
  b_id : jsstring;                    (* [b.id], as a template literal prints it *)
  b_title : jsstring;                 (* empty when absent *)
  b_authors : list jsstring;          (* the names of [b.authors] *)
  b_languages : list jsstring;        (* [b.languages] *)
  b_formats : formatsObject           (* [b.formats || {}] *)
}.

(** What the regular expressions of the loop of [searchStandardEbooks] find
    in the text of an entry; a part that is not found is empty. *)
Record feedEntry : Type := {
  fe_title : jsstring;
  fe_author : jsstring;
  fe_href : jsstring;
  fe_type : jsstring
}.

(** What a download adapter returns. *)
Record delivery : Type := {
  bytes : list N;
  contentType : jsstring;
  filename : jsstring
}.

(** The extension guess of [downloadGutenberg], from the mime type in lower
    case. *)
Definition extensionOf (mimeLower : jsstring) : jsstring :=
  if includes mimeLower (js "epub") then js ".epub"
  else if includes mimeLower (js "text/plain") then js ".txt"
  else if includes mimeLower (js "mobipocket") || includes mimeLower (js "mobi")
  then js ".mobi"
  else js ".bin".

(** The remote services, by URL; a file comes with the URL that the
    response ends at ([fileResp.url], empty when absent). *)
Record internet : Type := {
  web_search : jsstring -> fetched (list gutendexBook);   (* [data.results || []] *)
  web_book : jsstring -> fetched gutendexBook;
  web_feed : jsstring -> fetched jsstring;
  web_file : jsstring -> fetched (list N * jsstring)
}.

Section Proxy.
(** [toLowerCase] depends on the Unicode tables, and the entries of the feed
    are read with regular expressions that are not modelled here: both are
    parameters. *)
Variable toLowerCase : jsstring -> jsstring.
Variable readEntry : jsstring -> feedEntry.
Variable web : internet.

Definition searchGutenberg (q : jsstring) : outcome (list item) :=
  let* e := URI.encodeURIComponent q in
  let url := js "https://gutendex.com/books/?search=" ++ e in
  let* results := fetchOk (web_search web url) in
  Ret (map (fun b =>
         normalizeBook (js "gutenberg:" ++ b_id b)
           (b_title b)
           (match b_authors b with a :: _ => a | [] => [] end)
           (match b_languages b with l :: _ => l | [] => [] end)
           (js "gutenberg")
           (map fst (b_formats b)))
       (take 30 results)).

Definition downloadGutenberg (gId : option jsstring) : outcome delivery :=
  let g := default (js "undefined") gId in
  let* e := URI.encodeURIComponent g in
  let url := js "https://gutendex.com/books/" ++ e in
  let* b := fetchOk (web_book web url) in
  match pickBestFormat (b_formats b) with
  | None => Throw NoReadableFormat
  | Some (mime, bestUrl) =>
    match web_file web bestUrl with
    | Rejected => Throw FetchFailed
    | NotOk => Throw FileFetchFailed
    | Ok (buffer, _) =>
      let mimeLower := toLowerCase mime in
      let ext := extensionOf mimeLower in
      let title := if truthy (b_title b) then b_title b else js "gutenberg-" ++ g in
      let first := match split_on 0x3B mime with part :: _ => part | [] => [] end in
      Ret {| bytes := buffer;
             contentType := if truthy first then first else js "application/octet-stream";
             filename := title ++ ext |}
    end
  end.

Definition searchStandardEbooks (q : jsstring) : outcome (list item) :=
  let* e := URI.encodeURIComponent q in
  let url := js "https://standardebooks.org/opds/all?query=" ++ e in
  let* xml := fetchOk (web_feed web url) in
  let entries := drop 1 (split_str (js "<entry>") xml) in
  Ret (flat_map (fun e =>
         let r := readEntry e in
         if truthy (fe_title r) && truthy (fe_href r)
         then [normalizeBook (js "standard:" ++ fe_href r) (fe_title r) (fe_author r)
                 (js "en") (js "standard") [fe_type r]]
         else [])
       (take 30 entries)).

Definition downloadStandardEbooks (href : jsstring) : outcome delivery :=
  match web_file web href with
  | Rejected => Throw FetchFailed
  | NotOk => Throw FileFetchFailed
  | Ok (buffer, responseUrl) =>
    (* Try to get filename from final URL *)
    let finalUrl := if truthy responseUrl then responseUrl else href in
    let popped := List.last (split_on 0x2F finalUrl) [] in
    let last := if truthy popped then popped else js "standard-ebook.epub" in
    let* name := URI.decodeURIComponent last in
    Ret {| bytes := buffer;
           contentType := js "application/epub+zip";
           filename := if endsWith name (js ".epub") then name else name ++ js ".epub" |}
  end.

Definition searchInternetArchive (_q : jsstring) : outcome (list item) :=
  if negb ENABLE_INTERNET_ARCHIVE then Ret [] else Ret [].

Definition searchAdapters : adapters item :=
  {| EbooksProxy.searchGutenberg := searchGutenberg;
     EbooksProxy.searchStandardEbooks := searchStandardEbooks;
     EbooksProxy.searchInternetArchive := searchInternetArchive |}.

(** [GET /search]. *)
Definition search (query_q : option jsstring) : response item :=
  searchHandler searchAdapters query_q.

(** The end of the [try] block of [/download-best]: the first header is
    set before the value of the second is computed. *)
Definition sendDelivery (out : delivery) : reply :=
  let type :=
    if truthy (contentType out) then contentType out
    else js "application/octet-stream" in
  if negb (validHeaderValue type) then Failed InvalidHeaderChar
  else
    match
      contentDisposition (if truthy (filename out) then filename out else js "book.bin")
    with
    | Throw e => Failed (Raised e)
    | Ret cd =>
      send [(js "Content-Type", type); (js "Content-Disposition", cd)] (bytes out)
    end.

(** [GET /download-best]. *)
Definition downloadBest (query_id : option jsstring) : reply :=
  let id := clampStr query_id 400 in
  if negb (truthy id) then RefusedText 400 (js "Missing id")
  else
    let parts := split_on 0x3A id in
    let source := match parts with s :: _ => s | [] => [] end in
    let rest := match parts with _ :: r :: _ => Some r | _ => None end in
    if str_eqb source (js "gutenberg") then
      match downloadGutenberg rest with
      | Throw e => Failed (Raised e)
      | Ret out => sendDelivery out
      end
    else if str_eqb source (js "standard") then
      (* rest is URL (href) *)
      let href := drop (length (js "standard:")) id in
      match downloadStandardEbooks href with
      | Throw e => Failed (Raised e)
      | Ret out => sendDelivery out
      end
    else if str_eqb source (js "archive") then
      if negb ENABLE_INTERNET_ARCHIVE
      then RefusedJson 400 (js "Internet Archive source is disabled (stage 1).")
      else RefusedJson 400 (js "Internet Archive not implemented yet.")
    else RefusedJson 400 (js "Unknown source").

End Proxy.

End EbooksRoutes.

(** ** [/download-best] of the single-source Gutendex host *)

Module GutendexRoutes.
Import GutendexHost.

Definition GUTENDEX : jsstring := js "https://gutendex.com/books".

(** The metadata of a book: [book.title] is [None] when it is absent
    ([undefined.replace] is a TypeError), and [formats] is
    [book.formats || {}]. *)
Record gutendexBook : Type := {
  book_title : option jsstring;
  book_formats : gmap jsstring jsstring
}.

(** The remote services, by URL. *)
Record internet : Type := {
  web_book : jsstring -> fetched gutendexBook;
  web_file : jsstring -> fetched (list N)
}.

(** The class [[a-z0-9а-яё]] of a pattern with the flag [i]: a code unit
    belongs to it when its canonical form is the one of a member. *)
Definition isNameChar (c : N) : bool :=
  let u := RegExp.canonicalize c in
  ((0x41 <=? u) && (u <=? 0x5A)) || ((0x30 <=? u) && (u <=? 0x39))
  || ((0x410 <=? u) && (u <=? 0x42F)) || (u =? 0x401).

(** [title.replace(/[^a-z0-9а-яё]/gi, "_").slice(0, 80)]. *)
Definition safeName (title : jsstring) : jsstring :=
  take 80 (map (fun c => if isNameChar c then c else 0x5F) title).

(** [GET /download-best]. *)
Definition downloadBest (web : internet) (query_id : option jsstring) : reply :=
  let id := default [] query_id in
  if negb (truthy id) then RefusedJson 400 (js "Missing id")
  else
    match web_book web (GUTENDEX ++ js "/" ++ id) with
    | Rejected => Failed (Raised FetchFailed)
    | NotOk => Failed (Raised BookNotFound)
    | Ok book =>
      match chooseFile (book_formats book) with
      | NoFullBook => RefusedJson 404 (js "No full book format found")
      | IndexOrList => RefusedJson 400 (js "Index/list page — not a full book")
      | Download fileUrl mime =>
        match web_file web fileUrl with
        | Rejected => Failed (Raised FetchFailed)
        | NotOk => Failed (Raised FileFetchFailed)
        | Ok buffer =>
          if strlen buffer <? 15000
          then RefusedJson 400 (js "File too small — probably not a full book")
          else
            match book_title book with
            | None => Failed TypeError
            | Some title =>
              let epub := includes mime (js "epub") in
              send
                [(js "Content-Type",
                  if epub then js "application/epub+zip"
                  else js "text/plain; charset=utf-8");
                 (js "Content-Disposition",
                  js "inline; filename=" ++ [dquote] ++ safeName title
                  ++ (if epub then js ".epub" else js ".txt") ++ [dquote])]
                buffer
            end
        end
      end
    end.

End GutendexRoutes.

(** ** The first program of [server.js] *)

Module ReaderRoutes.

(** [s?.replace(/\s+/g, " ").trim() || ""]; [None] is [undefined]. *)
Definition normalizeText (s : option jsstring) : jsstring :=
  match s with
  | Some s => trim (replaceRuns isWhiteSpace (js " ") false s)
  | None => []
  end.

Definition makeId (prefix value : jsstring) : jsstring :=
  prefix ++ js ":" ++ value.

(** The chain [formats["application/epub+zip"] ||
    formats["text/plain; charset=utf-8"] || formats["text/plain"]]; [None]
    is [undefined]. *)
Definition fileUrlOf (formats : gmap jsstring jsstring) : option jsstring :=
  orElse (formats !! js "application/epub+zip")
    (orElse (formats !! js "text/plain; charset=utf-8")
       (formats !! js "text/plain")).

(** A book of Gutendex; [b.formats] is [None] when it is absent, and reading
    a key of it is then a TypeError. *)
Record gutendexBook : Type := {
  b_id : jsstring;                              (* [b.id], as the template prints it *)
  b_title : option jsstring;
  b_author : option jsstring;                   (* [b.authors?.[0]?.name] *)
  b_formats : option (gmap jsstring jsstring)
}.

Record item : Type := {
  item_id : jsstring;
  item_title : jsstring;
  item_author : jsstring;
  item_downloadUrl : option jsstring
}.

(** What [/download] reads of a response: the header
    [response.headers.get("content-type")] and the body. *)
Record upstream : Type := {
  up_type : option jsstring;
  up_body : list N
}.

(** The remote services, by URL; [None] is a request, or the reading of its
    JSON, that fails.  No status is looked at. *)
Record internet : Type := {
  web_search : jsstring -> option (list gutendexBook);          (* [json.results || []] *)
  web_book : jsstring -> option (option (gmap jsstring jsstring));   (* [json.formats] *)
  web_file : jsstring -> option upstream
}.

(** The object that the [map] of [searchGutenberg] builds for a book. *)
Definition gutenbergItem (b : gutendexBook) : attempt item :=
  match b_formats b with
  | None => Fault TypeError
  | Some formats =>
    Done {| item_id := makeId (js "gutenberg") (b_id b);
            item_title := normalizeText (b_title b);
            item_author :=
              normalizeText
                (if truthyValue (b_author b) then b_author b
                 else Some (js "Unknown author"));
            item_downloadUrl := fileUrlOf formats |}
  end.

Section Server.
Variable web : internet.

Definition searchGutenberg (q : jsstring) : attempt (list item) :=
  match URI.encodeURIComponent q with
  | Throw e => Fault (Raised e)
  | Ret e =>
    match web_search web (js "https://gutendex.com/books/?search=" ++ e) with
    | None => Fault (Raised FetchFailed)
    | Some results =>
      match mapAttempt gutenbergItem results with
      | Fault f => Fault f
      | Done items => Done (List.filter (fun b => truthyValue (item_downloadUrl b)) items)
      end
    end
  end.

Definition downloadGutenberg (id : jsstring) : attempt upstream :=
  let bookId :=
    match split_on 0x3A id with
    | _ :: second :: _ => second
    | _ => js "undefined"
    end in
  match web_book web (js "https://gutendex.com/books/" ++ bookId) with
  | None => Fault (Raised FetchFailed)
  | Some None => Fault TypeError
  | Some (Some formats) =>
    let fileUrl := fileUrlOf formats in
    if negb (truthyValue fileUrl) then Fault (Raised NoReadableFormat)
    else
      match web_file web (default [] fileUrl) with
      | None => Fault (Raised FetchFailed)
      | Some response => Done response
      end
  end.

Definition downloadStandardEbooks (id : jsstring) : attempt upstream :=
  let url := replaceFirst (js "se:") [] id in
  match web_file web url with
  | None => Fault (Raised FetchFailed)
  | Some response => Done response
  end.

(** The end of the [try] block of [/download]: the two headers, and the
    body of the response piped to the client. *)
Definition pipeResponse (response : upstream) : reply :=
  send [(js "Content-Type",
         if truthyValue (up_type response) then default [] (up_type response)
         else js "application/octet-stream");
        (js "Content-Disposition", js "attachment")]
    (up_body response).

(** [GET /download]. *)
Definition download (query_id : option jsstring) : reply :=
  let id := default [] query_id in
  if negb (truthy id) then RefusedText 400 (js "Missing id")
  else
    let response :=
      if startsWith id (js "gutenberg:") then Some (downloadGutenberg id)
      else if startsWith id (js "se:") then Some (downloadStandardEbooks id)
      else None in
    match response with
    | None => RefusedText 400 (js "Unknown source")
    | Some (Fault f) => Failed f
    | Some (Done r) => pipeResponse r
    end.

End Server.

End ReaderRoutes.


(** ** Sample services *)

Module Fixtures.
Import WikiProxy WikiRoutes.




(** The file of the novel of [Samples.novelWiki]. *)
Definition novelFile : file :=
  {| file_title := js "Война и мир";
     file_mime := js "text/plain; charset=utf-8";
     file_ext := js "txt";
     file_buffer := buffer_from_utf8 (js "Eh bien, mon prince.") |}.

End Fixtures.

(** ** Sample services of the host with the OPDS parser *)

Module OpdsFixtures.
Import OpdsRoutes.

(** A book with a plain text in US-ASCII and an EPUB. *)
Definition emma : gutendexBook :=
  {| b_id := js "158";
     b_title := js "Emma: a novel";
     b_authors := [js "Austen, Jane"];
     b_languages := [js "en"];
     b_formats := Samples.asciiAndEpub |}.

(** An entry with an EPUB only, and one without a link. *)
Definition epubEntry : opdsEntry :=
  {| entry_title := js "Emma";
     entry_author := js "Jane Austen";
     entry_textUrl := None;
     entry_epubUrl := Some (js "https://standardebooks.org/ebooks/jane-austen/emma.epub") |}.

Definition bareEntry : opdsEntry :=
  {| entry_title := js "Persuasion";
     entry_author := js "Jane Austen";
     entry_textUrl := None;
     entry_epubUrl := None |}.

(** A parser that finds sixty entries in every feed. *)
Definition sixtyEntries (_ : jsstring) : list opdsEntry :=
  repeat epubEntry 59 ++ [bareEntry].

Definition library : internet :=
  {| web_search := fun _ => Ok {| gp_results := [emma]; gp_next := false |};
     web_book := fun url =>
       if str_eqb url (js "https://gutendex.com/books/158") then Ok emma else NotOk;
     web_text := fun _ => Ok (js "<feed/>");
     web_bytes := fun url => Ok (buffer_from_utf8 url) |}.

(** Lower case on ASCII strings. *)
Definition asciiLower (s : jsstring) : jsstring :=
  map (fun c => if (0x41 <=? c) && (c <=? 0x5A) then c + 0x20 else c) s.

End OpdsFixtures.

(** ** Sample services of the proxy of [server.js] *)

Module EbooksFixtures.
Import EbooksRoutes.

Definition emma : gutendexBook :=
  {| b_id := js "158";
     b_title := js "Emma";
     b_authors := [js "Austen, Jane"];
     b_languages := [js "en"];
     b_formats := Samples.textAndEpub |}.

(** A reader of entries that takes the text of the entry for its title. *)
Definition readPlain (e : jsstring) : feedEntry :=
  {| fe_title := e;
     fe_author := js "Jane Austen";
     fe_href := js "https://standardebooks.org/ebooks/" ++ e;
     fe_type := js "application/epub+zip" |}.

Definition shelf : internet :=
  {| web_search := fun _ => Ok [emma];
     web_book := fun _ => Ok emma;
     web_feed := fun _ => Ok (js "<feed><entry>emma<entry>persuasion");
     web_file := fun url => Ok (buffer_from_utf8 url, []) |}.

End EbooksFixtures.

(** ** Sample services of the single-source Gutendex host *)

Module GutendexFixtures.
Import GutendexRoutes.

(** A file of 16000 bytes. *)
Definition longFile : list N := repeat 0x61 (N.to_nat 16000).

Definition warAndPeace : gutendexBook :=
  {| book_title := Some (js "Война и мир");
     book_formats := {[ js "text/plain" := js "https://www.gutenberg.org/files/2600/2600.txt" ]} |}.

Definition emma : gutendexBook :=
  {| book_title := Some (js "Emma");
     book_formats := {[ js "text/plain" := js "https://www.gutenberg.org/files/158/158.txt" ]} |}.

Definition shelf : internet :=
  {| web_book := fun url =>
       if str_eqb url (js "https://gutendex.com/books/2600") then Ok warAndPeace
       else Ok emma;
     web_file := fun _ => Ok longFile |}.

End GutendexFixtures.

(** ** Sample services of the first program of [server.js] *)

Module ReaderFixtures.
Import ReaderRoutes.

Definition emma : gutendexBook :=
  {| b_id := js "158";
     b_title := Some (js "  Emma:  a   novel ");
     b_author := Some (js "Austen,  Jane");
     b_formats := Some Samples.asciiAndEpub |}.

Definition shelf : internet :=
  {| web_search := fun _ => Some [emma];
     web_book := fun url =>
       if str_eqb url (js "https://gutendex.com/books/158")
       then Some (Some Samples.asciiAndEpub) else None;
     web_file := fun url =>
       Some {| up_type := Some (js "application/epub+zip");
               up_body := buffer_from_utf8 url |} |}.

End ReaderFixtures.


(** * Part II: verification *)

(** Arithmetic with division by constants. *)
Ltac nlia := zify; Z.to_euclidean_division_equations; lia.

(** Case analysis on every comparison of the goal and the context. *)
Ltac nbool :=
  repeat match goal with
  | |- context [N.ltb ?a ?b] => destruct (N.ltb_spec a b)
  | |- context [N.leb ?a ?b] => destruct (N.leb_spec a b)
  | |- context [N.eqb ?a ?b] => destruct (N.eqb_spec a b)
  | H : context [N.ltb ?a ?b] |- _ => destruct (N.ltb_spec a b)
  | H : context [N.leb ?a ?b] |- _ => destruct (N.leb_spec a b)
  | H : context [N.eqb ?a ?b] |- _ => destruct (N.eqb_spec a b)
  end; simpl in *; try congruence; try nlia.

(** Turn a boolean equation over comparisons into arithmetic. *)
Ltac bool_arith :=
  repeat first
    [ rewrite andb_true_iff | rewrite orb_true_iff | rewrite negb_true_iff
    | rewrite andb_false_iff | rewrite orb_false_iff | rewrite negb_false_iff
    | rewrite N.leb_le | rewrite N.ltb_lt | rewrite N.eqb_eq
    | rewrite N.leb_gt | rewrite N.ltb_ge | rewrite N.eqb_neq ];
  nlia.

(** Decide the test of the conditional at the head of the goal. *)
Ltac if_true :=
  match goal with
  | |- (if ?c then _ else _) = _ =>
    let H := fresh in assert (H : c = true) by bool_arith; rewrite H; clear H
  end.
Ltac if_false :=
  match goal with
  | |- (if ?c then _ else _) = _ =>
    let H := fresh in assert (H : c = false) by bool_arith; rewrite H; clear H
  end.

Module URIFacts.
Import URI.

Lemma hexValue_hexDigit d : d < 16 -> hexValue (hexDigit d) = Some d.
Proof.
  intros Hd. unfold hexValue, hexDigit.
  destruct (N.ltb_spec d 10); nbool; f_equal; lia.
Qed.

Lemma parseHexOctet_percent b :
  b < 256 -> parseHexOctet (hexDigit (b / 16)) (hexDigit (b mod 16)) = Some b.
Proof.
  intros Hb. unfold parseHexOctet.
  rewrite !hexValue_hexDigit by nlia. f_equal. nlia.
Qed.

Lemma continuationOctets_percent bs rest :
  Forall (fun b => b < 256) bs ->
  continuationOctets (length bs) (flat_map percent bs ++ rest) = Some (bs, rest).
Proof.
  induction 1 as [|b bs Hb _ IH]; [reflexivity|].
  cbn [length flat_map percent app continuationOctets].
  rewrite N.eqb_refl, parseHexOctet_percent, IH by assumption. reflexivity.
Qed.

(** One iteration of [Decode] on a literal code unit. *)
Lemma Decode_literal f c rest :
  c <> 0x25 ->
  Decode (S f) (c :: rest) = let* r := Decode f rest in Ret (c :: r).
Proof.
  intros Hc. cbn [Decode]. destruct (N.eqb_spec c 0x25); [contradiction|reflexivity].
Qed.

(** One iteration of [Decode] on the escape of an ASCII octet. *)
Lemma Decode_ascii_escape f b rest :
  b < 0x80 ->
  Decode (S f) (percent b ++ rest) = let* r := Decode f rest in Ret (b :: r).
Proof.
  intros Hb. cbn [Decode percent app]. rewrite N.eqb_refl.
  rewrite parseHexOctet_percent by lia.
  unfold leadingOnes. destruct (N.ltb_spec b 0x80); [reflexivity|lia].
Qed.

(** One iteration of [Decode] on the escapes of a multi-octet sequence. *)
Lemma Decode_multi_escape f b bs v rest :
  b < 256 -> Forall (fun x => x < 256) bs ->
  leadingOnes b = S (length bs) -> (1 <= length bs <= 3)%nat ->
  utf8CodePoint (b :: bs) = Some v ->
  Decode (S f) (flat_map percent (b :: bs) ++ rest)
  = let* r := Decode f rest in Ret (utf16EncodeCodePoint v ++ r).
Proof.
  intros Hb Hbs Hn Hlen Hv.
  cbn [Decode flat_map percent app]. rewrite N.eqb_refl.
  rewrite parseHexOctet_percent by assumption.
  rewrite Hn.
  destruct bs as [|b1 bs']; [simpl in Hlen; lia|].
  cbn [length].
  destruct (Nat.leb_spec 3 (length bs')); [simpl in Hlen; lia|].
  change (S (length bs')) with (length (b1 :: bs')).
  rewrite continuationOctets_percent by assumption.
  rewrite Hv. reflexivity.
Qed.

Lemma utf8Octets_spec cp :
  scalar cp -> 0x80 <= cp ->
  exists b bs, utf8Octets cp = b :: bs /\ b < 256 /\
    Forall (fun x => x < 256) bs /\ leadingOnes b = S (length bs) /\
    (1 <= length bs <= 3)%nat /\ utf8CodePoint (b :: bs) = Some cp.
Proof.
  intros [Hmax Hsur] Hmin. unfold utf8Octets.
  destruct (N.ltb_spec cp 0x80); [lia|].
  destruct (N.ltb_spec cp 0x800); [|destruct (N.ltb_spec cp 0x10000)];
    (eexists _, _; split; [reflexivity|]);
    (repeat split; [nlia| repeat constructor; nlia | | simpl; lia | simpl; lia |]).
  - unfold leadingOnes. do 2 if_false. if_true. reflexivity.
  - unfold utf8CodePoint, isContinuation. if_true. f_equal. nlia.
  - unfold leadingOnes. do 3 if_false. if_true. reflexivity.
  - unfold utf8CodePoint, isContinuation. if_true. f_equal. nlia.
  - unfold leadingOnes. do 4 if_false. if_true. reflexivity.
  - unfold utf8CodePoint, isContinuation. if_true. f_equal. nlia.
Qed.

Lemma Decode_codepoint f cp rest :
  scalar cp ->
  Decode (S f) (flat_map percent (utf8Octets cp) ++ rest)
  = let* r := Decode f rest in Ret (utf16EncodeCodePoint cp ++ r).
Proof.
  intros Hcp. destruct (N.ltb_spec cp 0x80) as [Hlt|Hge].
  - unfold utf8Octets, utf16EncodeCodePoint.
    destruct (N.ltb_spec cp 0x80); [|lia].
    destruct (N.ltb_spec cp 0x10000); [|lia].
    cbn [flat_map]. rewrite app_nil_r. now apply Decode_ascii_escape.
  - destruct (utf8Octets_spec cp Hcp Hge)
      as (b & bs & -> & Hb & Hbs & Hn & Hlen & Hv).
    now apply Decode_multi_escape.
Qed.

Lemma length_percent_pos cp : (1 <= length (flat_map percent (utf8Octets cp)))%nat.
Proof.
  unfold utf8Octets.
  destruct (cp <? 0x80); [|destruct (cp <? 0x800); [|destruct (cp <? 0x10000)]];
    cbn; lia.
Qed.

(** The cases of a well-formed string. *)
Lemma wellFormed_cons c rest :
  wellFormed (c :: rest) = true ->
  c < 0x10000 /\
  (isLowSurrogate c = false) /\
  (isHighSurrogate c = false -> wellFormed rest = true) /\
  (isHighSurrogate c = true ->
   exists d rest', rest = d :: rest' /\ d < 0x10000 /\
     isLowSurrogate d = true /\ wellFormed rest' = true).
Proof.
  unfold wellFormed. cbn [isCodeUnits forallb isWellFormed].
  intros [[Hc Hu]%andb_true_iff Hw]%andb_true_iff.
  apply N.ltb_lt in Hc. split; [assumption|].
  destruct (isLowSurrogate c) eqn:Hlo; [discriminate|]. split; [reflexivity|].
  destruct (isHighSurrogate c) eqn:Hhi; (split; [|]); try discriminate.
  - intros _. destruct rest as [|d rest']; [discriminate|].
    apply andb_true_iff in Hw as [Hd Hw]. cbn [forallb] in Hu.
    apply andb_true_iff in Hu as [Hd16 Hu]. apply N.ltb_lt in Hd16.
    exists d, rest'. repeat split; try assumption.
    unfold isCodeUnits. now rewrite Hu, Hw.
  - intros _. unfold isCodeUnits. now rewrite Hu, Hw.
Qed.

Lemma surrogate_pair_scalar c d :
  isHighSurrogate c = true -> isLowSurrogate d = true ->
  let cp := (c - 0xD800) * 1024 + (d - 0xDC00) + 0x10000 in
  scalar cp /\ utf16EncodeCodePoint cp = [c; d].
Proof.
  unfold isHighSurrogate, isLowSurrogate, scalar, utf16EncodeCodePoint.
  intros [Hc1 Hc2]%andb_true_iff [Hd1 Hd2]%andb_true_iff.
  apply N.leb_le in Hc1, Hc2, Hd1, Hd2. cbv zeta.
  split; [nlia|]. if_false. f_equal; [nlia|]. f_equal. nlia.
Qed.

Section Roundtrip.
Variable unescaped : N -> bool.
Hypothesis unescaped_ascii :
  forall c, unescaped c = true -> c < 0x80 /\ c <> 0x25.

Lemma Decode_Encode_bounded n :
  forall s, (length s <= n)%nat -> wellFormed s = true ->
  exists e, Encode unescaped s = Ret e /\
    forall f, (length e <= f)%nat -> Decode f e = Ret s.
Proof.
  induction n as [|n IH]; intros s Hlen Hwf.
  { destruct s; [|simpl in Hlen; lia]. exists []. split; [reflexivity|].
    intros [|f] _; reflexivity. }
  destruct s as [|c rest].
  { exists []. split; [reflexivity|]. intros [|f] _; reflexivity. }
  cbn [length] in Hlen.
  destruct (wellFormed_cons _ _ Hwf) as (Hc & Hlo & Hbmp & Hpair).
  cbn [Encode]. destruct (unescaped c) eqn:Hu.
  - destruct (unescaped_ascii c Hu) as [Hasc Hpct].
    assert (Hhi : isHighSurrogate c = false) by (unfold isHighSurrogate; bool_arith).
    destruct (IH rest ltac:(lia) (Hbmp Hhi)) as (e & -> & Hdec).
    exists (c :: e). split; [reflexivity|].
    intros [|f] Hf; [simpl in Hf; lia|]. cbn [length] in Hf.
    rewrite Decode_literal, Hdec by (assumption || lia). reflexivity.
  - rewrite Hlo. destruct (isHighSurrogate c) eqn:Hhi.
    + destruct (Hpair eq_refl) as (d & rest' & -> & Hd & Hdlo & Hwf').
      rewrite Hdlo. cbn [length] in Hlen.
      destruct (IH rest' ltac:(lia) Hwf') as (e & -> & Hdec).
      destruct (surrogate_pair_scalar c d Hhi Hdlo) as [Hsc Hu16].
      cbv zeta in Hsc, Hu16. cbn [obind].
      eexists. split; [reflexivity|].
      intros [|f] Hf.
      { pose proof (length_percent_pos ((c - 0xD800) * 1024 + (d - 0xDC00) + 0x10000)).
        rewrite length_app in Hf. lia. }
      rewrite Decode_codepoint by assumption.
      rewrite Hdec, Hu16; [reflexivity|].
      pose proof (length_percent_pos ((c - 0xD800) * 1024 + (d - 0xDC00) + 0x10000)).
      rewrite length_app in Hf. lia.
    + destruct (IH rest ltac:(lia) (Hbmp eq_refl)) as (e & -> & Hdec).
      cbn [obind]. eexists. split; [reflexivity|].
      assert (Hsc : scalar c).
      { unfold scalar. unfold isHighSurrogate in Hhi. unfold isLowSurrogate in Hlo.
        apply andb_false_iff in Hhi, Hlo.
        rewrite !N.leb_gt in Hhi, Hlo. lia. }
      intros [|f] Hf.
      { pose proof (length_percent_pos c). rewrite length_app in Hf. lia. }
      rewrite Decode_codepoint by assumption.
      pose proof (length_percent_pos c). rewrite length_app in Hf.
      rewrite Hdec by lia. unfold utf16EncodeCodePoint.
      destruct (N.ltb_spec c 0x10000); [reflexivity|lia].
Qed.

(** Decoding inverts encoding on every well-formed string, whatever the
    unescaped set (of ASCII characters other than the percent sign). *)
Lemma decode_encode s :
  wellFormed s = true ->
  exists e, Encode unescaped s = Ret e /\ decodeURIComponent e = Ret s.
Proof.
  intros Hwf.
  destruct (Decode_Encode_bounded (length s) s (le_n _) Hwf) as (e & He & Hdec).
  exists e. split; [assumption|]. now apply Hdec.
Qed.

End Roundtrip.

End URIFacts.


(** ** Identifiers *)

Module IdFacts.
Import URI URIFacts WikiProxy.

Lemma split_on_absent sep s : sep ∉ s -> split_on sep s = [s].
Proof.
  induction s as [|c s IH]; [reflexivity|].
  intros Hs. apply not_elem_of_cons in Hs as [Hc Hs].
  cbn [split_on]. destruct (N.eqb_spec c sep); [congruence|].
  now rewrite IH.
Qed.

Lemma split_on_first sep p r :
  sep ∉ p -> exists ls, split_on sep (p ++ sep :: r) = p :: ls /\
    (exists l ls', split_on sep r = l :: ls' /\ ls = l :: ls').
Proof.
  induction p as [|c p IH]; intros Hp.
  - cbn [app split_on]. rewrite N.eqb_refl. eexists. split; [reflexivity|].
    destruct r as [|d r]; [now exists [], []|].
    cbn [split_on]. destruct (d =? sep); [now eexists _, _|].
    destruct (split_on sep r); now eexists _, _.
  - apply not_elem_of_cons in Hp as [Hc Hp].
    destruct (IH Hp) as (ls & Hsplit & Hls).
    cbn [app split_on]. destruct (N.eqb_spec c sep); [congruence|].
    rewrite Hsplit. now exists ls.
Qed.

Lemma percent_chars b :
  b < 256 -> Forall (fun c => isEscapeChar c = true) (percent b).
Proof.
  intros Hb. unfold percent, hexDigit, isEscapeChar.
  repeat constructor.
  - destruct (N.ltb_spec (b / 16) 10); bool_arith.
  - destruct (N.ltb_spec (b mod 16) 10); bool_arith.
Qed.

Lemma utf8Octets_bounded cp :
  cp < 0x110000 -> Forall (fun b => b < 256) (utf8Octets cp).
Proof.
  intros Hcp. unfold utf8Octets.
  destruct (N.ltb_spec cp 0x80); [|destruct (N.ltb_spec cp 0x800);
    [|destruct (N.ltb_spec cp 0x10000)]]; repeat constructor; nlia.
Qed.

Lemma escapes_chars cp :
  cp < 0x110000 ->
  Forall (fun c => isEscapeChar c = true) (flat_map percent (utf8Octets cp)).
Proof.
  intros Hcp. pose proof (utf8Octets_bounded cp Hcp) as Hb.
  induction Hb as [|b bs Hb _ IH]; [constructor|].
  cbn [flat_map]. apply Forall_app. split; [now apply percent_chars|assumption].
Qed.

Lemma Encode_chars unescaped n :
  forall s e, (length s <= n)%nat -> isCodeUnits s = true ->
  Encode unescaped s = Ret e ->
  Forall (fun c => unescaped c = true \/ isEscapeChar c = true) e.
Proof.
  induction n as [|n IH]; intros s e Hlen Hcu.
  { destruct s; [|simpl in Hlen; lia]. intros [= <-]. constructor. }
  destruct s as [|c rest]; [intros [= <-]; constructor|].
  cbn [length] in Hlen. cbn [isCodeUnits forallb] in Hcu.
  apply andb_true_iff in Hcu as [Hc Hcu]. apply N.ltb_lt in Hc.
  cbn [Encode]. destruct (unescaped c) eqn:Hu.
  - destruct (Encode unescaped rest) as [r|] eqn:Hr; [|discriminate].
    intros [= <-]. constructor; [now left|].
    apply (IH rest); [lia|assumption|assumption].
  - destruct (isLowSurrogate c); [discriminate|].
    destruct (isHighSurrogate c) eqn:Hhi.
    + destruct rest as [|d rest']; [discriminate|].
      destruct (isLowSurrogate d) eqn:Hlo; [|discriminate].
      destruct (Encode unescaped rest') as [r|] eqn:Hr; [|discriminate].
      intros [= <-]. cbn [forallb] in Hcu.
      apply andb_true_iff in Hcu as [Hd Hcu]. cbn [length] in Hlen.
      apply Forall_app. split.
      * eapply Forall_impl; [apply escapes_chars|now right].
        apply (surrogate_pair_scalar c d Hhi Hlo).
      * apply (IH rest'); [lia|assumption|assumption].
    + destruct (Encode unescaped rest) as [r|] eqn:Hr; [|discriminate].
      intros [= <-]. apply Forall_app. split.
      * eapply Forall_impl; [apply escapes_chars; lia|now right].
      * apply (IH rest); [lia|assumption|assumption].
Qed.

Lemma Encode_nonempty unescaped s e :
  s <> [] -> Encode unescaped s = Ret e -> e <> [].
Proof.
  destruct s as [|c rest]; [congruence|]. intros _. cbn [Encode].
  destruct (unescaped c).
  - destruct (Encode unescaped rest); [|discriminate]. now intros [= <-].
  - destruct (isLowSurrogate c); [discriminate|].
    destruct (isHighSurrogate c).
    + destruct rest as [|d rest']; [discriminate|].
      destruct (isLowSurrogate d); [|discriminate].
      destruct (Encode unescaped rest'); [|discriminate]. intros [= <-].
      pose proof (length_percent_pos ((c - 0xD800) * 1024 + (d - 0xDC00) + 0x10000)).
      intros He.
      apply (f_equal length) in He. rewrite length_app in He. simpl in *. lia.
    + destruct (Encode unescaped rest); [|discriminate]. intros [= <-].
      pose proof (length_percent_pos c).
      intros He. apply (f_equal length) in He. rewrite length_app in He.
      simpl in *. lia.
Qed.

Lemma alwaysUnescaped_ascii c :
  alwaysUnescaped c = true -> c < 0x80 /\ c <> 0x25.
Proof.
  unfold alwaysUnescaped, isAsciiWord.
  rewrite !orb_true_iff, !andb_true_iff, !N.leb_le, !N.eqb_eq. lia.
Qed.

Lemma encoded_no_colon s e :
  isCodeUnits s = true -> encodeURIComponent s = Ret e -> 0x3A ∉ e.
Proof.
  intros Hcu He Hin.
  pose proof (Encode_chars _ _ s e (le_n _) Hcu He) as Hall.
  rewrite Forall_forall in Hall. destruct (Hall _ Hin) as [H|H]; discriminate.
Qed.

Lemma truthy_nonempty s : s <> [] -> truthy s = true.
Proof. now destruct s. Qed.

Lemma split_on_pair sep p r :
  sep ∉ p -> sep ∉ r -> split_on sep (p ++ sep :: r) = [p; r].
Proof.
  intros Hp Hr. destruct (split_on_first sep p r Hp) as (ls & -> & l & ls' & Hl & ->).
  rewrite split_on_absent in Hl by assumption. now injection Hl as <- <-.
Qed.

(** [parseId] on an identifier with exactly one colon. *)
Lemma parseId_one_colon prefix rest :
  0x3A ∉ prefix -> 0x3A ∉ rest -> rest <> [] ->
  parseId (prefix ++ 0x3A :: rest) =
    if str_eqb prefix (js "gutenberg")
    then Ret (Some {| source := js "gutenberg"; value := rest |})
    else if str_eqb prefix (js "wsrc-ru") then
      let* v := decodeURIComponent rest in
      Ret (Some {| source := js "wsrc-ru"; value := v |})
    else if str_eqb prefix (js "wsrc-ua") then
      let* v := decodeURIComponent rest in
      Ret (Some {| source := js "wsrc-ua"; value := v |})
    else Ret None.
Proof.
  intros Hp Hr Hne. unfold parseId.
  rewrite split_on_pair by assumption.
  rewrite (truthy_nonempty rest Hne).
  now destruct prefix.
Qed.

Lemma wiki_roundtrip payload :
  payload <> [] -> wellFormed payload = true ->
  exists e, encodeURIComponent payload = Ret e /\
    (0x3A ∉ e) /\ e <> [] /\ decodeURIComponent e = Ret payload.
Proof.
  intros Hne Hwf.
  destruct (decode_encode _ alwaysUnescaped_ascii payload Hwf) as (e & He & Hdec).
  exists e. repeat split; try assumption.
  - apply (encoded_no_colon payload); [|assumption].
    unfold wellFormed in Hwf. now apply andb_true_iff in Hwf as [? _].
  - exact (Encode_nonempty alwaysUnescaped payload e Hne He).
Qed.

(** [parseId] inverts [makeId] on the non-empty payloads that are
    well-formed, for a Wikisource tag, or without a colon, for the
    [gutenberg] tag. *)
Lemma parseId_makeId source payload :
  payload <> [] ->
  (source = js "wsrc-ru" \/ source = js "wsrc-ua") /\ wellFormed payload = true
  \/ source = js "gutenberg" /\ 0x3A ∉ payload ->
  exists id, makeId source payload = Ret id /\
    parseId id = Ret (Some {| source := source; value := payload |}).
Proof.
  intros Hne [[[-> | ->] Hwf] | [-> Hcolon]].
  - destruct (wiki_roundtrip payload Hne Hwf) as (e & He & Hc & Hn & Hdec).
    exists (js "wsrc-ru" ++ 0x3A :: e). split.
    + change (makeId (js "wsrc-ru") payload)
        with (let* e := encodeURIComponent payload in Ret (js "wsrc-ru" ++ 0x3A :: e)).
      now rewrite He.
    + rewrite parseId_one_colon; [|compute_done|assumption|assumption].
      change (str_eqb (js "wsrc-ru") (js "gutenberg")) with false.
      change (str_eqb (js "wsrc-ru") (js "wsrc-ru")) with true.
      cbv iota. now rewrite Hdec.
  - destruct (wiki_roundtrip payload Hne Hwf) as (e & He & Hc & Hn & Hdec).
    exists (js "wsrc-ua" ++ 0x3A :: e). split.
    + change (makeId (js "wsrc-ua") payload)
        with (let* e := encodeURIComponent payload in Ret (js "wsrc-ua" ++ 0x3A :: e)).
      now rewrite He.
    + rewrite parseId_one_colon; [|compute_done|assumption|assumption].
      change (str_eqb (js "wsrc-ua") (js "gutenberg")) with false.
      change (str_eqb (js "wsrc-ua") (js "wsrc-ru")) with false.
      change (str_eqb (js "wsrc-ua") (js "wsrc-ua")) with true.
      cbv iota. now rewrite Hdec.
  - exists (js "gutenberg" ++ 0x3A :: payload). split; [reflexivity|].
    rewrite parseId_one_colon; [|compute_done|assumption|assumption].
    reflexivity.
Qed.

End IdFacts.


(** ** Download headers *)

Module HeaderFacts.
Import URI URIFacts IdFacts WikiProxy.

Lemma replaceAll_app c0 r s t :
  replaceAll c0 r (s ++ t) = replaceAll c0 r s ++ replaceAll c0 r t.
Proof. unfold replaceAll. apply flat_map_app. Qed.

Lemma replaceAll_cons c0 r c s :
  replaceAll c0 r (c :: s) = (if c =? c0 then r else [c]) ++ replaceAll c0 r s.
Proof. reflexivity. Qed.

Lemma replaceAll_absent c0 r s : c0 ∉ s -> replaceAll c0 r s = s.
Proof.
  induction s as [|c s IH]; [reflexivity|].
  intros [Hc Hs]%not_elem_of_cons. unfold replaceAll in *. cbn [flat_map].
  destruct (N.eqb_spec c c0); [congruence|]. now rewrite IH.
Qed.

Lemma escapes_absent c0 cp :
  cp < 0x110000 -> isEscapeChar c0 = false ->
  c0 ∉ flat_map percent (utf8Octets cp).
Proof.
  intros Hcp Hc0 Hin. pose proof (escapes_chars cp Hcp) as Hall.
  rewrite Forall_forall in Hall. specialize (Hall _ Hin). congruence.
Qed.

(** Replacing an unescaped character by its escape in the output is
    encoding with a smaller unescaped set. *)
Lemma Encode_without unescaped c0 n :
  c0 < 0x80 -> isEscapeChar c0 = false ->
  forall s e, (length s <= n)%nat -> isCodeUnits s = true ->
  Encode unescaped s = Ret e ->
  Encode (without c0 unescaped) s = Ret (replaceAll c0 (percent c0) e).
Proof.
  intros Hc0 Hesc. induction n as [|n IH]; intros s e Hlen Hcu.
  { destruct s; [|simpl in Hlen; lia]. now intros [= <-]. }
  destruct s as [|c rest]; [now intros [= <-]|].
  cbn [length] in Hlen. cbn [isCodeUnits forallb] in Hcu.
  apply andb_true_iff in Hcu as [Hc Hcu]. apply N.ltb_lt in Hc.
  cbn [Encode]. unfold without at 1. destruct (unescaped c) eqn:Hu.
  - destruct (Encode unescaped rest) as [r|] eqn:Hr; [|discriminate].
    intros [= <-]. rewrite (IH rest r); [|lia|exact Hcu|exact Hr].
    cbn [andb obind]. rewrite replaceAll_cons.
    destruct (N.eqb_spec c c0) as [->|Hne]; cbn [negb].
    + assert (Hlo : isLowSurrogate c0 = false) by (unfold isLowSurrogate; bool_arith).
      assert (Hhi : isHighSurrogate c0 = false) by (unfold isHighSurrogate; bool_arith).
      rewrite Hlo, Hhi. unfold utf8Octets.
      destruct (N.ltb_spec c0 0x80); [|lia]. cbn [flat_map]. now rewrite app_nil_r.
    + reflexivity.
  - cbn [andb]. destruct (isLowSurrogate c); [discriminate|].
    destruct (isHighSurrogate c) eqn:Hhi.
    + destruct rest as [|d rest']; [discriminate|].
      destruct (isLowSurrogate d) eqn:Hlo; [|discriminate].
      destruct (Encode unescaped rest') as [r|] eqn:Hr; [|discriminate].
      intros [= <-]. cbn [forallb] in Hcu.
      apply andb_true_iff in Hcu as [Hd Hcu]. cbn [length] in Hlen.
      rewrite (IH rest' r) by (lia || assumption). cbn [obind].
      rewrite replaceAll_app, (replaceAll_absent _ _ (flat_map percent _));
        [reflexivity|].
      apply escapes_absent; [|assumption].
      apply (surrogate_pair_scalar c d Hhi Hlo).
    + destruct (Encode unescaped rest) as [r|] eqn:Hr; [|discriminate].
      intros [= <-]. rewrite (IH rest r) by (lia || assumption). cbn [obind].
      rewrite replaceAll_app, (replaceAll_absent _ _ (flat_map percent _));
        [reflexivity|].
      apply escapes_absent; [lia|assumption].
Qed.

Lemma rfc5987Unescaped_ascii c :
  rfc5987Unescaped c = true -> c < 0x80 /\ c <> 0x25.
Proof.
  unfold rfc5987Unescaped, without. rewrite !andb_true_iff.
  intros [[[[H _] _] _] _]. now apply alwaysUnescaped_ascii.
Qed.

Lemma rfc5987Unescaped_printable c :
  rfc5987Unescaped c = true \/ isEscapeChar c = true ->
  isPrintableAscii c = true /\ c <> 0x2A.
Proof.
  unfold rfc5987Unescaped, without, alwaysUnescaped, isAsciiWord, isEscapeChar,
    isPrintableAscii.
  rewrite !andb_true_iff, !orb_true_iff, !andb_true_iff, !negb_true_iff,
    !N.leb_le, !N.eqb_eq, !N.eqb_neq. lia.
Qed.

(** [rfc5987Encode] succeeds on a well-formed string; its result is made of
    printable ASCII characters other than the star, and decodes to the
    string. *)
Lemma rfc5987Encode_spec s :
  wellFormed s = true ->
  exists e, rfc5987Encode s = Ret e /\
    Forall (fun c => isPrintableAscii c = true /\ c <> 0x2A) e /\
    decodeURIComponent e = Ret s.
Proof.
  intros Hwf.
  assert (Hcu : isCodeUnits s = true).
  { unfold wellFormed in Hwf. now apply andb_true_iff in Hwf as [? _]. }
  destruct (decode_encode _ alwaysUnescaped_ascii s Hwf) as (e0 & He0 & _).
  destruct (decode_encode _ rfc5987Unescaped_ascii s Hwf) as (e & He & Hdec).
  exists e. split; [|split; [|assumption]].
  - unfold rfc5987Encode, encodeURIComponent. rewrite He0. cbn [obind].
    rewrite <- He. symmetry. unfold rfc5987Unescaped.
    apply (Encode_without _ 0x27 _ eq_refl eq_refl s _ (le_n _) Hcu) in He0.
    apply (Encode_without _ 0x28 _ eq_refl eq_refl s _ (le_n _) Hcu) in He0.
    apply (Encode_without _ 0x29 _ eq_refl eq_refl s _ (le_n _) Hcu) in He0.
    apply (Encode_without _ 0x2A _ eq_refl eq_refl s _ (le_n _) Hcu) in He0.
    exact He0.
  - eapply Forall_impl; [exact (Encode_chars _ _ s e (le_n _) Hcu He)|].
    intros c Hc. now apply rfc5987Unescaped_printable.
Qed.

Lemma startsWith_lookup s p :
  startsWith s p = true -> forall i x, p !! i = Some x -> s !! i = Some x.
Proof.
  revert s. induction p as [|y p IH]; intros s Hs i x Hi; [discriminate|].
  destruct s as [|z s]; [discriminate|]. cbn [startsWith] in Hs.
  apply andb_true_iff in Hs as [Hyz Hs]. apply N.eqb_eq in Hyz as ->.
  destruct i as [|i]; [exact Hi|]. cbn in *. now apply (IH s).
Qed.

Lemma startsWith_app p s : startsWith (p ++ s) p = true.
Proof.
  induction p as [|y p IH]; [now destruct s|].
  cbn. now rewrite N.eqb_refl.
Qed.

(** The marker is found where the header builder puts it: nothing before
    it holds a star. *)
Lemma extendedParameter_found pre rest :
  0x2A ∉ pre ->
  extendedParameter (pre ++ js "filename*=UTF-8''" ++ rest) = Some rest.
Proof.
  induction pre as [|c pre IH]; intros Hpre.
  - cbn [app]. destruct (js "filename*=UTF-8''" ++ rest) eqn:E.
    + discriminate.
    + cbn [extendedParameter]. rewrite <- E. rewrite startsWith_app.
      rewrite drop_app_length'; [reflexivity|reflexivity].
  - cbn [app extendedParameter].
    destruct (startsWith (c :: pre ++ js "filename*=UTF-8''" ++ rest)
                (js "filename*=UTF-8''")) eqn:Hs.
    + exfalso.
      pose proof (startsWith_lookup _ _ Hs 8%nat 0x2A eq_refl) as H8.
      change (c :: pre ++ js "filename*=UTF-8''" ++ rest)
        with ((c :: pre) ++ js "filename*=UTF-8''" ++ rest) in H8.
      destruct (decide (8 < length (c :: pre))%nat) as [Hlt|Hge].
      * rewrite lookup_app_l in H8 by assumption.
        apply Hpre. eapply list_elem_of_lookup_2. exact H8.
      * rewrite lookup_app_r in H8 by lia.
        cbn [length] in *.
        remember (8 - S (length pre))%nat as j eqn:Hj.
        assert (j <= 7)%nat as Hj7 by lia. clear -H8 Hj7.
        do 8 (destruct j as [|j]; [discriminate H8|]). lia.
    + apply not_elem_of_cons in Hpre as [_ Hpre]. now apply IH.
Qed.

Lemma replaceRuns_chars (P : N -> Prop) inClass r b s :
  (forall c, inClass c = false -> P c) -> Forall P r ->
  Forall P (replaceRuns inClass r b s).
Proof.
  intros Hkeep Hr. revert b. induction s as [|c s IH]; intros b; [constructor|].
  cbn [replaceRuns]. destruct (inClass c) eqn:Hc.
  - apply Forall_app. split; [|apply IH]. destruct b; [constructor|assumption].
  - constructor; [now apply Hkeep|apply IH].
Qed.

Lemma dropUnderscores_chars (P : N -> Prop) s :
  Forall P s -> Forall P (dropUnderscores s).
Proof.
  induction 1 as [|c s Hc Hs IH]; [constructor|].
  cbn [dropUnderscores]. destruct (c =? 0x5F); [assumption|now constructor].
Qed.

Lemma stripUnderscores_chars (P : N -> Prop) s :
  Forall P s -> Forall P (stripUnderscores s).
Proof.
  intros H. unfold stripUnderscores.
  apply Forall_rev, dropUnderscores_chars, Forall_rev, dropUnderscores_chars, H.
Qed.

Lemma withDot_chars ext : fallbackChars ext -> fallbackChars (withDot ext).
Proof.
  intros H. unfold withDot. destruct (startsWith ext (js ".")); [assumption|].
  apply Forall_app. split; [repeat constructor|assumption].
Qed.

Lemma asciiFallbackName_chars nfkd name ext :
  fallbackChars ext -> fallbackChars (asciiFallbackName nfkd name ext).
Proof.
  intros Hext. unfold asciiFallbackName. cbv zeta.
  apply Forall_app. split; [|now apply withDot_chars].
  match goal with |- context [truthy ?b] => destruct (truthy b) end.
  - apply stripUnderscores_chars, replaceRuns_chars; [|repeat constructor].
    intros c Hc. now apply negb_false_iff in Hc.
  - repeat constructor.
Qed.

Lemma fallbackChar_printable c :
  isFallbackChar c = true -> isPrintableAscii c = true /\ c <> 0x2A.
Proof.
  unfold isFallbackChar, isPrintableAscii.
  rewrite !orb_true_iff, !andb_true_iff, !N.leb_le, !N.eqb_eq. lia.
Qed.

Lemma fallbackChars_wellFormed s : fallbackChars s -> wellFormed s = true.
Proof.
  induction 1 as [|c s Hc Hs IH]; [reflexivity|].
  unfold wellFormed in *. cbn [isCodeUnits forallb isWellFormed].
  apply andb_true_iff in IH as [IH1 IH2].
  apply fallbackChar_printable in Hc as [Hc _]. unfold isPrintableAscii in Hc.
  apply andb_true_iff in Hc as [Hc1 Hc2]. apply N.leb_le in Hc1, Hc2.
  assert (Hlo : isLowSurrogate c = false) by (unfold isLowSurrogate; bool_arith).
  assert (Hhi : isHighSurrogate c = false) by (unfold isHighSurrogate; bool_arith).
  rewrite Hlo, Hhi. unfold isCodeUnits in IH1. rewrite IH1, IH2.
  rewrite andb_true_r. apply andb_true_iff. split; [bool_arith|reflexivity].
Qed.

Lemma wellFormed_app s t :
  wellFormed s = true -> wellFormed t = true -> wellFormed (s ++ t) = true.
Proof.
  remember (length s) as n eqn:Hn. revert s Hn.
  induction n as [n IH] using lt_wf_ind. intros s -> Hs Ht.
  destruct s as [|c rest]; [exact Ht|].
  destruct (wellFormed_cons _ _ Hs) as (Hc & Hlo & Hbmp & Hpair).
  unfold wellFormed. cbn [app isCodeUnits forallb isWellFormed].
  rewrite Hlo. destruct (isHighSurrogate c) eqn:Hhi.
  - destruct (Hpair eq_refl) as (d & rest' & -> & Hd & Hdlo & Hwf').
    cbn [app forallb]. rewrite Hdlo.
    specialize (IH (length rest') ltac:(simpl; lia) rest' eq_refl Hwf' Ht).
    unfold wellFormed in IH. apply andb_true_iff in IH as [IH1 IH2].
    unfold isCodeUnits in IH1. rewrite IH1, IH2.
    apply N.ltb_lt in Hc, Hd. now rewrite Hc, Hd.
  - specialize (IH (length rest) ltac:(simpl; lia) rest eq_refl (Hbmp eq_refl) Ht).
    unfold wellFormed in IH. apply andb_true_iff in IH as [IH1 IH2].
    unfold isCodeUnits in IH1. rewrite IH1, IH2.
    apply N.ltb_lt in Hc. now rewrite Hc.
Qed.

Lemma trimStart_Forall (P : N -> Prop) s : Forall P s -> Forall P (trimStart s).
Proof.
  induction 1 as [|c s Hc Hs IH]; [constructor|]. cbn [trimStart].
  destruct (isWhiteSpace c); [assumption|now constructor].
Qed.

Lemma trim_Forall (P : N -> Prop) s : Forall P s -> Forall P (trim s).
Proof.
  intros H. unfold trim, trimEnd.
  apply Forall_rev, trimStart_Forall, Forall_rev, trimStart_Forall, H.
Qed.

Lemma filter_Forall (f : N -> bool) s : Forall (fun c => f c = true) (List.filter f s).
Proof.
  induction s as [|c s IH]; [constructor|]. cbn [List.filter].
  destruct (f c) eqn:Hc; [now constructor|assumption].
Qed.

Lemma replaceRuns_Forall (P : N -> Prop) inClass r b s :
  Forall P s -> Forall P r -> Forall P (replaceRuns inClass r b s).
Proof.
  intros Hs Hr. revert b. induction Hs as [|c s Hc Hs IH]; intros b; [constructor|].
  cbn [replaceRuns]. destruct (inClass c).
  - apply Forall_app. split; [|apply IH]. destruct b; [constructor|assumption].
  - constructor; [assumption|apply IH].
Qed.

(** The fallback name of [server.js] is printable and holds no star. *)
Lemma safeAsciiFilename_chars name :
  Forall (fun c => isPrintableAscii c = true /\ c <> 0x2A)
    (EbooksProxy.safeAsciiFilename name).
Proof.
  unfold EbooksProxy.safeAsciiFilename. cbv zeta.
  match goal with |- context [truthy ?b] => destruct (truthy b) end;
    [|repeat constructor; discriminate].
  apply trim_Forall, replaceRuns_Forall; [|repeat constructor; discriminate].
  apply Forall_and. split.
  - apply replaceRuns_Forall; [|repeat constructor]. apply filter_Forall.
  - apply replaceRuns_chars; [|repeat constructor; discriminate].
    intros c Hc ->. discriminate.
Qed.

(** The header of the proxy with the Wikisource adapters. *)
Lemma setDownloadHeaders_spec
    (normalizeNFKD : jsstring -> jsstring) (title mime ext : jsstring) :
  title <> [] -> wellFormed title = true -> fallbackChars ext ->
  exists h encoded,
    setDownloadHeaders normalizeNFKD title mime ext = Ret h /\
    Forall (fun c => isPrintableAscii c = true) (contentDisposition h) /\
    extendedParameter (contentDisposition h) = Some encoded /\
    decodeURIComponent encoded = Ret (title ++ withDot ext).
Proof.
  intros Hne Hwf Hext.
  pose proof (withDot_chars ext Hext) as Hdot.
  assert (Hname : wellFormed (title ++ withDot ext) = true)
    by (apply wellFormed_app; [assumption|now apply fallbackChars_wellFormed]).
  destruct (rfc5987Encode_spec _ Hname) as (encoded & Henc & Hchars & Hdec).
  pose proof (asciiFallbackName_chars normalizeNFKD title _ Hdot) as Hfb.
  unfold setDownloadHeaders. cbv zeta.
  rewrite (truthy_nonempty title Hne), Henc. cbn [obind].
  generalize dependent (asciiFallbackName normalizeNFKD title (withDot ext)).
  intros fallback Hfb.
  eexists _, encoded. split; [reflexivity|]. cbn [contentDisposition].
  assert (Hfb' : Forall (fun c => isPrintableAscii c = true /\ c <> 0x2A) fallback).
  { eapply Forall_impl; [exact Hfb|]. intros c Hc. now apply fallbackChar_printable. }
  split; [|split; [|assumption]].
  - apply Forall_app; split; [by vm_compute; repeat constructor|].
    apply Forall_app; split; [by repeat constructor|].
    apply Forall_app; split.
    { eapply Forall_impl; [exact Hfb'|]. now intros c [Hc _]. }
    apply Forall_app; split; [by repeat constructor|].
    apply Forall_app; split; [by vm_compute; repeat constructor|].
    eapply Forall_impl; [exact Hchars|]. now intros c [Hc _].
  - change (js "; filename*=UTF-8''") with (js "; " ++ js "filename*=UTF-8''").
    rewrite <- (app_assoc (js "; ")), !app_assoc.
    rewrite <- (app_assoc _ (js "filename*=UTF-8''")).
    apply extendedParameter_found.
    rewrite !not_elem_of_app. repeat split; try compute_done.
    intros Hin. rewrite Forall_forall in Hfb'.
    now destruct (Hfb' _ Hin).
Qed.

(** The header of [server.js]. *)
Lemma contentDisposition_spec (filenameUtf8 : jsstring) :
  filenameUtf8 <> [] -> wellFormed filenameUtf8 = true ->
  exists cd encoded,
    EbooksProxy.contentDisposition filenameUtf8 = Ret cd /\
    Forall (fun c => isPrintableAscii c = true) cd /\
    extendedParameter cd = Some encoded /\
    decodeURIComponent encoded = Ret filenameUtf8.
Proof.
  intros Hne Hwf.
  assert (Hcu : isCodeUnits filenameUtf8 = true).
  { unfold wellFormed in Hwf. now apply andb_true_iff in Hwf as [? _]. }
  destruct (decode_encode _ alwaysUnescaped_ascii _ Hwf) as (encoded & Henc & Hdec).
  pose proof (Encode_chars _ _ _ _ (le_n _) Hcu Henc) as Hchars.
  pose proof (safeAsciiFilename_chars filenameUtf8) as Hfb.
  unfold EbooksProxy.contentDisposition. cbv zeta.
  rewrite (truthy_nonempty _ Hne). unfold encodeURIComponent. rewrite Henc.
  cbn [obind].
  generalize dependent (EbooksProxy.safeAsciiFilename filenameUtf8).
  intros fallback Hfb.
  eexists _, encoded. split; [reflexivity|].
  split; [|split; [|assumption]].
  - apply Forall_app; split; [by vm_compute; repeat constructor|].
    apply Forall_app; split; [by repeat constructor|].
    apply Forall_app; split.
    { eapply Forall_impl; [exact Hfb|]. now intros c [Hc _]. }
    apply Forall_app; split; [by repeat constructor|].
    apply Forall_app; split; [by vm_compute; repeat constructor|].
    eapply Forall_impl; [exact Hchars|]. cbv beta. intros c.
    unfold alwaysUnescaped, isAsciiWord, isEscapeChar, isPrintableAscii.
    rewrite !orb_true_iff, !andb_true_iff, !N.leb_le, !N.eqb_eq. lia.
  - change (js "; filename*=UTF-8''") with (js "; " ++ js "filename*=UTF-8''").
    rewrite <- (app_assoc (js "; ")), !app_assoc.
    rewrite <- (app_assoc _ (js "filename*=UTF-8''")).
    apply extendedParameter_found.
    rewrite !not_elem_of_app. repeat split; try compute_done.
    intros Hin. rewrite Forall_forall in Hfb.
    now destruct (Hfb _ Hin).
Qed.

(** C7, as amended.  For every non-empty title that is a well-formed string:
    the [Content-Disposition] value is built, it is made of printable ASCII
    characters only, and percent-decoding its [filename*] parameter gives
    back the name exactly.  (1) In the proxy with the Wikisource adapters
    the name is the title followed by the extension, for every extension
    over [[a-zA-Z0-9._-]] and whatever the NFKD normalisation does.  (2) In
    [server.js] the name is the file name handed to [contentDisposition]. *)
Theorem content_disposition_ascii_roundtrip :
  (forall (normalizeNFKD : jsstring -> jsstring) (title mime ext : jsstring),
     title <> [] -> wellFormed title = true -> fallbackChars ext ->
     exists h encoded,
       setDownloadHeaders normalizeNFKD title mime ext = Ret h /\
       Forall (fun c => isPrintableAscii c = true) (contentDisposition h) /\
       extendedParameter (contentDisposition h) = Some encoded /\
       decodeURIComponent encoded = Ret (title ++ withDot ext))
  /\ (forall filenameUtf8 : jsstring,
        filenameUtf8 <> [] -> wellFormed filenameUtf8 = true ->
        exists cd encoded,
          EbooksProxy.contentDisposition filenameUtf8 = Ret cd /\
          Forall (fun c => isPrintableAscii c = true) cd /\
          extendedParameter cd = Some encoded /\
          decodeURIComponent encoded = Ret filenameUtf8).
Proof.
  split.
  - exact setDownloadHeaders_spec.
  - exact contentDisposition_spec.
Qed.

Lemma content_disposition_witness :
  (exists h encoded,
     setDownloadHeaders Samples.nfkdRussian (js "Война и мир")
       (js "text/plain; charset=utf-8") (js ".txt") = Ret h /\
     Forall (fun c => isPrintableAscii c = true) (contentDisposition h) /\
     extendedParameter (contentDisposition h) = Some encoded /\
     decodeURIComponent encoded = Ret (js "Война и мир.txt"))
  /\ (exists cd encoded,
        EbooksProxy.contentDisposition (js "Война и мир.txt") = Ret cd /\
        Forall (fun c => isPrintableAscii c = true) cd /\
        extendedParameter cd = Some encoded /\
        decodeURIComponent encoded = Ret (js "Война и мир.txt")).
Proof.
  destruct content_disposition_ascii_roundtrip as [Hproxy Hserver]. split.
  - apply (Hproxy Samples.nfkdRussian (js "Война и мир")
             (js "text/plain; charset=utf-8") (js ".txt")).
    + discriminate.
    + vm_compute. reflexivity.
    + repeat constructor.
  - apply (Hserver (js "Война и мир.txt")).
    + discriminate.
    + vm_compute. reflexivity.
Defined.

(** The claim as the specification states it fails on the empty title: the
    [filename*] parameter then carries the default name [book]. *)
Lemma content_disposition_counterexample :
  (let* h := setDownloadHeaders (fun s => s) [] (js "text/plain; charset=utf-8")
               (js ".txt") in
   match extendedParameter (contentDisposition h) with
   | Some encoded => decodeURIComponent encoded
   | None => Ret []
   end) = Ret (js "book.txt")
  /\ js "book.txt" <> [] ++ withDot (js ".txt").
Proof. split; [vm_compute; reflexivity|discriminate]. Qed.

End HeaderFacts.


(** ** The classifier *)

Module ClassifierFacts.
Import RegExp WikiProxy.

Lemma split_on_cons sep s : exists l ls, split_on sep s = l :: ls.
Proof.
  destruct s as [|c s]; [now exists [], []|]. cbn [split_on].
  destruct (c =? sep); [now eexists _, _|].
  destruct (split_on sep s); now eexists _, _.
Qed.

(** Splitting a string extended by one code unit. *)
Lemma split_on_snoc sep s c :
  exists ls l, split_on sep s = ls ++ [l] /\
    split_on sep (s ++ [c]) =
      if c =? sep then ls ++ [l; []] else ls ++ [l ++ [c]].
Proof.
  induction s as [|d s (ls & l & Hs & Hsc)].
  - exists [], []. split; [reflexivity|]. cbn. now destruct (c =? sep).
  - cbn [app split_on]. rewrite Hs, Hsc. destruct (d =? sep).
    + exists ([] :: ls), l. split; [reflexivity|]. now destruct (c =? sep).
    + destruct ls as [|l0 ls].
      * exists [], (d :: l). split; [reflexivity|]. now destruct (c =? sep).
      * exists ((d :: l0) :: ls), l. split; [reflexivity|].
        now destruct (c =? sep).
Qed.

Lemma trimStart_snoc_space l c :
  isWhiteSpace c = true ->
  trimStart (l ++ [c]) = match trimStart l with [] => [] | _ => trimStart l ++ [c] end.
Proof.
  intros Hc. induction l as [|d l IH]; cbn [app trimStart].
  - now rewrite Hc.
  - destruct (isWhiteSpace d); [exact IH|reflexivity].
Qed.

Lemma test_bullet_space_l c l :
  isWhiteSpace c = true -> test_bullet (c :: l) = test_bullet l.
Proof. intros Hc. unfold test_bullet. cbn [trimStart]. now rewrite Hc. Qed.

Lemma test_bullet_space_r c l :
  isWhiteSpace c = true -> test_bullet (l ++ [c]) = test_bullet l.
Proof.
  intros Hc. unfold test_bullet. rewrite trimStart_snoc_space by assumption.
  destruct (trimStart l); reflexivity.
Qed.

Lemma bulletCount_space_l c s :
  isWhiteSpace c = true -> bulletCount (c :: s) = bulletCount s.
Proof.
  intros Hc. unfold bulletCount. cbn [split_on].
  destruct (c =? 0x0A); [reflexivity|].
  destruct (split_on_cons 0x0A s) as (l & ls & ->).
  cbn [List.filter]. rewrite test_bullet_space_l by assumption.
  destruct (test_bullet l); reflexivity.
Qed.

Lemma bulletCount_space_r c s :
  isWhiteSpace c = true -> bulletCount (s ++ [c]) = bulletCount s.
Proof.
  intros Hc. unfold bulletCount.
  destruct (split_on_snoc 0x0A s c) as (ls & l & -> & ->).
  destruct (c =? 0x0A); rewrite !List.filter_app, !length_app; cbn [List.filter].
  - destruct (test_bullet l); cbn; lia.
  - rewrite test_bullet_space_r by assumption.
    destruct (test_bullet l); reflexivity.
Qed.

Lemma bulletCount_trimStart s : bulletCount (trimStart s) = bulletCount s.
Proof.
  induction s as [|c s IH]; [reflexivity|]. cbn [trimStart].
  destruct (isWhiteSpace c) eqn:Hc; [|reflexivity].
  now rewrite bulletCount_space_l.
Qed.

Lemma trimEnd_snoc s c :
  trimEnd (s ++ [c]) = if isWhiteSpace c then trimEnd s else s ++ [c].
Proof.
  unfold trimEnd. rewrite rev_app_distr. cbn [rev app trimStart].
  destruct (isWhiteSpace c); [reflexivity|].
  cbn [rev]. now rewrite rev_involutive.
Qed.

Lemma bulletCount_trimEnd s : bulletCount (trimEnd s) = bulletCount s.
Proof.
  induction s as [|c s IH] using rev_ind; [reflexivity|].
  rewrite trimEnd_snoc. destruct (isWhiteSpace c) eqn:Hc; [|reflexivity].
  now rewrite bulletCount_space_r.
Qed.

(** Trimming a text neither adds nor removes a list line. *)
Lemma listyLines_trim s : listyLines (trim s) = listyLines s.
Proof.
  unfold listyLines, trim. f_equal.
  change (bulletCount (trimEnd (trimStart s)) = bulletCount s).
  now rewrite bulletCount_trimEnd, bulletCount_trimStart.
Qed.

Lemma length_trimStart s : (length (trimStart s) <= length s)%nat.
Proof.
  induction s as [|c s IH]; [reflexivity|]. cbn [trimStart].
  destruct (isWhiteSpace c); cbn [length]; lia.
Qed.

Lemma strlen_trim s : strlen (trim s) <= strlen s.
Proof.
  unfold strlen, trim, trimEnd. rewrite length_rev.
  pose proof (length_trimStart (rev (trimStart s))) as H1.
  pose proof (length_trimStart s) as H2. rewrite length_rev in H1. lia.
Qed.

(** C3.  (a) A page titled [Category:Novels] is classified not-a-work
    whatever its text.  (b) A text of fewer than 2000 characters with at
    least 8 lines that begin with a list marker is classified not-a-work,
    whatever the title.  (c) A page whose title has no namespace prefix and
    whose text is not blank, has fewer than 8 such lines and matches none of
    the contents / works patterns is classified as a work. *)
Theorem looksLikeIndexOrList_cases :
  (forall text, looksLikeIndexOrList (js "Category:Novels") text = true)
  /\ (forall title text,
        strlen text < 2000 -> 8 <= listyLines text ->
        looksLikeIndexOrList title text = true)
  /\ (forall title text,
        isBadWikisourceTitle (trim title) = false ->
        trim text <> [] ->
        listyLines text < 8 ->
        test_heading_i headingWords (trim text) = false ->
        test_words_i contentsWords (trim text) = false ->
        test_words_i worksWords (trim text) = false ->
        looksLikeIndexOrList title text = false).
Proof.
  split; [|split].
  - intros text. reflexivity.
  - intros title text Hlen Hlisty. unfold looksLikeIndexOrList. cbv zeta.
    destruct (isBadWikisourceTitle (trim title)); [reflexivity|].
    destruct (truthy (trim text)); [|reflexivity]. cbn [negb].
    rewrite listyLines_trim. pose proof (strlen_trim text) as Htrim.
    assert (Hlt : (strlen (trim text) <? 2000) = true) by (apply N.ltb_lt; lia).
    assert (Hge : (8 <=? listyLines text) = true) by now apply N.leb_le.
    now rewrite Hlt, Hge.
  - intros title text Htitle Htext Hlisty Hheading Hcontents Hworks.
    unfold looksLikeIndexOrList. cbv zeta.
    rewrite Htitle, (IdFacts.truthy_nonempty _ Htext). cbn [negb].
    rewrite listyLines_trim, Hheading, Hcontents, Hworks.
    assert (Hlt : (8 <=? listyLines text) = false) by now apply N.leb_gt.
    rewrite Hlt, andb_false_r. reflexivity.
Qed.

Lemma looksLikeIndexOrList_witness :
  looksLikeIndexOrList (js "Category:Novels") (Samples.sampleText 3) = true
  /\ (strlen (Samples.sampleText 10) = 500
      /\ listyLines (Samples.sampleText 10) = 10
      /\ looksLikeIndexOrList (js "Война и мир") (Samples.sampleText 10) = true)
  /\ (strlen (Samples.sampleText 3) = 500
      /\ listyLines (Samples.sampleText 3) = 3
      /\ looksLikeIndexOrList (js "Война и мир") (Samples.sampleText 3) = false).
Proof.
  destruct looksLikeIndexOrList_cases as (Ha & Hb & Hc).
  split; [apply Ha|]. split.
  - split; [reflexivity|]. split; [reflexivity|].
    apply Hb; vm_compute; [reflexivity|discriminate].
  - split; [reflexivity|]. split; [reflexivity|].
    apply Hc; vm_compute; try reflexivity; discriminate.
Defined.

End ClassifierFacts.


(** ** The smart Wikisource download *)

Module WikiFacts.
Import WikiProxy.

Section Site.
Variable api : wikisource.

(** Each request is appended to the log, whatever the answer. *)
Lemma getWikisourcePlain_log title log :
  snd (getWikisourcePlain api title log) = log ++ [ReqExtract title].
Proof.
  unfold getWikisourcePlain, wbind, fetchExtract.
  destruct (ws_extract api log title) as [| |[p|]]; try reflexivity.
  cbn [fetchJson]. destruct (page_missing p); reflexivity.
Qed.

Lemma getWikisourceCandidateLinks_log title max log :
  snd (getWikisourceCandidateLinks api title max log)
  = log ++ [ReqLinks title (N.min max 200)].
Proof.
  unfold getWikisourceCandidateLinks, wbind, fetchLinks.
  destruct (ws_links api log title (N.min max 200)); reflexivity.
Qed.

(** The loop makes at most one request of each kind per iteration. *)
Lemma followLinks_log hopsLeft :
  forall resolvedTitle text log,
  exists new,
    snd (followLinks api hopsLeft resolvedTitle text log) = log ++ new /\
    (length (List.filter isExtract new) <= hopsLeft)%nat /\
    (length (List.filter isLinks new) <= hopsLeft)%nat.
Proof.
  induction hopsLeft as [|n IH]; intros t x log.
  { exists []. rewrite app_nil_r. repeat split; cbn; lia. }
  cbn [followLinks].
  destruct (looksLikeIndexOrList t x); cbn [negb].
  2: { exists []. rewrite app_nil_r. repeat split; cbn; lia. }
  unfold wbind at 1.
  pose proof (getWikisourceCandidateLinks_log t 120 log) as Hl.
  destruct (getWikisourceCandidateLinks api t 120 log) as [[links|e] log1];
    cbn [snd] in Hl; subst log1.
  2: { eexists. split; [reflexivity|]. cbn. lia. }
  destruct (pickBestLink t links) as [best|].
  2: { eexists. split; [reflexivity|]. cbn. lia. }
  unfold wbind at 1.
  pose proof (getWikisourcePlain_log best (log ++ [ReqLinks t (N.min 120 200)])) as Hp.
  destruct (getWikisourcePlain api best _) as [[next|e] log2];
    cbn [snd] in Hp; subst log2.
  2: { eexists. rewrite <- app_assoc. split; [reflexivity|]. cbn. lia. }
  destruct (str_eqb (fst next) t).
  { eexists. cbn [wret snd]. rewrite <- app_assoc. split; [reflexivity|]. cbn. lia. }
  destruct (IH (fst next) (snd next)
              ((log ++ [ReqLinks t (N.min 120 200)]) ++ [ReqExtract best]))
    as (new & -> & He & Hl).
  exists ([ReqLinks t (N.min 120 200)] ++ [ReqExtract best] ++ new).
  rewrite <- !app_assoc. split; [reflexivity|]. cbn. lia.
Qed.

Lemma downloadWikisourceSmart_log title log :
  exists new,
    snd (downloadWikisourceSmart api title log)
    = log ++ ReqExtract title :: new /\
    (length (List.filter isExtract new) <= 2)%nat /\
    (length (List.filter isLinks new) <= 2)%nat.
Proof.
  unfold downloadWikisourceSmart. unfold wbind at 1.
  pose proof (getWikisourcePlain_log title log) as Hp.
  destruct (getWikisourcePlain api title log) as [[first|e] log1];
    cbn [snd] in Hp; subst log1.
  2: { exists []. split; [reflexivity|]. cbn. lia. }
  unfold wbind.
  destruct (followLinks_log 2 (fst first) (snd first) (log ++ [ReqExtract title]))
    as (new & Hnew & He & Hl).
  destruct (followLinks api 2 _ _ _) as [[last|e] log2];
    cbn [snd] in Hnew |- *; subst log2;
    exists new; rewrite <- app_assoc; (split; [reflexivity|]); split; assumption.
Qed.

End Site.

(** C2.  Whatever the site answers, a smart download follows at most two
    links, and asks at most twice for the links of a page. *)
Theorem downloadWikisourceSmart_hops (api : wikisource) (title : jsstring) :
  let log := snd (downloadWikisourceSmart api title []) in
  (linkFollowHops log <= 2)%nat /\ (length (List.filter isLinks log) <= 2)%nat.
Proof.
  cbv zeta. destruct (downloadWikisourceSmart_log api title []) as (new & -> & He & Hl).
  unfold linkFollowHops. cbn [app List.filter isExtract isLinks length pred].
  split; assumption.
Qed.

(** The bound is reached when every page fetched is a list page. *)
Example downloadWikisourceSmart_two_hops :
  let run := downloadWikisourceSmart Samples.indexWiki (js "A") [] in
  fst run = Throw IndexPage /\ linkFollowHops (snd run) = 2%nat.
Proof. split; vm_compute; reflexivity. Qed.

(** C4.  (1) A file that is returned never holds a page that the classifier
    takes for an index or a list.  (2) When the page reached after the hops
    is still classified not-a-work, the download throws the index-page
    error.  (3) On a not-a-work page without a candidate link the loop stops
    at that page, for which the final check throws the index-page error; (4)
    in particular the download throws it when the starting page is such a
    page. *)
Theorem downloadWikisourceSmart_never_index (api : wikisource) :
  (forall title log f log',
     downloadWikisourceSmart api title log = (Ret f, log') ->
     exists text,
       file_buffer f = buffer_from_utf8 text /\ text <> [] /\
       looksLikeIndexOrList (file_title f) text = false)
  /\ (forall title log first log0 t x log',
        getWikisourcePlain api title log = (Ret first, log0) ->
        followLinks api 2 (fst first) (snd first) log0 = (Ret (t, x), log') ->
        looksLikeIndexOrList t x = true ->
        downloadWikisourceSmart api title log = (Throw IndexPage, log'))
  /\ (forall hopsLeft t x log links log',
        looksLikeIndexOrList t x = true ->
        getWikisourceCandidateLinks api t 120 log = (Ret links, log') ->
        pickBestLink t links = None ->
        followLinks api (S hopsLeft) t x log = (Ret (t, x), log')
        /\ resolvedFile t x = Throw IndexPage)
  /\ (forall title log first log0 links log',
        getWikisourcePlain api title log = (Ret first, log0) ->
        looksLikeIndexOrList (fst first) (snd first) = true ->
        getWikisourceCandidateLinks api (fst first) 120 log0 = (Ret links, log') ->
        pickBestLink (fst first) links = None ->
        downloadWikisourceSmart api title log = (Throw IndexPage, log')).
Proof.
  split; [|split; [|split]].
  - intros title log f log'. unfold downloadWikisourceSmart, wbind.
    destruct (getWikisourcePlain api title log) as [[first|e] log0]; [|discriminate].
    destruct (followLinks api 2 _ _ log0) as [[last|e] log1]; [|discriminate].
    unfold resolvedFile.
    destruct (truthy (snd last)) eqn:Htext; [|discriminate]. cbn [negb orb].
    destruct (looksLikeIndexOrList (fst last) (snd last)) eqn:Hwork; [discriminate|].
    intros [= <- <-]. exists (snd last). cbn [file_buffer file_title].
    repeat split; [|assumption]. now destruct (snd last).
  - intros title log first log0 t x log' Hfirst Hloop Hindex.
    unfold downloadWikisourceSmart, wbind. rewrite Hfirst, Hloop.
    unfold resolvedFile. cbn [fst snd]. now rewrite Hindex, orb_true_r.
  - intros hopsLeft t x log links log' Hindex Hlinks Hpick. split.
    + cbn [followLinks]. rewrite Hindex. cbn [negb]. unfold wbind.
      now rewrite Hlinks, Hpick.
    + unfold resolvedFile. now rewrite Hindex, orb_true_r.
  - intros title log first log0 links log' Hfirst Hindex Hlinks Hpick.
    unfold downloadWikisourceSmart, wbind. rewrite Hfirst.
    cbn [followLinks]. rewrite Hindex. cbn [negb]. unfold wbind.
    rewrite Hlinks, Hpick. unfold wret, resolvedFile. cbn [fst snd].
    now rewrite Hindex, orb_true_r.
Qed.

Lemma downloadWikisourceSmart_never_index_witness :
  (exists text,
     buffer_from_utf8 (js "Eh bien, mon prince.") = buffer_from_utf8 text /\
     text <> [] /\ looksLikeIndexOrList (js "Война и мир") text = false)
  /\ fst (downloadWikisourceSmart Samples.indexWiki (js "A") []) = Throw IndexPage
  /\ (followLinks Samples.deadEndWiki 2 (js "A") (Samples.sampleText 10)
        [ReqExtract (js "A")]
      = (Ret (js "A", Samples.sampleText 10),
         [ReqExtract (js "A"); ReqLinks (js "A") 120])
      /\ resolvedFile (js "A") (Samples.sampleText 10) = Throw IndexPage)
  /\ downloadWikisourceSmart Samples.deadEndWiki (js "A") []
     = (Throw IndexPage, [ReqExtract (js "A"); ReqLinks (js "A") 120]).
Proof.
  split; [|split; [|split]].
  - destruct (downloadWikisourceSmart_never_index Samples.novelWiki)
      as (H & _ & _ & _).
    apply (H (js "Лев Толстой") []
             {| file_title := js "Война и мир";
                file_mime := js "text/plain; charset=utf-8";
                file_ext := js "txt";
                file_buffer := buffer_from_utf8 (js "Eh bien, mon prince.") |}
             [ReqExtract (js "Лев Толстой"); ReqLinks (js "Лев Толстой") 120;
              ReqExtract (js "Война и мир")]).
    vm_compute. reflexivity.
  - destruct (downloadWikisourceSmart_never_index Samples.indexWiki) as (_ & H & _ & _).
    erewrite (H (js "A") []); [reflexivity| | |].
    + vm_compute. reflexivity.
    + vm_compute. reflexivity.
    + vm_compute. reflexivity.
  - destruct (downloadWikisourceSmart_never_index Samples.deadEndWiki)
      as (_ & _ & H & _).
    apply (H 1%nat (js "A") (Samples.sampleText 10) [ReqExtract (js "A")] []).
    + vm_compute. reflexivity.
    + vm_compute. reflexivity.
    + vm_compute. reflexivity.
  - destruct (downloadWikisourceSmart_never_index Samples.deadEndWiki)
      as (_ & _ & _ & H).
    apply (H (js "A") [] (js "A", Samples.sampleText 10) [ReqExtract (js "A")] []).
    + vm_compute. reflexivity.
    + vm_compute. reflexivity.
    + vm_compute. reflexivity.
    + vm_compute. reflexivity.
Defined.

End WikiFacts.


(** ** The Gutenberg download *)

Module GutenbergFacts.
Import WikiProxy.

Lemma usable_dec formats c :
  usable formats c \/ ~ usable formats c.
Proof.
  unfold usable. destruct (formats !! c) as [url|] eqn:Hc.
  - destruct (truthy url) eqn:Hu.
    + left. now exists url.
    + right. intros (u & [= <-] & Hu'). congruence.
  - right. now intros (u & [=] & _).
Qed.

(** The loop returns the first candidate that is usable. *)
Lemma firstCandidate_Some formats cs url mime :
  firstCandidate formats cs = Some (url, mime) <->
  exists before after,
    cs = before ++ mime :: after /\
    Forall (fun c => ~ usable formats c) before /\
    formats !! mime = Some url /\ truthy url = true.
Proof.
  induction cs as [|c cs IH]; cbn [firstCandidate].
  - split; [discriminate|]. intros (before & after & H & _).
    now destruct before.
  - destruct (formats !! c) as [u|] eqn:Hc; [destruct (truthy u) eqn:Hu|].
    + split.
      * intros [= <- <-]. exists [], cs. repeat split; [constructor|assumption..].
      * intros ([|b before] & after & Hcs & Hbefore & Hurl & Htruthy).
        -- injection Hcs as <- _. congruence.
        -- injection Hcs as <- _. apply Forall_cons in Hbefore as [Hb _].
           exfalso. apply Hb. now exists u.
    + rewrite IH. split.
      * intros (before & after & -> & Hbefore & Hurl & Htruthy).
        exists (c :: before), after. repeat split; try assumption.
        constructor; [|assumption]. intros (u' & Hu' & Ht). congruence.
      * intros ([|b before] & after & Hcs & Hbefore & Hurl & Htruthy).
        -- injection Hcs as <- _. congruence.
        -- injection Hcs as <- ->. apply Forall_cons in Hbefore as [_ Hbefore].
           now exists before, after.
    + rewrite IH. split.
      * intros (before & after & -> & Hbefore & Hurl & Htruthy).
        exists (c :: before), after. repeat split; try assumption.
        constructor; [|assumption]. intros (u' & Hu' & Ht). congruence.
      * intros ([|b before] & after & Hcs & Hbefore & Hurl & Htruthy).
        -- injection Hcs as <- _. congruence.
        -- injection Hcs as <- ->. apply Forall_cons in Hbefore as [_ Hbefore].
           now exists before, after.
Qed.


(** The same for the loop of [pickBestFormat]. *)
Lemma firstFormat_Some formats cs mime url :
  EbooksProxy.firstFormat formats cs = Some (mime, url) <->
  EbooksProxy.firstUsable formats cs mime url.
Proof.
  unfold EbooksProxy.firstUsable.
  induction cs as [|c cs IH]; cbn [EbooksProxy.firstFormat].
  - split; [discriminate|]. intros (before & after & H & _).
    now destruct before.
  - destruct (EbooksProxy.property formats c) as [u|] eqn:Hc;
      [destruct (truthy u) eqn:Hu|].
    + split.
      * intros [= <- <-]. exists [], cs. repeat split; [constructor|assumption..].
      * intros ([|b before] & after & Hcs & Hbefore & Hurl & Htruthy).
        -- injection Hcs as <- _. congruence.
        -- injection Hcs as <- _. apply Forall_cons in Hbefore as [Hb _].
           exfalso. apply Hb. now exists u.
    + rewrite IH. split.
      * intros (before & after & -> & Hbefore & Hurl & Htruthy).
        exists (c :: before), after. repeat split; try assumption.
        constructor; [|assumption]. intros (u' & Hu' & Ht). congruence.
      * intros ([|b before] & after & Hcs & Hbefore & Hurl & Htruthy).
        -- injection Hcs as <- _. congruence.
        -- injection Hcs as <- ->. apply Forall_cons in Hbefore as [_ Hbefore].
           now exists before, after.
    + rewrite IH. split.
      * intros (before & after & -> & Hbefore & Hurl & Htruthy).
        exists (c :: before), after. repeat split; try assumption.
        constructor; [|assumption]. intros (u' & Hu' & Ht). congruence.
      * intros ([|b before] & after & Hcs & Hbefore & Hurl & Htruthy).
        -- injection Hcs as <- _. congruence.
        -- injection Hcs as <- ->. apply Forall_cons in Hbefore as [_ Hbefore].
           now exists before, after.
Qed.


Lemma find_first {A} (f : A -> bool) l x :
  List.find f l = Some x <->
  exists l1 l2, l = l1 ++ x :: l2 /\ f x = true /\
    Forall (fun y => f y = false) l1.
Proof.
  induction l as [|y l IH]; cbn [List.find].
  - split; [discriminate|]. intros (l1 & l2 & H & _). now destruct l1.
  - destruct (f y) eqn:Hy.
    + split.
      * intros [= ->]. exists [], l. repeat split; [assumption|constructor].
      * intros ([|z l1] & l2 & Hl & Hx & Hl1).
        -- injection Hl as -> _. reflexivity.
        -- injection Hl as <- _. apply Forall_cons in Hl1 as [Hz _]. congruence.
    + rewrite IH. split.
      * intros (l1 & l2 & -> & Hx & Hl1).
        exists (y :: l1), l2. repeat split; [assumption|now constructor].
      * intros ([|z l1] & l2 & Hl & Hx & Hl1).
        -- injection Hl as -> _. congruence.
        -- injection Hl as <- ->. apply Forall_cons in Hl1 as [_ Hl1].
           now exists l1, l2.
Qed.








(** A plain text in another charset is not among the keys that the proxy
    with the Wikisource adapters looks up: the EPUB is delivered. *)
Example downloadGutenberg_other_charset :
  Samples.asciiAndEpub !! js "text/plain; charset=us-ascii"
    = Some (js "https://example.org/1.txt")
  /\ downloadGutenberg (Samples.sampleGutendex Samples.asciiAndEpub) (js "158")
     = Ret {| file_title := js "Emma";
              file_mime := js "application/epub+zip";
              file_ext := js "epub";
              file_buffer := buffer_from_utf8 (js "https://example.org/1.epub") |}.
Proof. split; vm_compute; reflexivity. Qed.

Lemma firstCandidate_in formats cs url mime :
  firstCandidate formats cs = Some (url, mime) -> mime ∈ cs.
Proof.
  intros (before & after & -> & _)%firstCandidate_Some.
  apply elem_of_app. right. apply list_elem_of_here.
Qed.

Lemma outputKind_candidates mime :
  mime ∈ candidates ->
  outputKind mime = (js "application/epub+zip", js "epub")
  \/ outputKind mime = (js "text/plain; charset=utf-8", js "txt").
Proof.
  unfold candidates. rewrite !elem_of_cons, elem_of_nil.
  intros [-> | [-> | [-> | [-> | []]]]]; vm_compute; auto.
Qed.

(** C10.  A Gutenberg resolve that succeeds returns the type and extension
    of an EPUB or of a plain text; a book whose chosen candidate is the HTML
    edition is delivered as [text/plain] with the extension [txt]; and no
    candidate of the list leads to the default [application/octet-stream]
    and [bin]. *)
Theorem downloadGutenberg_kinds (api : gutendex) (gutenbergId : jsstring) :
  (forall f, downloadGutenberg api gutenbergId = Ret f ->
     (file_mime f, file_ext f) = (js "application/epub+zip", js "epub")
     \/ (file_mime f, file_ext f) = (js "text/plain; charset=utf-8", js "txt"))
  /\ (forall book url f,
        gutendex_book api gutenbergId = Ok book ->
        firstCandidate (book_formats book) candidates
          = Some (url, js "text/html; charset=utf-8") ->
        downloadGutenberg api gutenbergId = Ret f ->
        file_mime f = js "text/plain; charset=utf-8" /\ file_ext f = js "txt")
  /\ (forall formats url mime,
        firstCandidate formats candidates = Some (url, mime) ->
        outputKind mime <> (js "application/octet-stream", js "bin")).
Proof.
  split; [|split].
  - intros f. unfold downloadGutenberg.
    destruct (gutendex_book api gutenbergId) as [| |book]; try discriminate.
    destruct (firstCandidate (book_formats book) candidates) as [[url mime]|] eqn:Hc;
      [|discriminate].
    destruct (gutendex_file api url) as [| |buffer]; try discriminate.
    apply firstCandidate_in, outputKind_candidates in Hc.
    destruct (outputKind mime) as [outMime ext]. intros [= <-].
    cbn [file_mime file_ext]. exact Hc.
  - intros book url f Hbook Hc. unfold downloadGutenberg. rewrite Hbook, Hc.
    destruct (gutendex_file api url) as [| |buffer]; try discriminate.
    intros [= <-]. split; reflexivity.
  - intros formats url mime Hc.
    apply firstCandidate_in, outputKind_candidates in Hc.
    destruct Hc as [-> | ->]; discriminate.
Qed.

Lemma downloadGutenberg_kinds_witness :
  let api := Samples.sampleGutendex Samples.htmlOnly in
  let f := {| file_title := js "Emma";
              file_mime := js "text/plain; charset=utf-8";
              file_ext := js "txt";
              file_buffer := buffer_from_utf8 (js "https://example.org/2.html") |} in
  downloadGutenberg api (js "158") = Ret f
  /\ ((file_mime f, file_ext f) = (js "application/epub+zip", js "epub")
      \/ (file_mime f, file_ext f) = (js "text/plain; charset=utf-8", js "txt"))
  /\ (file_mime f = js "text/plain; charset=utf-8" /\ file_ext f = js "txt")
  /\ outputKind (js "text/html; charset=utf-8")
     <> (js "application/octet-stream", js "bin").
Proof.
  intros api f.
  assert (Hrun : downloadGutenberg api (js "158") = Ret f)
    by (vm_compute; reflexivity).
  assert (Hfirst : firstCandidate Samples.htmlOnly candidates
                   = Some (js "https://example.org/2.html",
                           js "text/html; charset=utf-8"))
    by (vm_compute; reflexivity).
  destruct (downloadGutenberg_kinds api (js "158")) as (H1 & H2 & H3).
  split; [exact Hrun|]. split; [|split].
  - exact (H1 f Hrun).
  - exact (H2 (Samples.sampleBook Samples.htmlOnly) _ f eq_refl Hfirst Hrun).
  - exact (H3 _ _ _ Hfirst).
Defined.

End GutenbergFacts.


(** ** Sorting by a weight *)

Module SortFacts.

Section ByKey.
Context {A : Type}.
Variable key : A -> Z.

Local Abbreviation cmp := (fun a b : A => (key a - key b)%Z).
Local Abbreviation le_key := (fun a b : A => (key a <= key b)%Z).

Lemma sort_insert_perm x l : sort_insert cmp x l ≡ₚ x :: l.
Proof.
  induction l as [|y l IH]; [reflexivity|]. cbn [sort_insert].
  destruct (cmp x y <=? 0)%Z; [reflexivity|].
  rewrite IH. apply Permutation_swap.
Qed.

Lemma array_sort_perm l : array_sort cmp l ≡ₚ l.
Proof.
  induction l as [|x l IH]; [reflexivity|].
  cbn [array_sort foldr]. rewrite sort_insert_perm. now constructor.
Qed.

Lemma sort_insert_sorted x l :
  StronglySorted le_key l -> StronglySorted le_key (sort_insert cmp x l).
Proof.
  induction 1 as [|y l Hl IH Hy]; [repeat constructor|].
  cbn [sort_insert]. cbv beta.
  destruct (Z.leb_spec (key x - key y) 0) as [Hle|Hgt].
  - constructor; [now constructor|]. constructor; [lia|].
    eapply Forall_impl; [exact Hy|]. cbv beta. intros z Hz. lia.
  - constructor; [exact IH|].
    rewrite (sort_insert_perm x l). constructor; [cbv beta; lia|exact Hy].
Qed.

Lemma array_sort_sorted l : StronglySorted le_key (array_sort cmp l).
Proof.
  induction l as [|x l IH]; [constructor|]. now apply sort_insert_sorted.
Qed.

(** Stability: within one weight the order of the input is kept. *)
Lemma sort_insert_stable k x l :
  List.filter (fun a => (key a =? k)%Z) (sort_insert cmp x l)
  = List.filter (fun a => (key a =? k)%Z) (x :: l).
Proof.
  induction l as [|y l IH]; [reflexivity|]. cbn [sort_insert]. cbv beta.
  destruct (Z.leb_spec (key x - key y) 0) as [Hle|Hgt]; [reflexivity|].
  cbn [List.filter] in *. rewrite IH.
  destruct (Z.eqb_spec (key y) k), (Z.eqb_spec (key x) k); try reflexivity. lia.
Qed.

Lemma array_sort_stable k l :
  List.filter (fun a => (key a =? k)%Z) (array_sort cmp l)
  = List.filter (fun a => (key a =? k)%Z) l.
Proof.
  induction l as [|x l IH]; [reflexivity|].
  cbn [array_sort foldr]. rewrite sort_insert_stable.
  cbn [List.filter]. fold (array_sort cmp l). now rewrite IH.
Qed.

Lemma sorted_lookup l :
  StronglySorted le_key l ->
  forall i j x y,
    l !! i = Some x -> l !! j = Some y -> (i < j)%nat -> (key x <= key y)%Z.
Proof.
  induction 1 as [|z l Hl IH Hz]; intros i j x y Hi Hj Hij; [discriminate|].
  destruct j as [|j]; [lia|]. cbn in Hj. destruct i as [|i].
  - injection Hi as <-. rewrite Forall_forall in Hz. apply Hz.
    now apply list_elem_of_lookup_2 in Hj.
  - cbn in Hi. apply (IH i j); [assumption..|lia].
Qed.

(** In the sorted array, an element of smaller weight comes first. *)
Lemma array_sort_before l i j x y :
  array_sort cmp l !! i = Some x -> array_sort cmp l !! j = Some y ->
  (key x < key y)%Z -> (i < j)%nat.
Proof.
  intros Hi Hj Hlt. destruct (Nat.lt_trichotomy i j) as [?|[->|Hji]]; [assumption| |].
  - rewrite Hi in Hj. injection Hj as ->. lia.
  - pose proof (sorted_lookup _ (array_sort_sorted l) j i y x Hj Hi Hji) as H.
    cbv beta in H. lia.
Qed.

End ByKey.

End SortFacts.

(** ** Search *)

Module SearchFacts.
Import WikiProxy SortFacts.

(** An integer below 2^53 is a Number as it is. *)
Lemma toDouble_exact n : n < 2 ^ 53 -> toDouble n = Some n.
Proof. intros H. unfold toDouble. apply N.ltb_lt in H. rewrite H. reflexivity. Qed.

(** The page is positive whenever the default is. *)
Lemma safeInt_positive v def : (0 < def)%Z -> (0 < safeInt v def)%Z.
Proof.
  intros Hdef. unfold safeInt. destruct v as [s|]; [|exact Hdef].
  destruct (parseInt s) as [| |n]; try exact Hdef.
  destruct (0 <? n)%Z eqn:Hn; [|exact Hdef]. now apply Z.ltb_lt in Hn.
Qed.

(** The loop over the settled promises gathers the fulfilled ones. *)
Lemma fold_collect settled acc :
  fold_left collect settled acc
  = (fst acc ++ flat_map items (fulfilled settled),
     snd acc || existsb hasMore (fulfilled settled)).
Proof.
  revert acc. induction settled as [|r settled IH]; intros [its more].
  - cbn. now rewrite app_nil_r, orb_false_r.
  - cbn [fold_left]. rewrite IH. destruct r as [v|e]; cbn.
    + now rewrite <- app_assoc, orb_assoc.
    + reflexivity.
Qed.

(** The answer to a query that is not blank. *)
Lemma searchHandler_results srv query_q query_page :
  let q := trim (default [] query_q) in
  let page := safeInt query_page 1 in
  let settled := [searchGutenberg srv q page; searchWikisourceRu srv q page;
                  searchWikisourceUa srv q page] in
  q <> [] ->
  searchHandler srv query_q query_page
  = Results page (existsb hasMore (fulfilled settled))
      (array_sort (fun a b => (weight (RegExp.test_cyrillic q) a
                               - weight (RegExp.test_cyrillic q) b)%Z)
         (flat_map items (fulfilled settled))).
Proof.
  intros q page settled Hq. unfold searchHandler. fold q page.
  rewrite (IdFacts.truthy_nonempty q Hq). cbn [negb].
  fold settled. rewrite fold_collect. reflexivity.
Qed.

Lemma weight_cyrillic x :
  weight true x = 0%Z <->
  item_source x = js "wsrc-ru" \/ item_source x = js "wsrc-ua".
Proof.
  unfold weight, str_eqb. cbn [negb]. repeat case_bool_decide; split; try tauto;
    try discriminate; intros [?|?]; congruence.
Qed.

Lemma weight_latin x :
  weight false x = 0%Z <-> item_source x = js "gutenberg".
Proof.
  unfold weight, str_eqb. cbn [negb]. case_bool_decide; split; try tauto; discriminate.
Qed.

Lemma weight_range b x : (0 <= weight b x <= 2)%Z.
Proof.
  unfold weight. destruct (negb b); repeat match goal with
  | |- context [if ?c then _ else _] => destruct c end; lia.
Qed.

(** C8, as amended.  In the answer to a query: when the query has a letter
    of the class that the handler tests, [[А-Яа-яЁёІіЇїЄєҐґ]] (the Russian
    and Ukrainian alphabets), every Wikisource item comes before every
    Gutenberg item; when it has none, every Gutenberg item comes before
    every other item; and the items of one weight keep the order in which
    the adapters delivered them. *)
Theorem searchHandler_order srv query_q query_page page more results :
  searchHandler srv query_q query_page = Results page more results ->
  let q := trim (default [] query_q) in
  let settled := [searchGutenberg srv q page; searchWikisourceRu srv q page;
                  searchWikisourceUa srv q page] in
  (RegExp.test_cyrillic q = true ->
   forall i j x y,
     results !! i = Some x -> results !! j = Some y ->
     item_source x = js "wsrc-ru" \/ item_source x = js "wsrc-ua" ->
     item_source y = js "gutenberg" -> (i < j)%nat)
  /\ (RegExp.test_cyrillic q = false ->
      forall i j x y,
        results !! i = Some x -> results !! j = Some y ->
        item_source x = js "gutenberg" -> item_source y <> js "gutenberg" ->
        (i < j)%nat)
  /\ (forall k,
        List.filter (fun x => (weight (RegExp.test_cyrillic q) x =? k)%Z) results
        = List.filter (fun x => (weight (RegExp.test_cyrillic q) x =? k)%Z)
            (flat_map items (fulfilled settled))).
Proof.
  intros Hrun q settled.
  assert (Hq : q <> []).
  { intros Hq. unfold searchHandler in Hrun. fold q in Hrun.
    rewrite Hq in Hrun. discriminate. }
  rewrite (searchHandler_results srv query_q query_page Hq) in Hrun.
  injection Hrun as <- <- <-. fold q. fold settled.
  split; [|split].
  - intros Hcyr i j x y Hi Hj Hx Hy. rewrite Hcyr in Hi, Hj.
    apply (array_sort_before (weight true) _ i j x y Hi Hj).
    apply weight_cyrillic in Hx. rewrite Hx.
    unfold weight, str_eqb. cbn [negb]. rewrite Hy. reflexivity.
  - intros Hcyr i j x y Hi Hj Hx Hy. rewrite Hcyr in Hi, Hj.
    apply (array_sort_before (weight false) _ i j x y Hi Hj).
    apply weight_latin in Hx. rewrite Hx.
    pose proof (weight_range false y) as Hr.
    assert (weight false y <> 0%Z) by (rewrite weight_latin; exact Hy). lia.
  - intros k. apply array_sort_stable.
Qed.

Lemma searchHandler_order_witness :
  let results :=
    [Samples.sampleItem (js "wsrc-ua") (js "Війна і мир");
     Samples.sampleItem (js "gutenberg") (js "2600");
     Samples.sampleItem (js "gutenberg") (js "986")] in
  WikiProxy.searchHandler Samples.sampleAdapters (Some (js " Война ")) (Some (js "2"))
  = Results 2 true results
  /\ RegExp.test_cyrillic (js "Война") = true
  /\ (forall i j x y,
        results !! i = Some x -> results !! j = Some y ->
        item_source x = js "wsrc-ru" \/ item_source x = js "wsrc-ua" ->
        item_source y = js "gutenberg" -> (i < j)%nat).
Proof.
  intros results.
  assert (Hrun : WikiProxy.searchHandler Samples.sampleAdapters
                   (Some (js " Война ")) (Some (js "2")) = Results 2 true results)
    by (vm_compute; reflexivity).
  assert (Hcyr : RegExp.test_cyrillic (trim (default [] (Some (js " Война "))))
                 = true) by (vm_compute; reflexivity).
  split; [exact Hrun|]. split; [vm_compute; reflexivity|].
  exact (proj1 (searchHandler_order _ _ _ _ _ _ Hrun) Hcyr).
Defined.

(** The claim as the specification states it fails on a query whose only
    Cyrillic character is outside that class, such as the Belarusian short
    u (U+045E): the Gutenberg items come first. *)
Lemma searchHandler_order_counterexample :
  js "ў" = [0x45E]
  /\ RegExp.test_cyrillic (js "ў") = false
  /\ WikiProxy.searchHandler Samples.sampleAdapters (Some (js "ў")) None
     = Results 1 true
         [Samples.sampleItem (js "gutenberg") (js "2600");
          Samples.sampleItem (js "gutenberg") (js "986");
          Samples.sampleItem (js "wsrc-ua") (js "Війна і мир")].
Proof.
  split; [vm_compute; reflexivity|]. split; vm_compute; reflexivity.
Qed.

(** C5, as amended.  In the handler that settles all three searches at
    once, for every query that is not blank and whichever adapters fail:
    the call answers with results, which are the items of the adapters that
    succeeded and nothing else, and its [hasMore] is the disjunction of
    theirs.  In the sequential handler only a failure of Standard Ebooks is
    tolerated in this way; a failure of the Gutenberg search fails the
    call. *)
Theorem search_isolation :
  (forall (srv : WikiProxy.adapters) query_q query_page,
     let q := trim (default [] query_q) in
     let page := safeInt query_page 1 in
     let settled := [searchGutenberg srv q page; searchWikisourceRu srv q page;
                     searchWikisourceUa srv q page] in
     q <> [] ->
     exists results,
       WikiProxy.searchHandler srv query_q query_page
       = Results page (existsb hasMore (fulfilled settled)) results
       /\ results ≡ₚ flat_map items (fulfilled settled))
  /\ (forall (Item : Type) (srv : OpdsHost.adapters Item) query_q query_page,
        let q := trim (default [] query_q) in
        let page := OpdsHost.clampInt query_page 1 1 999 in
        q <> [] ->
        match OpdsHost.searchGutenberg srv q page with
        | Throw e => OpdsHost.searchHandler srv query_q query_page = ServerError e
        | Ret g =>
          let settled := [Ret g; OpdsHost.searchStandardEbooks srv q page] in
          OpdsHost.searchHandler srv query_q query_page
          = Results page (existsb OpdsHost.hasMore (fulfilled settled))
              (flat_map OpdsHost.results (fulfilled settled))
        end).
Proof.
  split.
  - intros srv query_q query_page q page settled Hq.
    eexists. split; [exact (searchHandler_results srv query_q query_page Hq)|].
    apply array_sort_perm.
  - intros Item srv query_q query_page q page Hq.
    unfold OpdsHost.searchHandler, OpdsHost.searchBody. fold q page.
    rewrite (IdFacts.truthy_nonempty q Hq).
    cbn [negb OpdsHost.ENABLE_GUTENBERG OpdsHost.ENABLE_STANDARD_EBOOKS
         OpdsHost.ENABLE_INTERNET_ARCHIVE].
    destruct (OpdsHost.searchGutenberg srv q page) as [g|e]; [|reflexivity].
    destruct (OpdsHost.searchStandardEbooks srv q page) as [se|e]; cbn.
    + now rewrite app_nil_r, orb_false_r.
    + now rewrite app_nil_r, orb_false_r.
Qed.

Lemma search_isolation_witness :
  (exists results,
     WikiProxy.searchHandler Samples.sampleAdapters (Some (js " Война ")) (Some (js "2"))
     = Results 2 true results
     /\ results ≡ₚ [Samples.sampleItem (js "gutenberg") (js "2600");
                    Samples.sampleItem (js "gutenberg") (js "986");
                    Samples.sampleItem (js "wsrc-ua") (js "Війна і мир")])
  /\ OpdsHost.searchHandler Samples.sampleSequential (Some (js "emma")) None
     = ServerError FetchFailed.
Proof.
  destruct search_isolation as [Hall Hseq]. split.
  - apply (Hall Samples.sampleAdapters (Some (js " Война ")) (Some (js "2"))).
    vm_compute. discriminate.
  - apply (Hseq jsstring Samples.sampleSequential (Some (js "emma")) None).
    vm_compute. discriminate.
Defined.

(** The claim as the specification states it fails in the sequential
    handler: Standard Ebooks finds a book, the Gutenberg search fails, and
    the call fails. *)
Lemma search_isolation_counterexample :
  OpdsHost.searchGutenberg Samples.sampleSequential (js "emma") 1 = Throw FetchFailed
  /\ OpdsHost.searchStandardEbooks Samples.sampleSequential (js "emma") 1
     = Ret {| OpdsHost.results := [js "se:emma"]; OpdsHost.hasMore := false |}
  /\ OpdsHost.searchHandler Samples.sampleSequential (Some (js "emma")) None
     = ServerError FetchFailed.
Proof.
  split; [reflexivity|]. split; [reflexivity|]. vm_compute. reflexivity.
Qed.

(** C9, as amended.  On a query that is missing, empty or blank, the
    Gutenberg + Standard Ebooks proxy and the sequential host answer with no
    results and [hasMore = false]; the proxy with the Wikisource adapters
    answers with status 400 and an error. *)
Theorem search_blank_query (query_q query_page : option jsstring) :
  trim (default [] query_q) = [] ->
  (forall (Item : Type) (srv : EbooksProxy.adapters Item),
     EbooksProxy.searchHandler srv query_q = Results 1 false [])
  /\ (forall (Item : Type) (srv : OpdsHost.adapters Item),
        OpdsHost.searchHandler srv query_q query_page
        = Results (OpdsHost.clampInt query_page 1 1 999) false [])
  /\ (forall srv : WikiProxy.adapters,
        WikiProxy.searchHandler srv query_q query_page
        = BadRequest (js "Query is empty")).
Proof.
  intros Hq. split; [|split].
  - intros Item srv. unfold EbooksProxy.searchHandler, EbooksProxy.clampStr.
    now rewrite Hq.
  - intros Item srv. unfold OpdsHost.searchHandler. now rewrite Hq.
  - intros srv. unfold WikiProxy.searchHandler. now rewrite Hq.
Qed.

Lemma search_blank_query_witness :
  EbooksProxy.searchHandler Samples.sampleEbooks (Some (js "   "))
    = Results 1 false []
  /\ OpdsHost.searchHandler Samples.sampleSequential (Some (js "   ")) (Some (js "7"))
     = Results 7 false []
  /\ WikiProxy.searchHandler Samples.sampleAdapters (Some (js "   ")) (Some (js "7"))
     = BadRequest (js "Query is empty").
Proof.
  assert (Hq : trim (default [] (Some (js "   "))) = []) by (vm_compute; reflexivity).
  destruct (search_blank_query (Some (js "   ")) (Some (js "7")) Hq) as (H1 & H2 & H3).
  split; [apply H1|]. split; [apply H2|apply H3].
Defined.

(** The claim as the specification states it fails in the proxy with the
    Wikisource adapters, which rejects an empty query. *)
Lemma search_blank_query_counterexample :
  WikiProxy.searchHandler Samples.sampleAdapters (Some []) None
    = BadRequest (js "Query is empty")
  /\ WikiProxy.searchHandler Samples.sampleAdapters None None
     = BadRequest (js "Query is empty").
Proof. split; vm_compute; reflexivity. Qed.

End SearchFacts.


(** ** The base64url identifiers of the OPDS host *)

Module Base64Facts.
Import URI URIFacts Buffer OpdsHost.

(** Induction on a list of bytes by groups of three. *)
Lemma list_ind3 {A} (P : list A -> Prop) :
  P [] -> (forall a, P [a]) -> (forall a b, P [a; b]) ->
  (forall a b c rest, P rest -> P (a :: b :: c :: rest)) ->
  forall l, P l.
Proof.
  intros H0 H1 H2 H3 l.
  assert (H : P l /\ (forall a, P (a :: l)) /\ (forall a b, P (a :: b :: l))).
  { induction l as [|c l (IH0 & IH1 & IH2)]; [auto|].
    split; [apply IH1|]. split; [intros a; apply IH2|].
    intros a b. now apply H3. }
  apply H.
Qed.

Lemma bytesSextets_bounded bytes :
  Forall isByte bytes -> Forall isSextet (bytesSextets bytes).
Proof.
  unfold isByte, isSextet.
  induction bytes as [|a|a b|a b c rest IH] using list_ind3; intros H.
  - constructor.
  - apply Forall_cons in H as [Ha _]. repeat constructor; nlia.
  - apply Forall_cons in H as [Ha H]. apply Forall_cons in H as [Hb _].
    repeat constructor; nlia.
  - apply Forall_cons in H as [Ha H]. apply Forall_cons in H as [Hb H].
    apply Forall_cons in H as [Hc H]. cbn [bytesSextets].
    apply Forall_app. split; [repeat constructor; nlia|now apply IH].
Qed.

Lemma length_bytesSextets bytes :
  (length (bytesSextets bytes) mod 4)%nat
  = match (length bytes mod 3)%nat with
    | 1%nat => 2%nat | 2%nat => 3%nat | _ => 0%nat
    end.
Proof.
  induction bytes as [|a|a b|a b c rest IH] using list_ind3; try reflexivity.
  cbn [bytesSextets length app].
  change (S (S (S (S (length (bytesSextets rest))))))
    with (4 + length (bytesSextets rest))%nat.
  change (S (S (S (length rest)))) with (3 + length rest)%nat.
  rewrite <- (Nat.Div0.add_mod_idemp_l 4), <- (Nat.Div0.add_mod_idemp_l 3).
  exact IH.
Qed.

Lemma toBase64_sextets bytes :
  toBase64 bytes = map base64Char (bytesSextets bytes) ++ padding bytes.
Proof.
  induction bytes as [|a|a b|a b c rest IH] using list_ind3; try reflexivity.
  cbn [toBase64 bytesSextets map app]. rewrite IH.
  unfold padding. cbn [length].
  change (S (S (S (length rest)))) with (3 + length rest)%nat.
  now rewrite <- (Nat.Div0.add_mod_idemp_l 3).
Qed.

Lemma fromSextets_bytesSextets bytes :
  Forall isByte bytes -> fromSextets (bytesSextets bytes) = bytes.
Proof.
  unfold isByte.
  induction bytes as [|a|a b|a b c rest IH] using list_ind3; intros H.
  - reflexivity.
  - apply Forall_cons in H as [Ha _]. cbn. f_equal. nlia.
  - apply Forall_cons in H as [Ha H]. apply Forall_cons in H as [Hb _].
    cbn. f_equal; [nlia|]. f_equal. nlia.
  - apply Forall_cons in H as [Ha H]. apply Forall_cons in H as [Hb H].
    apply Forall_cons in H as [Hc H]. cbn [bytesSextets app fromSextets].
    rewrite (IH H). f_equal; [nlia|]. f_equal; [nlia|]. f_equal. nlia.
Qed.

Lemma replaceAll_map c d s :
  replaceAll c [d] s = map (fun x => if x =? c then d else x) s.
Proof.
  induction s as [|x s IH]; [reflexivity|].
  rewrite HeaderFacts.replaceAll_cons, IH. cbn [map]. now destruct (x =? c).
Qed.

(** What the decoder reads back from one character of either alphabet. *)
Lemma unbase64_base64Char v :
  isSextet v ->
  base64Char v <> 0x3D /\ unbase64 (base64Char v) = Some v /\
  urlChar v <> 0x3D /\
  (if (if urlChar v =? 0x2D then 0x2B else urlChar v) =? 0x5F then 0x2F
   else (if urlChar v =? 0x2D then 0x2B else urlChar v)) = base64Char v.
Proof.
  unfold isSextet, urlChar, base64Char, unbase64. intros Hv. cbv zeta.
  destruct (N.ltb_spec v 26); [|destruct (N.ltb_spec v 52);
    [|destruct (N.ltb_spec v 62); [|destruct (N.eqb_spec v 62)]]].
  - repeat split; [lia| |nbool|nbool]. if_true. f_equal. lia.
  - repeat split; [lia| |nbool|nbool]. if_false. if_true. f_equal. lia.
  - repeat split; [lia| |nbool|nbool]. do 2 if_false. if_true. f_equal. lia.
  - subst v. repeat split; try reflexivity; discriminate.
  - assert (v = 63) as -> by lia. repeat split; try reflexivity; discriminate.
Qed.

Lemma dropEquals_padding k : dropEquals (repeat 0x3D k) = [].
Proof. induction k as [|k IH]; [reflexivity|exact IH]. Qed.

Lemma stripPadding_app xs k :
  Forall (fun c => c <> 0x3D) xs -> stripPadding (xs ++ repeat 0x3D k) = xs.
Proof.
  intros Hxs. unfold stripPadding. rewrite rev_app_distr, rev_repeat.
  induction k as [|k IH]; cbn [repeat app dropEquals].
  - destruct (rev xs) as [|c r] eqn:Hr; [now rewrite <- (rev_involutive xs), Hr|].
    cbn [dropEquals]. destruct (N.eqb_spec c 0x3D) as [->|_].
    + exfalso. rewrite Forall_forall in Hxs. apply (Hxs 0x3D); [|reflexivity].
      apply list_elem_of_In, in_rev. rewrite Hr. now left.
    + now rewrite <- Hr, rev_involutive.
  - exact IH.
Qed.

Lemma padding_repeat bytes : exists k, padding bytes = repeat 0x3D k.
Proof.
  unfold padding. destruct (length bytes mod 3)%nat as [|[|[|n]]].
  - now exists 0%nat.
  - now exists 2%nat.
  - now exists 1%nat.
  - now exists 0%nat.
Qed.

(** The identifier payload is the unpadded URL-safe encoding of the
    bytes. *)
Lemma toB64Url_sextets str :
  Forall isByte (buffer_from_utf8 str) ->
  toB64Url str = map urlChar (bytesSextets (buffer_from_utf8 str)).
Proof.
  intros Hbytes. unfold toB64Url. rewrite toBase64_sextets.
  change (js "-") with [0x2D]. change (js "_") with [0x5F].
  rewrite !replaceAll_map, map_map, map_app.
  destruct (padding_repeat (buffer_from_utf8 str)) as [k ->].
  assert (Hpad : forall k,
    map (fun x => if (if x =? 0x2B then 0x2D else x) =? 0x2F then 0x5F
                  else if x =? 0x2B then 0x2D else x) (repeat 0x3D k)
    = repeat 0x3D k) by (intros n; induction n; cbn; congruence).
  rewrite Hpad, map_map.
  pose proof (bytesSextets_bounded _ Hbytes) as Hsx.
  rewrite stripPadding_app.
  - apply map_ext_Forall. eapply Forall_impl; [exact Hsx|].
    intros v Hv. unfold urlChar. cbv beta zeta.
    destruct (base64Char v =? 0x2B); reflexivity.
  - apply Forall_map. eapply Forall_impl; [exact Hsx|].
    intros v Hv. cbv beta.
    destruct (unbase64_base64Char v Hv) as (Hne & _ & Hu & _).
    unfold urlChar in Hu. cbv zeta in Hu.
    destruct (base64Char v =? 0x2B); exact Hu.
Qed.

Lemma sextets_base64 vs pad :
  Forall isSextet vs -> (pad = [] \/ exists pad', pad = 0x3D :: pad') ->
  sextets (map base64Char vs ++ pad) = vs.
Proof.
  intros Hvs Hpad. induction Hvs as [|v vs Hv _ IH].
  - destruct Hpad as [->|[pad' ->]]; reflexivity.
  - cbn [map app sextets].
    destruct (unbase64_base64Char v Hv) as (Hne & Hun & _).
    destruct (N.eqb_spec (base64Char v) 0x3D); [contradiction|].
    now rewrite Hun, IH.
Qed.

(** One step of the decoder on a continuation byte. *)
Lemma utf8Decode_continue cp n lower upper b rest :
  lower <= b <= upper ->
  utf8Decode (Some (cp, S (S n), lower, upper)) (b :: rest)
  = utf8Decode (Some (cp * 64 + (b - 0x80), S n, 0x80, 0xBF)) rest.
Proof.
  intros Hb. cbn [utf8Decode].
  assert (H : (lower <=? b) && (b <=? upper) = true) by bool_arith.
  now rewrite H.
Qed.

Lemma utf8Decode_last cp lower upper b rest :
  lower <= b <= upper ->
  utf8Decode (Some (cp, 1%nat, lower, upper)) (b :: rest)
  = utf16EncodeCodePoint (cp * 64 + (b - 0x80)) ++ utf8Decode None rest.
Proof.
  intros Hb. cbn [utf8Decode].
  assert (H : (lower <=? b) && (b <=? upper) = true) by bool_arith.
  now rewrite H.
Qed.

Lemma utf8Decode_lead b rest :
  utf8Decode None (b :: rest)
  = fst (utf8Lead b) ++ utf8Decode (snd (utf8Lead b)) rest.
Proof. reflexivity. Qed.

Lemma utf8Lead_1 b : b < 0x80 -> utf8Lead b = ([b], None).
Proof. intros Hb. unfold utf8Lead. now if_true. Qed.

Lemma utf8Lead_2 b :
  0xC2 <= b <= 0xDF -> utf8Lead b = ([], Some (b - 0xC0, 1%nat, 0x80, 0xBF)).
Proof. intros Hb. unfold utf8Lead. if_false. now if_true. Qed.

Lemma utf8Lead_3 b :
  0xE0 <= b <= 0xEF ->
  utf8Lead b = ([], Some (b - 0xE0, 2%nat,
                          (if b =? 0xE0 then 0xA0 else 0x80),
                          (if b =? 0xED then 0x9F else 0xBF))).
Proof. intros Hb. unfold utf8Lead. do 2 if_false. now if_true. Qed.

Lemma utf8Lead_4 b :
  0xF0 <= b <= 0xF4 ->
  utf8Lead b = ([], Some (b - 0xF0, 3%nat,
                          (if b =? 0xF0 then 0x90 else 0x80),
                          (if b =? 0xF4 then 0x8F else 0xBF))).
Proof. intros Hb. unfold utf8Lead. do 3 if_false. now if_true. Qed.

(** The decoder reads back the octets of a scalar value. *)
Lemma utf8Decode_octets cp rest :
  scalar cp ->
  utf8Decode None (utf8Octets cp ++ rest)
  = utf16EncodeCodePoint cp ++ utf8Decode None rest.
Proof.
  intros [Hmax Hsur]. unfold utf8Octets.
  destruct (N.ltb_spec cp 0x80); [|destruct (N.ltb_spec cp 0x800);
    [|destruct (N.ltb_spec cp 0x10000)]]; cbn [app]; rewrite utf8Decode_lead.
  - rewrite utf8Lead_1 by assumption. cbn [fst snd app].
    unfold utf16EncodeCodePoint.
    destruct (N.ltb_spec cp 0x10000); [reflexivity|lia].
  - rewrite utf8Lead_2 by nlia. cbn [fst snd app].
    rewrite utf8Decode_last by nlia. do 2 f_equal. nlia.
  - rewrite utf8Lead_3 by nlia. cbn [fst snd app].
    rewrite utf8Decode_continue.
    + rewrite utf8Decode_last by nlia. do 2 f_equal. nlia.
    + destruct (N.eqb_spec (0xE0 + cp / 4096) 0xE0);
        destruct (N.eqb_spec (0xE0 + cp / 4096) 0xED); nlia.
  - rewrite utf8Lead_4 by nlia. cbn [fst snd app].
    rewrite utf8Decode_continue.
    + rewrite utf8Decode_continue by nlia.
      rewrite utf8Decode_last by nlia. do 2 f_equal. nlia.
    + destruct (N.eqb_spec (0xF0 + cp / 262144) 0xF0);
        destruct (N.eqb_spec (0xF0 + cp / 262144) 0xF4); nlia.
Qed.

(** The bytes of a well-formed string, and their decoding. *)
Lemma toStringUtf8_bounded n :
  forall s, (length s <= n)%nat -> wellFormed s = true ->
  Forall isByte (buffer_from_utf8 s) /\
  toStringUtf8 (buffer_from_utf8 s) = s.
Proof.
  unfold toStringUtf8.
  induction n as [|n IH]; intros s Hlen Hwf.
  { destruct s; [|simpl in Hlen; lia]. split; [constructor|reflexivity]. }
  destruct s as [|c rest]; [split; [constructor|reflexivity]|].
  cbn [length] in Hlen.
  destruct (wellFormed_cons _ _ Hwf) as (Hc & Hlo & Hbmp & Hpair).
  cbn [buffer_from_utf8]. destruct (isHighSurrogate c) eqn:Hhi.
  - destruct (Hpair eq_refl) as (d & rest' & -> & Hd & Hdlo & Hwf').
    rewrite Hdlo. cbn [length] in Hlen.
    destruct (IH rest' ltac:(lia) Hwf') as [Hbytes Hdec].
    destruct (surrogate_pair_scalar c d Hhi Hdlo) as [Hsc Hu16].
    cbv zeta in Hsc, Hu16. split.
    + apply Forall_app. split; [|assumption].
      apply IdFacts.utf8Octets_bounded, Hsc.
    + now rewrite utf8Decode_octets, Hu16, Hdec by assumption.
  - rewrite Hlo. destruct (IH rest ltac:(lia) (Hbmp eq_refl)) as [Hbytes Hdec].
    assert (Hsc : scalar c).
    { unfold scalar. unfold isHighSurrogate in Hhi. unfold isLowSurrogate in Hlo.
      apply andb_false_iff in Hhi, Hlo. rewrite !N.leb_gt in Hhi, Hlo. lia. }
    split.
    + apply Forall_app. split; [|assumption].
      apply IdFacts.utf8Octets_bounded, Hsc.
    + rewrite utf8Decode_octets, Hdec by assumption.
      unfold utf16EncodeCodePoint.
      destruct (N.ltb_spec c 0x10000); [reflexivity|lia].
Qed.

(** The base64url codec of the OPDS host inverts itself on every
    well-formed string, the empty one and those with a colon included. *)
Lemma fromB64Url_toB64Url str :
  wellFormed str = true -> fromB64Url (toB64Url str) = str.
Proof.
  intros Hwf.
  destruct (toStringUtf8_bounded _ str (le_n _) Hwf) as [Hbytes Hdec].
  pose proof (bytesSextets_bounded _ Hbytes) as Hsx.
  rewrite toB64Url_sextets by assumption. unfold fromB64Url. cbv zeta.
  change (js "+") with [0x2B]. change (js "/") with [0x2F].
  rewrite !replaceAll_map, !map_map.
  set (vs := bytesSextets (buffer_from_utf8 str)) in *.
  assert (Hback : map (fun v =>
      if (if urlChar v =? 0x2D then 0x2B else urlChar v) =? 0x5F then 0x2F
      else if urlChar v =? 0x2D then 0x2B else urlChar v) vs
    = map base64Char vs).
  { apply map_ext_Forall. eapply Forall_impl; [exact Hsx|].
    intros v Hv. now destruct (unbase64_base64Char v Hv) as (_ & _ & _ & H). }
  rewrite Hback. unfold fromBase64. rewrite sextets_base64; [|assumption|].
  - subst vs. now rewrite fromSextets_bytesSextets.
  - change (js "===") with [0x3D; 0x3D; 0x3D].
    destruct ((length (map urlChar vs) + 3) mod 4)%nat as [|[|[|k]]]; cbn [drop];
      [right|right|right|left]; eauto.
    now destruct k.
Qed.

(** C1, as amended.  (1) In the proxy with the Wikisource adapters, for
    every source tag and every non-empty payload, [parseId] inverts
    [makeId]: for the two Wikisource tags on every well-formed payload, a
    colon in it included (the payload is percent encoded); for the
    [gutenberg] tag, whose payload is embedded as it is, on every payload
    without a colon.  (2) The base64url codec of the OPDS host inverts
    itself on every well-formed string, the empty one and those with a
    colon included. *)
Theorem identifier_roundtrip :
  (forall source payload : jsstring,
     payload <> [] ->
     (source = js "wsrc-ru" \/ source = js "wsrc-ua")
       /\ wellFormed payload = true
     \/ source = js "gutenberg" /\ 0x3A ∉ payload ->
     exists id, WikiProxy.makeId source payload = Ret id /\
       WikiProxy.parseId id
       = Ret (Some {| WikiProxy.source := source; WikiProxy.value := payload |}))
  /\ (forall str : jsstring,
        wellFormed str = true -> fromB64Url (toB64Url str) = str).
Proof.
  split.
  - exact IdFacts.parseId_makeId.
  - exact fromB64Url_toB64Url.
Qed.

Lemma identifier_roundtrip_witness :
  (exists id, WikiProxy.makeId (js "wsrc-ru") (js "Война и мир: том 1") = Ret id /\
     WikiProxy.parseId id
     = Ret (Some {| WikiProxy.source := js "wsrc-ru";
                    WikiProxy.value := js "Война и мир: том 1" |}))
  /\ fromB64Url (toB64Url (js "https://standardebooks.org/ebooks/a:b"))
     = js "https://standardebooks.org/ebooks/a:b"
  /\ fromB64Url (toB64Url []) = [].
Proof.
  destruct identifier_roundtrip as [Hproxy Hopds]. split; [|split].
  - apply Hproxy; [discriminate|].
    left. split; [now left|vm_compute; reflexivity].
  - apply Hopds. vm_compute. reflexivity.
  - apply Hopds. reflexivity.
Defined.

(** The claim as the specification states it fails on the empty payload,
    which [parseId] rejects, and on a [gutenberg] payload with a colon,
    of which [parseId] keeps the part before the colon. *)
Lemma identifier_roundtrip_counterexample :
  (let* id := WikiProxy.makeId (js "wsrc-ru") [] in WikiProxy.parseId id) = Ret None
  /\ (let* id := WikiProxy.makeId (js "gutenberg") [] in WikiProxy.parseId id)
     = Ret None
  /\ (let* id := WikiProxy.makeId (js "gutenberg") (js "12:3") in
      WikiProxy.parseId id)
     = Ret (Some {| WikiProxy.source := js "gutenberg";
                    WikiProxy.value := js "12" |}).
Proof.
  split; [vm_compute; reflexivity|]. split; vm_compute; reflexivity.
Qed.

End Base64Facts.


(** ** The definitions on concrete inputs *)

Module Examples.
Import WikiProxy.

Example split_on_colons :
  split_on 0x3A (js "a:b:c") = [js "a"; js "b"; js "c"]
  /\ split_on 0x3A [] = [[]]
  /\ split_on 0x3A (js "wsrc-ru:") = [js "wsrc-ru"; []].
Proof. repeat split; vm_compute; reflexivity. Qed.

Example trim_spaces : trim (js "  a b  ") = js "a b" /\ trim [0x0A; 0x20] = [].
Proof. split; vm_compute; reflexivity. Qed.

Example encodeURIComponent_title :
  URI.encodeURIComponent (js "Война: том 1")
  = Ret (js "%D0%92%D0%BE%D0%B9%D0%BD%D0%B0%3A%20%D1%82%D0%BE%D0%BC%201").
Proof. vm_compute. reflexivity. Qed.

Example encodeURIComponent_unreserved :
  URI.encodeURIComponent (js "a-b_c.d!e~f*g'h(i)") = Ret (js "a-b_c.d!e~f*g'h(i)").
Proof. vm_compute. reflexivity. Qed.

Example encodeURIComponent_lone_surrogate :
  URI.encodeURIComponent [0x61; 0xD83D] = Throw URIError.
Proof. reflexivity. Qed.

Example decodeURIComponent_euro :
  URI.decodeURIComponent (js "%E2%82%AC%20%f0%9f%98%80") = Ret (js "€ 😀").
Proof. vm_compute. reflexivity. Qed.

Example decodeURIComponent_malformed :
  URI.decodeURIComponent (js "%") = Throw URIError
  /\ URI.decodeURIComponent (js "%C0%80") = Throw URIError
  /\ URI.decodeURIComponent (js "%E2%82") = Throw URIError.
Proof. repeat split; vm_compute; reflexivity. Qed.

Example rfc5987Encode_reserved :
  rfc5987Encode (js "a'(b)*.txt") = Ret (js "a%27%28b%29%2A.txt").
Proof. vm_compute. reflexivity. Qed.

Example asciiFallbackName_titles :
  asciiFallbackName Samples.nfkdRussian (js "Война и мир") (js "txt") = js "book.txt"
  /\ asciiFallbackName Samples.nfkdRussian (js "War & Peace (1869)") (js ".epub")
     = js "War_Peace_1869.epub".
Proof. split; vm_compute; reflexivity. Qed.

Example setDownloadHeaders_title :
  contentDisposition
    <$> match setDownloadHeaders Samples.nfkdRussian (js "Emma: a novel")
                (js "text/plain; charset=utf-8") (js "txt") with
        | Ret h => Some h
        | Throw _ => None
        end
  = Some (js "attachment; filename=" ++ [dquote] ++ js "Emma_a_novel.txt"
          ++ [dquote] ++ js "; filename*=UTF-8''Emma%3A%20a%20novel.txt").
Proof. vm_compute. reflexivity. Qed.

Example isBadWikisourceTitle_titles :
  isBadWikisourceTitle (js " Категория:Романы") = true
  /\ isBadWikisourceTitle (js "Author:Leo Tolstoy") = true
  /\ isBadWikisourceTitle [] = true
  /\ isBadWikisourceTitle (js "Война и мир") = false.
Proof. repeat split; vm_compute; reflexivity. Qed.

Example looksLikeIndexOrList_markers :
  looksLikeIndexOrList (js "Война и мир") (js "x == содержание  == y") = true
  /\ looksLikeIndexOrList (js "Война и мир") (js "Other WORKS by the author") = true
  /\ looksLikeIndexOrList (js "Война и мир") (js "   ") = true
  /\ looksLikeIndexOrList (js "Война и мир") (js "Eh bien, mon prince.") = false.
Proof. repeat split; vm_compute; reflexivity. Qed.

Example pickBestLink_links :
  pickBestLink (js "Лев Толстой")
    [js "Категория:Романы"; js " Лев Толстой "; js "Анна Каренина: часть 1";
     js "Война и мир"]
  = Some (js "Война и мир")
  /\ pickBestLink (js "Лев Толстой") [js "Автор:Лев Толстой"; js "Лев Толстой"]
     = None.
Proof. split; vm_compute; reflexivity. Qed.

Example parseInt10_pages :
  parseInt10 (js " 12ab") = Some 12%Z /\ parseInt10 (js "-3") = Some (-3)%Z
  /\ parseInt10 (js "abc") = None /\ safeInt (Some (js "0")) 1 = 1%Z.
Proof. repeat split; vm_compute; reflexivity. Qed.

(** A page beyond 2^53 is the nearest double, and a page that is too large
    for a double is infinite, hence the default. *)
Example safeInt_doubles :
  safeInt (Some (js "9007199254740993")) 1 = 9007199254740992%Z
  /\ safeInt (Some (js "9007199254740995")) 1 = 9007199254740996%Z
  /\ safeInt (Some (js "1" ++ repeat 0x30 308)) 1
     = (2 ^ 971 * 5010420900022432)%Z
  /\ safeInt (Some (js "1" ++ repeat 0x30 400)) 1 = 1%Z
  /\ safeInt (Some (js "-3")) 1 = 1%Z /\ safeInt None 1 = 1%Z.
Proof. repeat split; vm_compute; reflexivity. Qed.

Example array_sort_stable_weights :
  array_sort (fun a b : Z * N => (fst a - fst b)%Z)
    [(1%Z, 1); (0%Z, 2); (1%Z, 3); (0%Z, 4)]
  = [(0%Z, 2); (0%Z, 4); (1%Z, 1); (1%Z, 3)].
Proof. vm_compute. reflexivity. Qed.

Example toB64Url_blank :
  OpdsHost.toB64Url (js "about:blank") = js "YWJvdXQ6Ymxhbms"
  /\ OpdsHost.toB64Url (js "?>>") = js "Pz4-"
  /\ OpdsHost.fromB64Url (js "YWJvdXQ6Ymxhbms") = js "about:blank".
Proof. repeat split; vm_compute; reflexivity. Qed.

Example pickBestFormat_charset :
  EbooksProxy.pickBestFormat
    [(js "text/html", js "https://example.org/1.html");
     (js "text/plain; charset=us-ascii", js "https://example.org/1.txt")]
  = Some (js "text/plain; charset=us-ascii", js "https://example.org/1.txt").
Proof. vm_compute. reflexivity. Qed.

End Examples.


(** ** Trimming *)

Module TrimFacts.
Import ClassifierFacts.

Lemma trimStart_idem s : trimStart (trimStart s) = trimStart s.
Proof.
  induction s as [|c s IH]; [reflexivity|]. cbn [trimStart].
  destruct (isWhiteSpace c) eqn:E; [exact IH|]. cbn [trimStart]. rewrite E.
  reflexivity.
Qed.

(** A string that [trimStart] leaves alone is empty or begins with a
    character that is not white space. *)
Lemma trimStart_fixed s :
  trimStart s = s <-> match s with [] => True | c :: _ => isWhiteSpace c = false end.
Proof.
  destruct s as [|c s]; [tauto|]. cbn [trimStart].
  destruct (isWhiteSpace c) eqn:E; [|tauto].
  split; [|discriminate]. intros H.
  pose proof (length_trimStart s) as Hl. rewrite H in Hl. cbn in Hl. lia.
Qed.

Lemma trimStart_snoc_letter l c :
  isWhiteSpace c = false -> trimStart (l ++ [c]) = trimStart l ++ [c].
Proof.
  intros Hc. induction l as [|a l IH]; cbn.
  - rewrite Hc. reflexivity.
  - destruct (isWhiteSpace a); [exact IH | reflexivity].
Qed.

Lemma trimEnd_cons_letter c s :
  isWhiteSpace c = false -> trimEnd (c :: s) = c :: trimEnd s.
Proof.
  intros Hc. unfold trimEnd. cbn [rev].
  rewrite trimStart_snoc_letter by exact Hc.
  rewrite rev_app_distr. reflexivity.
Qed.

Lemma trimStart_trimEnd s : trimStart s = s -> trimStart (trimEnd s) = trimEnd s.
Proof.
  intros H. apply trimStart_fixed in H. destruct s as [|c s]; [reflexivity|].
  rewrite trimEnd_cons_letter by exact H. apply trimStart_fixed. exact H.
Qed.

Lemma trimEnd_idem s : trimEnd (trimEnd s) = trimEnd s.
Proof.
  unfold trimEnd. rewrite rev_involutive, trimStart_idem. reflexivity.
Qed.

Lemma trimStart_trim s : trimStart (trim s) = trim s.
Proof. apply trimStart_trimEnd, trimStart_idem. Qed.

Lemma trim_idem s : trim (trim s) = trim s.
Proof.
  unfold trim at 1. rewrite trimStart_trim. unfold trim. apply trimEnd_idem.
Qed.

Lemma trimEnd_trim s : trimEnd (trim s) = trim s.
Proof. unfold trim. apply trimEnd_idem. Qed.

(** The ends of a trimmed string are not white space. *)
Lemma trim_first s c r : trim s = c :: r -> isWhiteSpace c = false.
Proof.
  intros H. pose proof (trimStart_trim s) as Ht. rewrite H in Ht.
  apply trimStart_fixed in Ht. exact Ht.
Qed.

Lemma trim_last s r c : trim s = r ++ [c] -> isWhiteSpace c = false.
Proof.
  intros H. pose proof (trimEnd_trim s) as Ht. rewrite H, trimEnd_snoc in Ht.
  destruct (isWhiteSpace c); [|reflexivity].
  exfalso. pose proof (length_trimStart (rev r)) as Hl.
  apply (f_equal length) in Ht. unfold trimEnd in Ht.
  rewrite length_rev, length_app in Ht. rewrite length_rev in Hl. cbn in Ht. lia.
Qed.

End TrimFacts.


(** ** The choice of a link *)

Module LinkFacts.
Import WikiProxy TrimFacts.

Lemma filter_first {A} (f : A -> bool) l x r :
  List.filter f l = x :: r ->
  exists l1 l2, l = l1 ++ x :: l2 /\ f x = true /\
    Forall (fun y => f y = false) l1 /\ List.filter f l2 = r.
Proof.
  induction l as [|a l IH]; [discriminate|]. cbn [List.filter].
  destruct (f a) eqn:E.
  - intros [= -> <-]. exists [], l. auto.
  - intros H. destruct (IH H) as (l1 & l2 & -> & Hx & Hl1 & Hr).
    exists (a :: l1), l2. auto.
Qed.

Lemma filter_filter {A} (f g : A -> bool) l :
  List.filter g (List.filter f l) = List.filter (fun x => f x && g x) l.
Proof.
  induction l as [|a l IH]; [reflexivity|]. cbn [List.filter].
  destruct (f a); cbn [List.filter andb]; [destruct (g a)|]; congruence.
Qed.

Lemma filter_nil {A} (f : A -> bool) l :
  List.filter f l = [] <-> Forall (fun y => f y = false) l.
Proof.
  induction l as [|a l IH]; cbn [List.filter].
  - split; auto.
  - destruct (f a) eqn:E.
    + split; [discriminate|]. intros H. inversion H. congruence.
    + rewrite IH. split; [auto|]. intros H. inversion H. assumption.
Qed.

Lemma truthy_true s : truthy s = true <-> s <> [].
Proof. destruct s; cbn; split; congruence. Qed.

(** The test of the two filters of [pickBestLink] on a trimmed link. *)
Lemma candidate_test cur s :
  truthy s && negb (str_eqb s cur) && negb (isBadWikisourceTitle s) = true
  <-> s <> [] /\ s <> cur /\ isBadWikisourceTitle s = false.
Proof.
  unfold str_eqb. rewrite !andb_true_iff, !negb_true_iff, truthy_true.
  rewrite bool_decide_eq_false. tauto.
Qed.

(** A title that is neither empty nor blank and holds no colon is in no
    service namespace. *)
Lemma startsWith_includes s p : startsWith s p = true -> includes s p = true.
Proof. destruct s; cbn [includes]; intros ->; reflexivity. Qed.

Lemma includes_cons s c p : includes s p = true -> includes (c :: s) p = true.
Proof. intros H. cbn [includes]. rewrite H. apply orb_true_r. Qed.

Lemma includes_app_r pre s p : includes s p = true -> includes (pre ++ s) p = true.
Proof.
  induction pre as [|c pre IH]; [auto|]. intros H. cbn [app].
  apply includes_cons, IH, H.
Qed.

Lemma startsWith_app_l s p q : startsWith s (p ++ q) = true -> startsWith s p = true.
Proof.
  revert s. induction p as [|x p IH]; intros s; [destruct s; reflexivity|].
  destruct s as [|y s]; cbn; [discriminate|].
  rewrite !andb_true_iff. intros [? H]. split; [assumption|]. apply (IH _ H).
Qed.

Lemma startsWith_drop s p q :
  startsWith s (p ++ q) = true -> startsWith (drop (length p) s) q = true.
Proof.
  revert s. induction p as [|x p IH]; intros s; [auto|].
  destruct s as [|y s]; cbn; [discriminate|].
  rewrite !andb_true_iff. intros [? H]. apply (IH _ H).
Qed.

Lemma includes_drop n s p : includes (drop n s) p = true -> includes s p = true.
Proof.
  revert s. induction n as [|n IH]; intros s; [auto|].
  destruct s as [|c s]; [auto|]. cbn [drop]. intros H.
  apply includes_cons, IH, H.
Qed.

Lemma startsWith_colon s p :
  startsWith s (p ++ js ":") = true -> includes s (js ":") = true.
Proof.
  intros H. apply startsWith_drop in H.
  apply (includes_drop (length p)), startsWith_includes, H.
Qed.

(** What [pickBestLink] returns, and when it returns nothing. *)
Lemma pickBestLink_choice (currentTitle : jsstring) (links : list jsstring) :
  let candidate s :=
    s <> [] /\ s <> trim currentTitle /\ isBadWikisourceTitle s = false in
  (forall best, pickBestLink currentTitle links = Some best ->
     candidate best /\
     exists before after,
       map trim links = before ++ best :: after /\
       Forall (fun s => candidate s ->
                 includes s (js ":") = true /\ includes best (js ":") = false)
         before /\
       (includes best (js ":") = true ->
        Forall (fun s => candidate s -> includes s (js ":") = true) after))
  /\ (pickBestLink currentTitle links = None <->
      Forall (fun s => ~ candidate s) (map trim links)).
Proof.
  intros candidate. unfold pickBestLink. rewrite filter_filter.
  set (cur := trim currentTitle). set (L := map trim links).
  set (test := fun s => truthy s && negb (str_eqb s cur)
                        && negb (isBadWikisourceTitle s)).
  assert (Htest : forall s, test s = true <-> candidate s)
    by (intros s; apply candidate_test).
  assert (Hnot : forall s, test s = false <-> ~ candidate s).
  { intros s. rewrite <- Htest. destruct (test s); split; congruence. }
  split.
  - intros best. destruct (List.filter test L) as [|first rest] eqn:Hf;
      [discriminate|].
    destruct (List.filter (fun s => negb (includes s (js ":"))) (first :: rest))
      as [|b0 r0] eqn:Hn.
    + intros [= <-].
      destruct (filter_first _ _ _ _ Hf) as (l1 & l2 & HL & Hx & Hl1 & Hr).
      apply filter_nil in Hn. inversion Hn as [|? ? Hfirst Hrest]; subst.
      apply negb_false_iff in Hfirst.
      split; [apply Htest, Hx|]. exists l1, l2. split; [exact HL|]. split.
      * eapply Forall_impl; [exact Hl1|]. cbn. intros s Hs Hc.
        apply Hnot in Hs. contradiction.
      * intros _. apply Forall_forall. intros s Hs Hc.
        assert (Hin : In s (List.filter test l2)).
        { apply filter_In. split; [apply list_elem_of_In, Hs | apply Htest, Hc]. }
        rewrite Forall_forall in Hrest.
        apply list_elem_of_In, Hrest in Hin. apply negb_false_iff in Hin. exact Hin.
    + intros [= <-]. rewrite <- Hf, filter_filter in Hn.
      destruct (filter_first _ _ _ _ Hn) as (l1 & l2 & HL & Hx & Hl1 & _).
      apply andb_true_iff in Hx as [Hx Hcolon]. apply negb_true_iff in Hcolon.
      split; [apply Htest, Hx|]. exists l1, l2. split; [exact HL|]. split.
      * eapply Forall_impl; [exact Hl1|]. cbn. intros s Hs Hc.
        apply Htest in Hc. rewrite Hc in Hs. cbn in Hs.
        apply negb_false_iff in Hs. auto.
      * rewrite Hcolon. discriminate.
  - destruct (List.filter test L) as [|first rest] eqn:Hf.
    + split; [intros _|reflexivity]. apply filter_nil in Hf.
      eapply Forall_impl; [exact Hf|]. intros s. apply Hnot.
    + split.
      * destruct (List.filter _ (first :: rest)); discriminate.
      * intros H. exfalso.
        assert (Hin : In first (List.filter test L)) by (rewrite Hf; left; reflexivity).
        apply filter_In in Hin as [Hin Ht]. rewrite Forall_forall in H.
        apply (H first); [apply list_elem_of_In, Hin | apply Htest, Ht].
Qed.

(** X1.  The link that [pickBestLink] returns is a trimmed link of the page
    that is not empty, is not the trimmed current title and is in no service
    namespace.  It is the first such link without a colon, or, when every
    such link holds a colon, the first of them.  The answer is [null] exactly
    when no link qualifies. *)
Theorem pickBestLink_first_candidate (currentTitle : jsstring) (links : list jsstring) :
  let candidate s :=
    s <> [] /\ s <> trim currentTitle /\ isBadWikisourceTitle s = false in
  (forall best, pickBestLink currentTitle links = Some best ->
     candidate best /\
     exists before after,
       map trim links = before ++ best :: after /\
       Forall (fun s => candidate s ->
                 includes s (js ":") = true /\ includes best (js ":") = false)
         before /\
       (includes best (js ":") = true ->
        Forall (fun s => candidate s -> includes s (js ":") = true) after))
  /\ (pickBestLink currentTitle links = None <->
      Forall (fun s => ~ candidate s) (map trim links)).
Proof. exact (pickBestLink_choice currentTitle links). Qed.

End LinkFacts.


(** ** The requests of a smart download *)

Module HopFacts.
Import WikiProxy TrimFacts LinkFacts WikiFacts.

Section Site.
Variable api : wikisource.

(** What the loop may ask the site. *)
Local Abbreviation hopRequest := (fun r : request =>
  match r with
  | ReqExtract b => b <> [] /\ trim b = b /\ isBadWikisourceTitle b = false
  | ReqLinks _ limit => limit = 120
  end).




End Site.


End HopFacts.


(** ** The first page of a smart download, and the classifier on long texts *)

Module PageFacts.
Import RegExp WikiProxy TrimFacts LinkFacts ClassifierFacts.



(** X4.  The classifier only sees the trimmed title and the trimmed text:
    trimming them beforehand changes nothing.  On a text of 12000 characters
    or more under an ordinary title, only a contents heading makes a page an
    index: the key words and the list lines no longer count. *)
Theorem looksLikeIndexOrList_trimmed_and_long (title text : jsstring) :
  looksLikeIndexOrList (trim title) (trim text) = looksLikeIndexOrList title text
  /\ (isBadWikisourceTitle (trim title) = false ->
      12000 <= strlen (trim text) ->
      looksLikeIndexOrList title text = test_heading_i headingWords (trim text)).
Proof.
  split.
  - unfold looksLikeIndexOrList. rewrite !trim_idem. reflexivity.
  - intros Hbad Hlen. unfold looksLikeIndexOrList. rewrite Hbad.
    assert (Ht : truthy (trim text) = true).
    { revert Hlen. destruct (trim text); [|reflexivity].
      intros H. exfalso. apply H. reflexivity. }
    rewrite Ht. cbn [negb].
    assert (H1 : (strlen (trim text) <? 2000) = false) by (apply N.ltb_ge; lia).
    assert (H2 : (strlen (trim text) <? 8000) = false) by (apply N.ltb_ge; lia).
    assert (H3 : (strlen (trim text) <? 12000) = false) by (apply N.ltb_ge; lia).
    rewrite H1, H2, H3, !andb_false_r. cbn [andb].
    destruct (test_heading_i headingWords (trim text)); reflexivity.
Qed.

End PageFacts.


(** ** What [parseId] accepts *)

Module ParseFacts.
Import URI URIFacts IdFacts WikiProxy LinkFacts ClassifierFacts.

(** The first part of a split, and what is left after it. *)
Lemma split_on_head sep s r more :
  split_on sep s = r :: more ->
  (sep ∉ r) /\
  exists tail, s = r ++ tail /\
    (more = [] /\ tail = [] \/ exists t, tail = sep :: t /\ more = split_on sep t).
Proof.
  revert r more. induction s as [|c s IH]; intros r more; cbn [split_on].
  - intros [= <- <-]. split; [apply not_elem_of_nil|]. exists []. auto.
  - destruct (N.eqb_spec c sep) as [->|Hc].
    + intros [= <- <-]. split; [apply not_elem_of_nil|].
      exists (sep :: s). split; [reflexivity|]. right. eauto.
    + destruct (split_on_cons sep s) as (l & ls & Hs). rewrite Hs.
      intros [= <- <-]. destruct (IH _ _ Hs) as (Hl & tail & -> & Ht).
      split.
      * intros Hin. apply elem_of_cons in Hin as [->|Hin]; [congruence | auto].
      * exists tail. split; [reflexivity | exact Ht].
Qed.

Lemma split_on_two sep s p r more :
  split_on sep s = p :: r :: more ->
  (sep ∉ p) /\ (sep ∉ r) /\ exists tail, s = p ++ sep :: r ++ tail.
Proof.
  intros H. destruct (split_on_head _ _ _ _ H) as (Hp & tail & -> & Ht).
  destruct Ht as [[? _]|(t & -> & Hmore)]; [discriminate|].
  symmetry in Hmore. destruct (split_on_head _ _ _ _ Hmore) as (Hr & tail' & -> & _).
  eauto.
Qed.

Lemma split_on_single sep s p : split_on sep s = [p] -> sep ∉ s.
Proof.
  intros H. destruct (split_on_head _ _ _ _ H) as (Hp & tail & -> & Ht).
  destruct Ht as [[_ ->]|(t & _ & Hmore)].
  - rewrite app_nil_r. exact Hp.
  - destruct (split_on_cons sep t) as (l & ls & Hs). congruence.
Qed.

Lemma utf16EncodeCodePoint_nonempty v r : utf16EncodeCodePoint v ++ r <> [].
Proof. unfold utf16EncodeCodePoint. destruct (v <? 0x10000); discriminate. Qed.

(** One iteration of [Decode] produces at least one code unit, and the only
    exception is the URI error. *)
Lemma Decode_step f c rest :
  (forall r, Decode (S f) (c :: rest) = Ret r -> exists x r', r = x :: r')
  /\ (forall e, Decode (S f) (c :: rest) = Throw e ->
        e = URIError \/ exists rest', Decode f rest' = Throw e).
Proof.
  assert (Hthrow : forall A (P : A -> Prop) (Q : error -> Prop),
            Q URIError ->
            (forall r, @Throw A URIError = Ret r -> P r)
            /\ (forall e, @Throw A URIError = Throw e -> Q e)).
  { intros A P Q HQ. split; [discriminate | intros e [= <-]; exact HQ]. }
  assert (Hbind : forall x rest',
            (forall r, (let* r0 := Decode f rest' in Ret (x ++ r0)) = Ret r ->
               exists r1, r = x ++ r1 /\ Decode f rest' = Ret r1)
            /\ (forall e, (let* r0 := Decode f rest' in Ret (x ++ r0)) = Throw e ->
                  Decode f rest' = Throw e)).
  { intros x rest'. destruct (Decode f rest') as [r0|e0]; cbn [obind]; split;
      [intros r [= <-]; eauto | discriminate | discriminate | intros e [= <-]; auto]. }
  cbn [Decode].
  destruct (c =? 0x25).
  2: { destruct (Hbind [c] rest) as [H1 H2]. split.
       - intros r H. destruct (H1 r H) as (r1 & -> & Hr). cbn [app]. eauto.
       - intros e H. right. eexists. apply H2, H. }
  destruct rest as [|h [|l rest']]; [apply Hthrow; auto..|].
  destruct (parseHexOctet h l) as [b|]; [|apply Hthrow; auto].
  destruct (leadingOnes b) as [|[|m]]; [|apply Hthrow; auto|].
  - destruct (Hbind [b] rest') as [H1 H2]. split.
    + intros r H. destruct (H1 r H) as (r1 & -> & Hr). cbn [app]. eauto.
    + intros e H. right. eexists. apply H2, H.
  - destruct (3 <=? m)%nat; [apply Hthrow; auto|].
    destruct (continuationOctets (S m) rest') as [[bs rest'']|];
      [|apply Hthrow; auto].
    destruct (utf8CodePoint (b :: bs)) as [v|]; [|apply Hthrow; auto].
    destruct (Hbind (utf16EncodeCodePoint v) rest'') as [H1 H2]. split.
    + intros r H. destruct (H1 r H) as (r1 & -> & Hr).
      unfold utf16EncodeCodePoint. destruct (v <? 0x10000); cbn [app]; eauto.
    + intros e H. right. eexists. apply H2, H.
Qed.

Lemma Decode_nonempty f c rest r : Decode f (c :: rest) = Ret r -> r <> [].
Proof.
  destruct f as [|f]; [discriminate|]. intros H.
  destruct (proj1 (Decode_step f c rest) r H) as (x & r' & ->). discriminate.
Qed.

Lemma Decode_error f : forall s e, Decode f s = Throw e -> e = URIError.
Proof.
  induction f as [|f IH]; intros s e.
  - destruct s; [discriminate | intros [= <-]; reflexivity].
  - destruct s as [|c rest]; [discriminate|]. intros H.
    destruct (proj2 (Decode_step f c rest) e H) as [->|(rest' & H')];
      [reflexivity | eauto].
Qed.

Lemma decodeURIComponent_nonempty s r :
  s <> [] -> decodeURIComponent s = Ret r -> r <> [].
Proof. destruct s; [congruence|]. intros _. apply Decode_nonempty. Qed.

Lemma startsWith_app_true p s : startsWith (p ++ s) p = true.
Proof. induction p as [|x p IH]; cbn; [destruct s; reflexivity|]. rewrite N.eqb_refl. exact IH. Qed.

(** What [parseId] answers on an id. *)
Lemma parseId_cases (id : jsstring) :
  (forall p, parseId id = Ret (Some p) ->
     value p <> [] /\
     (source p = js "gutenberg" /\ (0x3A ∉ value p)
        /\ startsWith id (js "gutenberg:" ++ value p) = true
      \/ (source p = js "wsrc-ru" \/ source p = js "wsrc-ua") /\
         exists rest,
           startsWith id (source p ++ js ":" ++ rest) = true /\
           decodeURIComponent rest = Ret (value p)))
  /\ (forall e, parseId id = Throw e ->
        e = URIError /\
        (startsWith id (js "wsrc-ru:") = true \/ startsWith id (js "wsrc-ua:") = true))
  /\ ((0x3A ∉ id) -> parseId id = Ret None).
Proof.
  unfold parseId. destruct (truthy id); cbn [negb].
  2: { split; [discriminate|]. split; [discriminate | reflexivity]. }
  destruct (split_on 0x3A id) as [|prefix [|rest more]] eqn:Hs.
  1: { split; [discriminate|]. split; [discriminate | reflexivity]. }
  1: { split; [discriminate|]. split; [discriminate | reflexivity]. }
  destruct (split_on_two _ _ _ _ _ Hs) as (Hp & Hr & tail & ->).
  assert (Hcolon : ~ (0x3A ∉ prefix ++ 0x3A :: rest ++ tail)).
  { intros H. apply H. apply list_elem_of_In, in_elt. }
  destruct (truthy rest) eqn:Hrest; cbn [negb].
  2: { split; [discriminate|]. split; [discriminate | tauto]. }
  apply truthy_true in Hrest.
  assert (Hstart : forall pre, startsWith (pre ++ 0x3A :: rest ++ tail)
                                 (pre ++ js ":" ++ rest) = true).
  { intros pre. change (js ":") with [0x3A]. cbn [app].
    replace (pre ++ 0x3A :: rest ++ tail) with ((pre ++ 0x3A :: rest) ++ tail)
      by (rewrite <- app_assoc; reflexivity).
    apply startsWith_app_true. }
  unfold str_eqb. repeat case_bool_decide; subst.
  - split; [|split; [discriminate | tauto]]. intros p [= <-]. cbn [value source].
    split; [exact Hrest|]. left. repeat split; [exact Hr|]. apply (Hstart (js "gutenberg")).
  - destruct (decodeURIComponent rest) as [v|e0] eqn:Hd; cbn [obind].
    + split; [|split; [discriminate | tauto]]. intros p [= <-]. cbn [value source].
      split; [eapply decodeURIComponent_nonempty; eauto|]. right.
      split; [auto|]. exists rest. split; [apply Hstart | exact Hd].
    + split; [discriminate|]. split; [|tauto]. intros e [= <-].
      split; [eapply Decode_error; exact Hd|]. left.
      eapply startsWith_app_l. apply (Hstart (js "wsrc-ru")).
  - destruct (decodeURIComponent rest) as [v|e0] eqn:Hd; cbn [obind].
    + split; [|split; [discriminate | tauto]]. intros p [= <-]. cbn [value source].
      split; [eapply decodeURIComponent_nonempty; eauto|]. right.
      split; [auto|]. exists rest. split; [apply Hstart | exact Hd].
    + split; [discriminate|]. split; [|tauto]. intros e [= <-].
      split; [eapply Decode_error; exact Hd|]. right.
      eapply startsWith_app_l. apply (Hstart (js "wsrc-ua")).
  - split; [discriminate|]. split; [discriminate | tauto].
Qed.



End ParseFacts.


(** ** Arrays and encodings in the routes *)

Module RouteLemmas.
Import URI URIFacts IdFacts WikiProxy LinkFacts.


(** An encoding that succeeds has met no unpaired surrogate. *)
Lemma Encode_wellFormed unescaped n :
  (forall c, unescaped c = true -> c < 0x80) ->
  forall s e, (length s <= n)%nat -> Encode unescaped s = Ret e ->
  isWellFormed s = true.
Proof.
  intros Hun. induction n as [|n IH]; intros s e Hlen.
  { destruct s; [reflexivity | cbn in Hlen; lia]. }
  destruct s as [|c rest]; [reflexivity|]. cbn [Encode isWellFormed].
  destruct (unescaped c) eqn:Hc.
  - apply Hun in Hc.
    assert (Hl : isLowSurrogate c = false) by (unfold isLowSurrogate; bool_arith).
    assert (Hh : isHighSurrogate c = false) by (unfold isHighSurrogate; bool_arith).
    rewrite Hl, Hh. destruct (Encode unescaped rest) as [r|] eqn:Hr; [|discriminate].
    intros _. apply (IH rest r); [cbn in Hlen; lia | exact Hr].
  - destruct (isLowSurrogate c); [discriminate|].
    destruct (isHighSurrogate c).
    + destruct rest as [|d rest']; [discriminate|].
      destruct (isLowSurrogate d); [|discriminate]. cbn [andb].
      destruct (Encode unescaped rest') as [r|] eqn:Hr; [|discriminate].
      intros _. apply (IH rest' r); [cbn in Hlen; lia | exact Hr].
    + destruct (Encode unescaped rest) as [r|] eqn:Hr; [|discriminate].
      intros _. apply (IH rest r); [cbn in Hlen; lia | exact Hr].
Qed.

Lemma encodeURIComponent_wellFormed s e :
  encodeURIComponent s = Ret e -> isWellFormed s = true.
Proof.
  apply (Encode_wellFormed alwaysUnescaped (length s)); [|lia].
  intros c Hc. apply alwaysUnescaped_ascii in Hc. tauto.
Qed.

End RouteLemmas.


(** ** The routes of the proxy with the Wikisource adapters *)

Module RouteFacts.
Import URI URIFacts IdFacts WikiProxy LinkFacts ParseFacts RouteLemmas.
Import SortFacts SearchFacts WikiRoutes.

Section Search.
Variable numberToString : number -> jsstring.
Variable web : internet.


(** The comparisons of the three source tags. *)
Lemma source_tests :
  str_eqb (js "gutenberg") (js "gutenberg") = true
  /\ str_eqb (js "wsrc-ru") (js "gutenberg") = false
  /\ str_eqb (js "wsrc-ua") (js "gutenberg") = false
  /\ str_eqb (js "wsrc-ru") (js "wsrc-ru") = true
  /\ str_eqb (js "wsrc-ua") (js "wsrc-ru") = false
  /\ str_eqb (js "wsrc-ua") (js "wsrc-ua") = true
  /\ str_eqb (js "wsrc-ru") (js "wsrc-ua") = false.
Proof. vm_compute. repeat split. Qed.





End Search.



End RouteFacts.


(** ** [/download-best] in the proxy with the Wikisource adapters *)

Module DownloadFacts.
Import URI URIFacts IdFacts HeaderFacts WikiProxy LinkFacts ParseFacts RouteLemmas.
Import GutenbergFacts RouteFacts WikiRoutes.

Lemma downloadGutenberg_kind api gutenbergId f :
  downloadGutenberg api gutenbergId = Ret f ->
  (file_mime f, file_ext f) = (js "application/epub+zip", js "epub")
  \/ (file_mime f, file_ext f) = (js "text/plain; charset=utf-8", js "txt").
Proof.
  unfold downloadGutenberg.
  destruct (gutendex_book api gutenbergId) as [| |book]; [discriminate..|].
  destruct (firstCandidate _ _) as [[url mime]|] eqn:Hc; [|discriminate].
  destruct (gutendex_file api url) as [| |buffer]; [discriminate..|].
  apply firstCandidate_in, outputKind_candidates in Hc.
  destruct (outputKind mime) as [outMime ext]. intros [= <-]. exact Hc.
Qed.

Lemma downloadWikisourceSmart_kind api title log f :
  fst (downloadWikisourceSmart api title log) = Ret f ->
  (file_mime f, file_ext f) = (js "text/plain; charset=utf-8", js "txt").
Proof.
  unfold downloadWikisourceSmart, wbind.
  destruct (getWikisourcePlain api title log) as [[first|] log1]; [|discriminate].
  destruct (followLinks api 2 _ _ log1) as [[last|] log2]; [|discriminate].
  cbn [fst]. unfold resolvedFile.
  destruct (negb _ || _); [discriminate|]. intros [= <-]. reflexivity.
Qed.

Lemma Encode_error unescaped n :
  forall s e, (length s <= n)%nat -> Encode unescaped s = Throw e -> e = URIError.
Proof.
  induction n as [|n IH]; intros s e Hlen.
  { destruct s; [discriminate | cbn in Hlen; lia]. }
  destruct s as [|c rest]; [discriminate|]. cbn [Encode].
  assert (Hrest : forall r' (k : jsstring -> jsstring),
            (length r' <= n)%nat ->
            (let* r := Encode unescaped r' in Ret (k r)) = Throw e -> e = URIError).
  { intros r' k Hl. destruct (Encode unescaped r') eqn:Hr; cbn [obind];
      [discriminate|]. intros [= <-]. eapply IH; eauto. }
  destruct (unescaped c).
  { apply (Hrest rest (fun r => c :: r)). cbn in Hlen. lia. }
  destruct (isLowSurrogate c); [intros [= <-]; reflexivity|].
  destruct (isHighSurrogate c).
  - destruct rest as [|d rest']; [intros [= <-]; reflexivity|].
    destruct (isLowSurrogate d); [|intros [= <-]; reflexivity].
    apply (Hrest rest' (fun r => _ ++ r)). cbn in Hlen. lia.
  - apply (Hrest rest (fun r => _ ++ r)). cbn in Hlen. lia.
Qed.

(** What comes before a character that is not a low surrogate is well
    formed on its own. *)
Lemma isWellFormed_app_l n :
  forall s d t, (length s <= n)%nat -> isLowSurrogate d = false ->
  isWellFormed (s ++ d :: t) = true -> isWellFormed s = true.
Proof.
  induction n as [|n IH]; intros s d t Hlen Hd.
  { destruct s; [reflexivity | cbn in Hlen; lia]. }
  destruct s as [|c rest]; [reflexivity|]. cbn [app isWellFormed].
  destruct (isLowSurrogate c); [discriminate|].
  destruct (isHighSurrogate c).
  - destruct rest as [|c' rest']; cbn [app].
    + rewrite Hd. discriminate.
    + destruct (isLowSurrogate c'); cbn [andb]; [|discriminate].
      apply IH; [cbn in Hlen; lia | exact Hd].
  - apply IH; [cbn in Hlen; lia | exact Hd].
Qed.

Lemma printable_valid cd :
  Forall (fun c => isPrintableAscii c = true) cd -> validHeaderValue cd = true.
Proof.
  intros H. unfold validHeaderValue. apply forallb_forall. intros c Hin.
  rewrite Forall_forall in H. apply list_elem_of_In, H in Hin.
  unfold validHeaderChar. unfold isPrintableAscii in Hin. rewrite Hin.
  rewrite orb_true_r. reflexivity.
Qed.

Section Handler.
Variable normalizeNFKD : jsstring -> jsstring.
Variable web : internet.

Lemma sendFile_cases (f : file) :
  isCodeUnits (file_title f) = true ->
  (file_mime f, file_ext f) = (js "application/epub+zip", js "epub")
  \/ (file_mime f, file_ext f) = (js "text/plain; charset=utf-8", js "txt") ->
  if isWellFormed (file_title f)
  then exists cd,
         sendFile normalizeNFKD f
         = Sent [(js "Content-Type", file_mime f);
                 (js "Content-Disposition", cd);
                 (js "X-Content-Type-Options", js "nosniff")] (file_buffer f)
         /\ Forall (fun c => isPrintableAscii c = true) cd
  else sendFile normalizeNFKD f = Failed (Raised URIError).
Proof.
  intros Hunits Hkind. unfold sendFile.
  set (title := if truthy (file_title f) then file_title f else js "book").
  assert (Hext : fallbackChars (file_ext f) /\ validHeaderValue (file_mime f) = true
                 /\ exists e, withDot (file_ext f) = 0x2E :: e).
  { destruct Hkind as [[= -> ->]|[= -> ->]];
      (split; [repeat constructor|]; split; [reflexivity|]; eexists; reflexivity). }
  destruct Hext as (Hext & Hmime & e & Hdot).
  destruct (isWellFormed (file_title f)) eqn:Hwf.
  - assert (Htitle : title <> [] /\ wellFormed title = true).
    { subst title. destruct (file_title f) eqn:E; cbn [truthy].
      - split; [discriminate | reflexivity].
      - split; [discriminate|]. unfold wellFormed. rewrite Hunits, Hwf. reflexivity. }
    destruct (setDownloadHeaders_spec normalizeNFKD title (file_mime f) (file_ext f)
                (proj1 Htitle) (proj2 Htitle) Hext) as (h & enc & Hh & Hprint & _).
    rewrite Hh. unfold setDownloadHeaders in Hh.
    destruct (rfc5987Encode _) as [encoded|]; cbn [obind] in Hh; [|discriminate].
    injection Hh as <-.
    cbn [WikiProxy.contentType WikiProxy.contentDisposition xContentTypeOptions] in *.
    eexists. split; [|exact Hprint]. unfold send. cbn [forallb snd].
    rewrite Hmime, (printable_valid _ Hprint). reflexivity.
  - assert (Htruthy : truthy (file_title f) = true).
    { destruct (file_title f); [discriminate | reflexivity]. }
    subst title. rewrite Htruthy. unfold setDownloadHeaders, rfc5987Encode.
    rewrite Htruthy, Hdot.
    destruct (encodeURIComponent (file_title f ++ 0x2E :: e)) as [enc|err] eqn:He;
      cbn [obind].
    + apply encodeURIComponent_wellFormed in He.
      apply (isWellFormed_app_l (length (file_title f))) in He;
        [congruence | lia | reflexivity].
    + apply (Encode_error _ _ _ _ (le_n _)) in He. subst err. reflexivity.
Qed.

Lemma fetchFile_known id p :
  parseId id = Ret (Some p) -> fetchFile web p <> None.
Proof.
  intros H. destruct (parseId_cases id) as (Hsome & _).
  destruct (Hsome p H) as (_ & [(Hs & _)|([Hs|Hs] & _)]); unfold fetchFile, str_eqb;
    rewrite Hs; repeat case_bool_decide; congruence.
Qed.

Lemma fetchFile_kind p f :
  fetchFile web p = Some (Ret f) ->
  (file_mime f, file_ext f) = (js "application/epub+zip", js "epub")
  \/ (file_mime f, file_ext f) = (js "text/plain; charset=utf-8", js "txt").
Proof.
  unfold fetchFile.
  destruct (str_eqb (source p) (js "gutenberg"));
    [intros [= H]; eapply downloadGutenberg_kind; exact H|].
  destruct (str_eqb (source p) (js "wsrc-ru"));
    [intros [= H]; right; eapply downloadWikisourceSmart_kind; exact H|].
  destruct (str_eqb (source p) (js "wsrc-ua"));
    [intros [= H]; right; eapply downloadWikisourceSmart_kind; exact H|].
  discriminate.
Qed.

Lemma fetchFile_mime p f :
  fetchFile web p = Some (Ret f) ->
  file_mime f = js "application/epub+zip"
  \/ file_mime f = js "text/plain; charset=utf-8".
Proof.
  intros H. destruct (fetchFile_kind _ _ H) as [Hk|Hk]; injection Hk as Hm _;
    [left | right]; exact Hm.
Qed.

Lemma sendFile_reply f :
  (exists headers, sendFile normalizeNFKD f = Sent headers (file_buffer f) /\
     exists cd, headers = [(js "Content-Type", file_mime f);
                           (js "Content-Disposition", cd);
                           (js "X-Content-Type-Options", js "nosniff")])
  \/ (exists c, sendFile normalizeNFKD f = Failed c).
Proof.
  unfold sendFile, setDownloadHeaders.
  destruct (rfc5987Encode _) as [encoded|]; cbn [obind]; [|right; eauto].
  unfold send. destruct (forallb _ _); [|right; eauto].
  left. eexists. split; [reflexivity|]. eexists. reflexivity.
Qed.

Lemma downloadBest_cases (query_id : option jsstring) :
  let id := default [] query_id in
  (downloadBest normalizeNFKD web query_id = RefusedJson 400 (js "Missing id")
   <-> id = [])
  /\ (downloadBest normalizeNFKD web query_id = RefusedJson 400 (js "Bad id format")
      <-> id <> [] /\ parseId id = Ret None)
  /\ downloadBest normalizeNFKD web query_id <> RefusedJson 400 (js "Unknown source")
  /\ (forall headers body,
        downloadBest normalizeNFKD web query_id = Sent headers body ->
        exists p f cd,
          parseId id = Ret (Some p) /\ fetchFile web p = Some (Ret f) /\
          body = file_buffer f /\
          headers = [(js "Content-Type", file_mime f);
                     (js "Content-Disposition", cd);
                     (js "X-Content-Type-Options", js "nosniff")] /\
          (file_mime f = js "application/epub+zip"
           \/ file_mime f = js "text/plain; charset=utf-8")).
Proof.
  intros id. unfold downloadBest. fold id.
  assert (Hiff : forall (r r' : reply) (P : Prop), r <> r' -> ~ P -> (r = r' <-> P))
    by (intros; tauto).
  destruct id as [|c id'] eqn:Hid; cbn [truthy negb].
  { split; [tauto|]. split; [apply Hiff; [discriminate | tauto]|].
    split; discriminate. }
  set (i := c :: id'). assert (Hne : i <> []) by discriminate.
  split; [apply Hiff; [|exact Hne]|].
  { destruct (parseId i) as [[p|]|e]; try discriminate.
    destruct (fetchFile web p) as [[f|e]|]; try discriminate.
    destruct (sendFile_reply f) as [(headers & -> & _)|(c0 & ->)]; discriminate. }
  destruct (parseId i) as [[p|]|e] eqn:Hp.
  2: { split; [tauto|]. split; discriminate. }
  2: { split; [apply Hiff; [discriminate | intros [_ ?]; discriminate]|].
       split; discriminate. }
  pose proof (fetchFile_known _ _ Hp) as Hknown.
  destruct (fetchFile web p) as [[f|e]|] eqn:Hf; [| |congruence].
  2: { split; [apply Hiff; [discriminate | intros [_ ?]; discriminate]|].
       split; discriminate. }
  destruct (sendFile_reply f) as [(headers & Hs & cd & Hh)|(c0 & Hs)]; rewrite Hs.
  - split; [apply Hiff; [discriminate | intros [_ ?]; discriminate]|].
    split; [discriminate|].
    intros headers' body [= <- <-]. exists p, f, cd.
    split; [first [reflexivity | exact Hp]|].
    split; [first [reflexivity | exact Hf]|]. split; [reflexivity|].
    split; [exact Hh|].
    exact (fetchFile_mime _ _ Hf).
  - split; [apply Hiff; [discriminate | intros [_ ?]; discriminate]|].
    split; discriminate.
Qed.

End Handler.

(** X6.  [/download-best] answers 400 "Missing id" exactly when the id is
    missing or empty, and 400 "Bad id format" exactly when [parseId] refuses
    the id; it never answers "Unknown source".  A file that is sent is the
    buffer of the adapter of the parsed id, declared as EPUB or as UTF-8 plain
    text, with the three download headers. *)
Theorem downloadBest_outcomes
    (normalizeNFKD : jsstring -> jsstring) (web : internet)
    (query_id : option jsstring) :
  let id := default [] query_id in
  (downloadBest normalizeNFKD web query_id = RefusedJson 400 (js "Missing id")
   <-> id = [])
  /\ (downloadBest normalizeNFKD web query_id = RefusedJson 400 (js "Bad id format")
      <-> id <> [] /\ parseId id = Ret None)
  /\ downloadBest normalizeNFKD web query_id <> RefusedJson 400 (js "Unknown source")
  /\ (forall headers body,
        downloadBest normalizeNFKD web query_id = Sent headers body ->
        exists p f cd,
          parseId id = Ret (Some p) /\ fetchFile web p = Some (Ret f) /\
          body = file_buffer f /\
          headers = [(js "Content-Type", file_mime f);
                     (js "Content-Disposition", cd);
                     (js "X-Content-Type-Options", js "nosniff")] /\
          (file_mime f = js "application/epub+zip"
           \/ file_mime f = js "text/plain; charset=utf-8")).
Proof. exact (downloadBest_cases normalizeNFKD web query_id). Qed.

(** X7.  For a file that the adapters deliver as EPUB or as plain text, with
    a title of 16-bit code units, the headers of [/download-best] never make
    Node refuse a header value: the file is sent with a Content-Type, a
    printable ASCII Content-Disposition and [nosniff], unless the title holds
    an unpaired surrogate, in which case the answer is the URI error. *)
Theorem sendFile_headers_accepted
    (normalizeNFKD : jsstring -> jsstring) (f : file) :
  isCodeUnits (file_title f) = true ->
  (file_mime f, file_ext f) = (js "application/epub+zip", js "epub")
  \/ (file_mime f, file_ext f) = (js "text/plain; charset=utf-8", js "txt") ->
  sendFile normalizeNFKD f <> Failed InvalidHeaderChar
  /\ if isWellFormed (file_title f)
     then exists cd,
            sendFile normalizeNFKD f
            = Sent [(js "Content-Type", file_mime f);
                    (js "Content-Disposition", cd);
                    (js "X-Content-Type-Options", js "nosniff")] (file_buffer f)
            /\ Forall (fun c => isPrintableAscii c = true) cd
     else sendFile normalizeNFKD f = Failed (Raised URIError).
Proof.
  intros Hunits Hkind. pose proof (sendFile_cases normalizeNFKD f Hunits Hkind) as H.
  split; [|exact H].
  destruct (isWellFormed (file_title f)); [destruct H as (cd & -> & _)|rewrite H];
    discriminate.
Qed.

Lemma sendFile_headers_accepted_witness :
  let f := Fixtures.novelFile in
  isCodeUnits (file_title f) = true
  /\ (file_mime f, file_ext f) = (js "text/plain; charset=utf-8", js "txt")
  /\ sendFile Samples.nfkdRussian f <> Failed InvalidHeaderChar
  /\ if isWellFormed (file_title f)
     then exists cd,
            sendFile Samples.nfkdRussian f
            = Sent [(js "Content-Type", file_mime f);
                    (js "Content-Disposition", cd);
                    (js "X-Content-Type-Options", js "nosniff")] (file_buffer f)
            /\ Forall (fun c => isPrintableAscii c = true) cd
     else sendFile Samples.nfkdRussian f = Failed (Raised URIError).
Proof.
  intros f.
  assert (H1 : isCodeUnits (file_title f) = true) by (vm_compute; reflexivity).
  assert (H2 : (file_mime f, file_ext f) = (js "text/plain; charset=utf-8", js "txt"))
    by (vm_compute; reflexivity).
  split; [exact H1|]. split; [exact H2|].
  exact (sendFile_headers_accepted Samples.nfkdRussian f H1 (or_intror H2)).
Defined.

(** X9.  An id that [/search] hands out leads [/download-best] to the
    adapter of its source: a Wikisource id to the smart download of the page
    of that title on the site of that language, a Gutenberg id to the
    download of the book of that id, when the id of the book is not empty
    and holds no colon.  The answer is the file of the adapter with the
    download headers, or the error of the adapter. *)
Theorem downloadBest_of_search_id
    (normalizeNFKD : jsstring -> jsstring) (web : internet) :
  (forall tag title id,
     tag = js "wsrc-ru" \/ tag = js "wsrc-ua" ->
     title <> [] -> wellFormed title = true ->
     makeId tag title = Ret id ->
     downloadBest normalizeNFKD web (Some id)
     = match fst (downloadWikisourceSmart
                    (web_wikisource web
                       (if str_eqb tag (js "wsrc-ua") then WS_UA else WS_RU))
                    title []) with
       | Ret f => sendFile normalizeNFKD f
       | Throw e => Failed (Raised e)
       end)
  /\ (forall n,
        n <> [] -> 0x3A ∉ n ->
        downloadBest normalizeNFKD web (Some (js "gutenberg:" ++ n))
        = match downloadGutenberg (web_gutendex web) n with
          | Ret f => sendFile normalizeNFKD f
          | Throw e => Failed (Raised e)
          end).
Proof.
  assert (Hrun : forall id p,
            parseId id = Ret (Some p) ->
            downloadBest normalizeNFKD web (Some id)
            = match fetchFile web p with
              | None => RefusedJson 400 (js "Unknown source")
              | Some (Throw e) => Failed (Raised e)
              | Some (Ret f) => sendFile normalizeNFKD f
              end).
  { intros id p Hp. unfold downloadBest. cbn [default from_option Datatypes.id].
    destruct id; [discriminate|]. cbn [truthy negb Datatypes.id]. rewrite Hp. reflexivity. }
  split.
  - intros tag title id Htag Hne Hwf Hid.
    destruct (parseId_makeId tag title Hne) as (id' & Hid' & Hparse); [left; auto|].
    assert (id' = id) by congruence. subst id'.
    rewrite (Hrun _ _ Hparse). unfold fetchFile. cbn [source value].
    destruct source_tests as (_ & H1 & H2 & H3 & H4 & H5 & H6).
    destruct Htag as [-> | ->].
    + rewrite H1, H3, H6. reflexivity.
    + rewrite H2, H4, H5. reflexivity.
  - intros n Hne Hcolon.
    destruct (parseId_makeId (js "gutenberg") n Hne) as (id' & Hid' & Hparse).
    { right. split; [reflexivity | exact Hcolon]. }
    assert (Hmake : makeId (js "gutenberg") n = Ret (js "gutenberg:" ++ n)).
    { unfold makeId. rewrite (proj1 source_tests). reflexivity. }
    assert (id' = js "gutenberg:" ++ n) by congruence. subst id'.
    rewrite (Hrun _ _ Hparse). unfold fetchFile. cbn [source value].
    rewrite (proj1 source_tests). reflexivity.
Qed.

End DownloadFacts.


(** ** File names and ids of the host with the OPDS parser *)

Module NameFacts.
Import URI URIFacts IdFacts HeaderFacts Buffer OpdsHost Base64Facts TrimFacts.
Import OpdsRoutes.

Lemma replaceRuns_class (Q P : N -> Prop) inClass r b s :
  Forall Q s -> (forall c, Q c -> inClass c = false -> P c) -> Forall P r ->
  Forall P (replaceRuns inClass r b s).
Proof.
  intros Hs HP Hr. revert b. induction Hs as [|c s Hc _ IH]; intros b;
    cbn [replaceRuns]; [constructor|].
  destruct (inClass c) eqn:E.
  - apply Forall_app. split; [destruct b; [constructor | exact Hr] | apply IH].
  - constructor; [apply HP; assumption | apply IH].
Qed.

Lemma replaceRuns_nonempty inClass r s :
  s <> [] -> r <> [] -> replaceRuns inClass r false s <> [].
Proof.
  destruct s as [|c s]; [congruence|]. intros _ Hr. cbn [replaceRuns].
  destruct (inClass c); [|discriminate].
  destruct r; [congruence | discriminate].
Qed.

Lemma take_Forall {A} (P : A -> Prop) n l : Forall P l -> Forall P (take n l).
Proof. apply Forall_take. Qed.

Lemma map_Forall {A B} (P : B -> Prop) (f : A -> B) l :
  (forall x, P (f x)) -> Forall P (map f l).
Proof. intros H. induction l; constructor; auto. Qed.

Lemma printable_not_space c :
  (0x20 <=? c) && (c <=? 0x7E) = true -> isWhiteSpace c = false -> 0x21 <= c <= 0x7E.
Proof.
  intros Hp Hw. apply andb_true_iff in Hp as [H1 H2].
  apply N.leb_le in H1, H2.
  assert (c <> 0x20); [|lia]. intros ->. discriminate.
Qed.

Section Names.
Variable normalizeNFKD : jsstring -> jsstring.

(** The name before the last replacement: not empty and printable. *)
Lemma safeFilename_chars name :
  safeFilename normalizeNFKD name <> [] /\
  Forall (fun c => 0x21 <= c <= 0x7E) (safeFilename normalizeNFKD name).
Proof.
  unfold safeFilename.
  set (ascii := trim (List.filter _ (normalizeNFKD _))).
  assert (Hascii : Forall (fun c => (0x20 <=? c) && (c <=? 0x7E) = true) ascii).
  { apply trim_Forall, filter_Forall. }
  set (final := if truthy ascii then ascii else js "book").
  assert (Hfinal : final <> [] /\
            Forall (fun c => (0x20 <=? c) && (c <=? 0x7E) = true) final).
  { subst final. destruct ascii as [|c rest] eqn:E; cbn [truthy].
    - split; [discriminate | repeat constructor].
    - split; [discriminate | exact Hascii]. }
  split.
  - apply replaceRuns_nonempty; [apply Hfinal | discriminate].
  - eapply replaceRuns_class; [apply Hfinal | apply printable_not_space|].
    repeat constructor; discriminate.
Qed.

(** On an ASCII title that normalisation leaves alone, no replaced
    character comes back. *)
Lemma safeFilename_ascii name :
  (forall s, Forall (fun c => c < 0x80) s -> normalizeNFKD s = s) ->
  Forall (fun c => c < 0x80) name ->
  Forall (fun c => isReplacedChar c = false) (safeFilename normalizeNFKD name).
Proof.
  intros Hnfkd Hname. unfold safeFilename.
  set (P := fun c => c < 0x80 /\ isReplacedChar c = false).
  set (s0 := if truthy name then name else js "book").
  assert (H0 : Forall (fun c => c < 0x80) s0).
  { subst s0. destruct (truthy name); [exact Hname | repeat constructor]. }
  set (s1 := map (fun c => if isReplacedChar c then 0x20 else c) s0).
  assert (H1 : Forall P s1).
  { subst s1. induction H0 as [|c s Hc _ IH]; cbn [map]; constructor; [|exact IH].
    destruct (isReplacedChar c) eqn:E; split; auto; reflexivity. }
  set (base := take 120 (trim (replaceRuns isWhiteSpace (js " ") false s1))).
  assert (Hbase : Forall P base).
  { apply take_Forall, trim_Forall, replaceRuns_Forall; [exact H1|].
    repeat constructor. }
  rewrite Hnfkd by (eapply Forall_impl; [exact Hbase | intros c [? _]; assumption]).
  set (ascii := trim (List.filter _ base)).
  assert (Hascii : Forall P ascii).
  { apply trim_Forall. clear -Hbase. induction Hbase as [|c s Hc _ IH];
      cbn [List.filter]; [constructor|].
    destruct ((0x20 <=? c) && (c <=? 0x7E)); [constructor|]; assumption. }
  eapply Forall_impl with (P := P); [|intros c [_ ?]; assumption].
  apply replaceRuns_Forall; [|repeat constructor].
  destruct (truthy ascii); [exact Hascii | repeat constructor].
Qed.

End Names.

(** X10.  [safeFilename] always returns a name that is not empty and is
    made of the printable ASCII characters other than the space, whatever
    the title and its normalisation.  When the title is ASCII (which
    normalisation leaves alone), the name holds none of the characters that
    the first replacement takes out, the double quote among them. *)
Theorem safeFilename_printable (normalizeNFKD : jsstring -> jsstring) (name : jsstring) :
  safeFilename normalizeNFKD name <> []
  /\ Forall (fun c => 0x21 <= c <= 0x7E) (safeFilename normalizeNFKD name)
  /\ ((forall s, Forall (fun c => c < 0x80) s -> normalizeNFKD s = s) ->
      Forall (fun c => c < 0x80) name ->
      Forall (fun c => isReplacedChar c = false) (safeFilename normalizeNFKD name)).
Proof.
  split; [apply safeFilename_chars|]. split; [apply safeFilename_chars|].
  apply safeFilename_ascii.
Qed.

(** The bytes of a string of code units. *)
Lemma buffer_from_utf8_bytes n :
  forall s, (length s <= n)%nat -> isCodeUnits s = true ->
  Forall isByte (buffer_from_utf8 s).
Proof.
  induction n as [|n IH]; intros s Hlen Hs.
  { destruct s; [constructor | cbn in Hlen; lia]. }
  destruct s as [|c rest]; [constructor|].
  cbn [isCodeUnits forallb] in Hs. apply andb_true_iff in Hs as [Hc Hrest].
  apply N.ltb_lt in Hc. cbn [buffer_from_utf8].
  assert (Hfffd : Forall isByte [0xEF; 0xBF; 0xBD])
    by (repeat constructor; reflexivity).
  assert (IHrest : Forall isByte (buffer_from_utf8 rest))
    by (apply IH; [cbn in Hlen; lia | exact Hrest]).
  destruct (isHighSurrogate c) eqn:Hh.
  - destruct rest as [|d rest']; [exact Hfffd|].
    destruct (isLowSurrogate d) eqn:Hl.
    + apply Forall_app. split.
      * apply utf8Octets_bounded.
        destruct (surrogate_pair_scalar c d Hh Hl) as [[Hcp _] _]. exact Hcp.
      * cbn [isCodeUnits forallb] in Hrest. apply andb_true_iff in Hrest as [_ Hrest'].
        apply IH; [cbn in Hlen; lia | exact Hrest'].
    + apply Forall_app. split; [exact Hfffd | exact IHrest].
  - destruct (isLowSurrogate c).
    + apply Forall_app. split; [exact Hfffd | exact IHrest].
    + apply Forall_app. split; [apply utf8Octets_bounded; lia | exact IHrest].
Qed.

Lemma urlChar_safe v :
  isSextet v -> isAsciiWord (urlChar v) = true \/ urlChar v = 0x2D.
Proof.
  intros Hv. unfold isSextet in Hv.
  assert (Hall : forallb (fun v => isAsciiWord (urlChar v) || (urlChar v =? 0x2D))
                   (map N.of_nat (seq 0 64)) = true) by (vm_compute; reflexivity).
  rewrite forallb_forall in Hall.
  assert (Hin : In v (map N.of_nat (seq 0 64))).
  { rewrite <- (N2Nat.id v). apply in_map, in_seq. lia. }
  apply Hall, orb_true_iff in Hin. rewrite N.eqb_eq in Hin. exact Hin.
Qed.

Lemma length_bytesSextets_div bytes :
  length (bytesSextets bytes) = ((4 * length bytes + 2) / 3)%nat.
Proof.
  induction bytes as [| a | a b | a b c rest IH] using list_ind3; try reflexivity.
  cbn [bytesSextets app length]. rewrite IH.
  replace (4 * S (S (S (length rest))) + 2)%nat
    with ((4 * length rest + 2) + 4 * 3)%nat by lia.
  rewrite Nat.div_add by lia. lia.
Qed.

Lemma toB64Url_chars str :
  isCodeUnits str = true ->
  Forall (fun c => isAsciiWord c = true \/ c = 0x2D) (toB64Url str)
  /\ length (toB64Url str) = ((4 * length (buffer_from_utf8 str) + 2) / 3)%nat.
Proof.
  intros Hs.
  pose proof (buffer_from_utf8_bytes _ _ (le_n _) Hs) as Hbytes.
  rewrite (toB64Url_sextets _ Hbytes). split.
  - apply Forall_forall. intros c Hin.
    apply list_elem_of_fmap in Hin as (v & -> & Hv).
    apply urlChar_safe.
    pose proof (bytesSextets_bounded _ Hbytes) as Hb.
    rewrite Forall_forall in Hb. apply Hb, Hv.
  - rewrite length_map. apply length_bytesSextets_div.
Qed.

(** X11.  The payload of a Standard Ebooks id is safe in a URL: for a
    string of 16-bit code units, [toB64Url] returns only letters, digits,
    the hyphen and the underscore, without padding, four characters for
    every three bytes of the UTF-8 form, rounded up. *)
Theorem toB64Url_urlsafe (str : jsstring) :
  isCodeUnits str = true ->
  Forall (fun c => isAsciiWord c = true \/ c = 0x2D) (toB64Url str)
  /\ length (toB64Url str) = ((4 * length (buffer_from_utf8 str) + 2) / 3)%nat.
Proof. exact (toB64Url_chars str). Qed.

Lemma toB64Url_urlsafe_witness :
  let str := js "https://standardebooks.org/ebooks/лев-толстой?>>" in
  isCodeUnits str = true
  /\ Forall (fun c => isAsciiWord c = true \/ c = 0x2D) (toB64Url str)
  /\ length (toB64Url str) = ((4 * length (buffer_from_utf8 str) + 2) / 3)%nat.
Proof.
  intros str.
  assert (H : isCodeUnits str = true) by (vm_compute; reflexivity).
  split; [exact H | exact (toB64Url_urlsafe str H)].
Defined.

End NameFacts.


(** ** The Gutenberg download of the host with the OPDS parser *)

Module OpdsFacts.
Import URI URIFacts IdFacts HeaderFacts OpdsHost GutenbergFacts NameFacts.
Import OpdsRoutes.

Lemma matchesAt_i_app p x : RegExp.matchesAt_i p (p ++ x) = Some x.
Proof.
  induction p as [|c p IH]; [destruct x; reflexivity|].
  cbn [app RegExp.matchesAt_i]. rewrite N.eqb_refl. exact IH.
Qed.

(** [format] follows [usable]. *)
Lemma format_Some formats key url :
  format formats key = Some url <-> formats !! key = Some url /\ truthy url = true.
Proof.
  unfold format. destruct (formats !! key) as [u|]; [|split; [discriminate | intros [? _]; discriminate]].
  destruct (truthy u) eqn:E; split.
  - intros [= <-]. auto.
  - intros [[= <-] _]. reflexivity.
  - discriminate.
  - intros [[= <-] ?]. congruence.
Qed.

Lemma format_None formats key : format formats key = None <-> ~ usable formats key.
Proof.
  unfold usable. split.
  - intros H (url & Hl & Ht). assert (format formats key = Some url) by (apply format_Some; auto).
    congruence.
  - intros H. destruct (format formats key) as [url|] eqn:E; [|reflexivity].
    apply format_Some in E. exfalso. apply H. exists url. exact E.
Qed.

Lemma format_truthy formats key url :
  format formats key = Some url -> truthyValue (Some url) = true.
Proof. intros H. apply format_Some in H. apply H. Qed.

(** The chain [formats[k1] || formats[k2] || formats[k3] || null]. *)
Lemma plainFormat_Some formats url :
  plainFormat formats = Some url <->
  exists mime before after,
    [js "text/plain; charset=utf-8"; js "text/plain; charset=us-ascii"; js "text/plain"]
    = before ++ mime :: after /\
    Forall (fun c => ~ usable formats c) before /\
    formats !! mime = Some url /\ truthy url = true.
Proof.
  unfold plainFormat, orElse.
  set (k1 := js "text/plain; charset=utf-8").
  set (k2 := js "text/plain; charset=us-ascii").
  set (k3 := js "text/plain").
  destruct (format formats k1) as [u1|] eqn:E1.
  { rewrite (format_truthy _ _ _ E1). apply format_Some in E1. split.
    - intros [= <-]. exists k1, [], [k2; k3]. split; [reflexivity|]. split; [constructor | exact E1].
    - intros (mime & before & after & Hl & Hb & Hm & Ht).
      destruct before as [|b0 before].
      + injection Hl as <- _. destruct E1 as [E1 _]. congruence.
      + injection Hl as <- _. inversion Hb as [|? ? Hn _]; subst.
        exfalso. apply Hn. exists u1. exact E1. }
  cbn [truthyValue]. apply format_None in E1.
  destruct (format formats k2) as [u2|] eqn:E2.
  { rewrite (format_truthy _ _ _ E2). apply format_Some in E2. split.
    - intros [= <-]. exists k2, [k1], [k3]. split; [reflexivity|].
      split; [repeat constructor; exact E1 | exact E2].
    - intros (mime & before & after & Hl & Hb & Hm & Ht).
      destruct before as [|b0 [|b1 before]].
      + injection Hl as <- _. exfalso. apply E1. exists url. auto.
      + injection Hl as _ <- _. destruct E2 as [E2 _]. congruence.
      + injection Hl as _ <- _. inversion Hb as [|? ? _ Hb']; subst.
        inversion Hb' as [|? ? Hn _]; subst. exfalso. apply Hn. exists u2. exact E2. }
  cbn [truthyValue]. apply format_None in E2. rewrite format_Some. split.
  - intros H. exists k3, [k1; k2], []. split; [reflexivity|].
    split; [repeat constructor; assumption | exact H].
  - intros (mime & before & after & Hl & Hb & Hm & Ht).
    destruct before as [|b0 [|b1 [|b2 before]]].
    + injection Hl as <- _. exfalso. apply E1. exists url. auto.
    + injection Hl as _ <- _. exfalso. apply E2. exists url. auto.
    + injection Hl as _ _ <- _. auto.
    + injection Hl as _ _ _ Hl. destruct before; discriminate.
Qed.

Lemma plainFormat_None formats :
  plainFormat formats = None <->
  Forall (fun c => ~ usable formats c)
    [js "text/plain; charset=utf-8"; js "text/plain; charset=us-ascii"; js "text/plain"].
Proof.
  split.
  - intros H. unfold plainFormat, orElse in H.
    destruct (format formats (js "text/plain; charset=utf-8")) as [u1|] eqn:E1.
    { rewrite (format_truthy _ _ _ E1) in H. discriminate. }
    cbn [truthyValue] in H.
    destruct (format formats (js "text/plain; charset=us-ascii")) as [u2|] eqn:E2.
    { rewrite (format_truthy _ _ _ E2) in H. discriminate. }
    cbn [truthyValue] in H.
    repeat constructor; apply format_None; assumption.
  - intros H. destruct (plainFormat formats) as [u|] eqn:E; [|reflexivity].
    apply plainFormat_Some in E as (mime & before & after & Hl & _ & Hm & Ht).
    assert (Hin : mime ∈ [js "text/plain; charset=utf-8";
                          js "text/plain; charset=us-ascii"; js "text/plain"])
      by (rewrite Hl; apply list_elem_of_In, in_elt).
    rewrite Forall_forall in H. exfalso. apply (H _ Hin). exists u. auto.
Qed.

Lemma Encode_unescaped unescaped s :
  Forall (fun c => unescaped c = true) s -> Encode unescaped s = Ret s.
Proof.
  induction 1 as [|c s Hc _ IH]; [reflexivity|].
  cbn [Encode]. rewrite Hc, IH. reflexivity.
Qed.

Section Download.
Variable normalizeNFKD : jsstring -> jsstring.
Variable web : internet.

(** The download once the book has arrived. *)
Lemma gutenbergDownloadBest_book idStr e b :
  encodeURIComponent (stripPrefix_i (js "gutenberg:") idStr) = Ret e ->
  web_book web (js "https://gutendex.com/books/" ++ e) = Ok b ->
  gutenbergDownloadBest normalizeNFKD web idStr
  = let title := if truthy (b_title b) then b_title b else js "book" in
    match plainFormat (b_formats b), epubFormat (b_formats b) with
    | Some url, _ =>
      Done {| pick_url := url;
              pick_filename := safeFilename normalizeNFKD title ++ js ".txt";
              pick_mime := js "text/plain; charset=utf-8" |}
    | None, Some url =>
      Done {| pick_url := url;
              pick_filename := safeFilename normalizeNFKD title ++ js ".epub";
              pick_mime := js "application/epub+zip" |}
    | None, None => Fault (Raised NoReadableFormat)
    end.
Proof.
  intros He Hb. unfold gutenbergDownloadBest. rewrite He, Hb. reflexivity.
Qed.

Lemma gutenbergDownloadBest_choice idStr e b :
  encodeURIComponent (stripPrefix_i (js "gutenberg:") idStr) = Ret e ->
  web_book web (js "https://gutendex.com/books/" ++ e) = Ok b ->
  let title := if truthy (b_title b) then b_title b else js "book" in
  let plainKeys := [js "text/plain; charset=utf-8"; js "text/plain; charset=us-ascii";
                    js "text/plain"] in
  (forall mime url,
     firstUsable (b_formats b) plainKeys mime url ->
     gutenbergDownloadBest normalizeNFKD web idStr
     = Done {| pick_url := url;
               pick_filename := safeFilename normalizeNFKD title ++ js ".txt";
               pick_mime := js "text/plain; charset=utf-8" |})
  /\ (forall url,
        Forall (fun c => ~ usable (b_formats b) c) plainKeys ->
        b_formats b !! js "application/epub+zip" = Some url -> truthy url = true ->
        gutenbergDownloadBest normalizeNFKD web idStr
        = Done {| pick_url := url;
                  pick_filename := safeFilename normalizeNFKD title ++ js ".epub";
                  pick_mime := js "application/epub+zip" |})
  /\ (gutenbergDownloadBest normalizeNFKD web idStr = Fault (Raised NoReadableFormat)
      <-> Forall (fun c => ~ usable (b_formats b) c)
            (plainKeys ++ [js "application/epub+zip"])).
Proof.
  intros He Hb title plainKeys.
  rewrite (gutenbergDownloadBest_book _ _ _ He Hb). cbv zeta. fold title.
  split; [|split].
  - intros mime url Hfirst.
    assert (Hplain : plainFormat (b_formats b) = Some url).
    { apply plainFormat_Some. exists mime. exact Hfirst. }
    rewrite Hplain. reflexivity.
  - intros url Hnone Hurl Ht. apply plainFormat_None in Hnone. rewrite Hnone.
    assert (Hepub : epubFormat (b_formats b) = Some url).
    { apply format_Some. split; assumption. }
    rewrite Hepub. reflexivity.
  - destruct (plainFormat (b_formats b)) as [u|] eqn:Hplain.
    + split; [discriminate|]. intros H. apply Forall_app in H as [H _].
      apply plainFormat_None in H. congruence.
    + pose proof (proj1 (plainFormat_None _) Hplain) as Hnone.
      unfold epubFormat. destruct (format (b_formats b) _) as [u|] eqn:Hepub.
      * split; [discriminate|]. intros H. apply Forall_app in H as [_ H].
        inversion H as [|? ? Hn _]; subst. apply format_None in Hn. congruence.
      * split; [intros _|reflexivity].
        apply Forall_app. split; [exact Hnone|]. repeat constructor.
        apply format_None, Hepub.
Qed.

(** The formats of the search result of a book against its download. *)
Lemma gutenbergItem_download e b :
  encodeURIComponent (b_id b) = Ret e ->
  web_book web (js "https://gutendex.com/books/" ++ e) = Ok b ->
  match item_formats (gutenbergItem b) with
  | [] =>
    gutenbergDownloadBest normalizeNFKD web (item_id (gutenbergItem b))
    = Fault (Raised NoReadableFormat)
  | fmt :: _ =>
    exists p,
      gutenbergDownloadBest normalizeNFKD web (item_id (gutenbergItem b)) = Done p /\
      (fmt = js "text/plain" /\ pick_mime p = js "text/plain; charset=utf-8"
       \/ fmt = js "application/epub+zip" /\ pick_mime p = js "application/epub+zip")
  end.
Proof.
  intros Hid Hb.
  assert (He : encodeURIComponent
                 (stripPrefix_i (js "gutenberg:") (item_id (gutenbergItem b)))
               = Ret e).
  { cbn [gutenbergItem item_id]. unfold stripPrefix_i. rewrite matchesAt_i_app.
    exact Hid. }
  rewrite (gutenbergDownloadBest_book _ _ _ He Hb). cbv zeta.
  cbn [gutenbergItem item_formats].
  destruct (plainFormat (b_formats b)) as [u|] eqn:Hplain.
  - assert (Ht : truthyValue (Some u) = true).
    { apply plainFormat_Some in Hplain as (? & ? & ? & _ & _ & _ & Ht). exact Ht. }
    rewrite Ht. cbn [app]. eexists. split; [reflexivity|]. left. split; reflexivity.
  - cbn [truthyValue app]. unfold epubFormat.
    destruct (format (b_formats b) _) as [u|] eqn:Hepub.
    + rewrite (format_truthy _ _ _ Hepub). eexists. split; [reflexivity|].
      right. split; reflexivity.
    + reflexivity.
Qed.

End Download.

(** X12.  In the host with the OPDS parser, the download of a Gutenberg
    book prefers plain text to EPUB, once Gutendex has answered with the
    book: it picks the URL of the first usable entry among UTF-8 text,
    US-ASCII text and unlabelled text, as UTF-8 plain text, and the EPUB
    only when none of them is usable.  The file is named after the
    sanitized title with the matching extension, and the download fails for
    lack of a format exactly when none of the four entries is usable. *)
Theorem gutenbergDownloadBest_plain_first
    (normalizeNFKD : jsstring -> jsstring) (web : internet)
    (idStr e : jsstring) (b : gutendexBook) :
  encodeURIComponent (stripPrefix_i (js "gutenberg:") idStr) = Ret e ->
  web_book web (js "https://gutendex.com/books/" ++ e) = Ok b ->
  let title := if truthy (b_title b) then b_title b else js "book" in
  let plainKeys := [js "text/plain; charset=utf-8"; js "text/plain; charset=us-ascii";
                    js "text/plain"] in
  (forall mime url,
     firstUsable (b_formats b) plainKeys mime url ->
     gutenbergDownloadBest normalizeNFKD web idStr
     = Done {| pick_url := url;
               pick_filename := safeFilename normalizeNFKD title ++ js ".txt";
               pick_mime := js "text/plain; charset=utf-8" |})
  /\ (forall url,
        Forall (fun c => ~ usable (b_formats b) c) plainKeys ->
        b_formats b !! js "application/epub+zip" = Some url -> truthy url = true ->
        gutenbergDownloadBest normalizeNFKD web idStr
        = Done {| pick_url := url;
                  pick_filename := safeFilename normalizeNFKD title ++ js ".epub";
                  pick_mime := js "application/epub+zip" |})
  /\ (gutenbergDownloadBest normalizeNFKD web idStr = Fault (Raised NoReadableFormat)
      <-> Forall (fun c => ~ usable (b_formats b) c)
            (plainKeys ++ [js "application/epub+zip"])).
Proof. exact (gutenbergDownloadBest_choice normalizeNFKD web idStr e b). Qed.

(** X13.  The formats that a Gutenberg search result lists tell what
    [/download-best] delivers for its id, as long as Gutendex serves the same
    book under that id: the first format of the list is the one of the
    file, and a result with an empty list cannot be downloaded. *)
Theorem search_formats_match_download
    (normalizeNFKD : jsstring -> jsstring) (web : internet)
    (e : jsstring) (b : gutendexBook) :
  encodeURIComponent (b_id b) = Ret e ->
  web_book web (js "https://gutendex.com/books/" ++ e) = Ok b ->
  match item_formats (gutenbergItem b) with
  | [] =>
    gutenbergDownloadBest normalizeNFKD web (item_id (gutenbergItem b))
    = Fault (Raised NoReadableFormat)
  | fmt :: _ =>
    exists p,
      gutenbergDownloadBest normalizeNFKD web (item_id (gutenbergItem b)) = Done p /\
      (fmt = js "text/plain" /\ pick_mime p = js "text/plain; charset=utf-8"
       \/ fmt = js "application/epub+zip" /\ pick_mime p = js "application/epub+zip")
  end.
Proof. exact (gutenbergItem_download normalizeNFKD web e b). Qed.

Lemma gutenbergDownloadBest_plain_first_witness :
  let web := OpdsFixtures.library in
  let b := OpdsFixtures.emma in
  let url := js "https://example.org/1.txt" in
  encodeURIComponent (stripPrefix_i (js "gutenberg:") (js "GUTENBERG:158")) = Ret (js "158")
  /\ web_book web (js "https://gutendex.com/books/" ++ js "158") = Ok b
  /\ firstUsable (b_formats b)
       [js "text/plain; charset=utf-8"; js "text/plain; charset=us-ascii";
        js "text/plain"]
       (js "text/plain; charset=us-ascii") url
  /\ gutenbergDownloadBest Samples.nfkdRussian web (js "GUTENBERG:158")
     = Done {| pick_url := url;
               pick_filename :=
                 safeFilename Samples.nfkdRussian (js "Emma: a novel") ++ js ".txt";
               pick_mime := js "text/plain; charset=utf-8" |}
  /\ safeFilename Samples.nfkdRussian (js "Emma: a novel") = js "Emma_a_novel".
Proof.
  intros web b url.
  assert (H1 : encodeURIComponent (stripPrefix_i (js "gutenberg:") (js "GUTENBERG:158"))
               = Ret (js "158")) by (vm_compute; reflexivity).
  assert (H2 : web_book web (js "https://gutendex.com/books/" ++ js "158") = Ok b)
    by (vm_compute; reflexivity).
  assert (H3 : firstUsable (b_formats b)
                 [js "text/plain; charset=utf-8"; js "text/plain; charset=us-ascii";
                  js "text/plain"]
                 (js "text/plain; charset=us-ascii") url).
  { exists [js "text/plain; charset=utf-8"], [js "text/plain"].
    split; [reflexivity|]. split; [|split; vm_compute; reflexivity].
    repeat constructor. intros (u & Hu & _). vm_compute in Hu. discriminate. }
  split; [exact H1|]. split; [exact H2|]. split; [exact H3|].
  split; [|vm_compute; reflexivity].
  exact (proj1 (gutenbergDownloadBest_plain_first Samples.nfkdRussian web
                  (js "GUTENBERG:158") (js "158") b H1 H2)
           (js "text/plain; charset=us-ascii") url H3).
Defined.

Lemma search_formats_match_download_witness :
  let web := OpdsFixtures.library in
  let b := OpdsFixtures.emma in
  encodeURIComponent (b_id b) = Ret (js "158")
  /\ web_book web (js "https://gutendex.com/books/" ++ js "158") = Ok b
  /\ item_formats (gutenbergItem b) = [js "text/plain"; js "application/epub+zip"]
  /\ match item_formats (gutenbergItem b) with
     | [] =>
       gutenbergDownloadBest Samples.nfkdRussian web (item_id (gutenbergItem b))
       = Fault (Raised NoReadableFormat)
     | fmt :: _ =>
       exists p,
         gutenbergDownloadBest Samples.nfkdRussian web (item_id (gutenbergItem b))
         = Done p /\
         (fmt = js "text/plain" /\ pick_mime p = js "text/plain; charset=utf-8"
          \/ fmt = js "application/epub+zip"
             /\ pick_mime p = js "application/epub+zip")
     end.
Proof.
  intros web b.
  assert (H1 : encodeURIComponent (b_id b) = Ret (js "158")) by (vm_compute; reflexivity).
  assert (H2 : web_book web (js "https://gutendex.com/books/" ++ js "158") = Ok b)
    by (vm_compute; reflexivity).
  split; [exact H1|]. split; [exact H2|]. split; [vm_compute; reflexivity|].
  exact (search_formats_match_download Samples.nfkdRussian web (js "158") b H1 H2).
Defined.

End OpdsFacts.


(** ** Standard Ebooks in the host with the OPDS parser *)

Module FeedFacts.
Import URI URIFacts IdFacts HeaderFacts OpdsHost Base64Facts NameFacts OpdsFacts.
Import OpdsRoutes.

(** A slice that starts inside or after the array. *)
Lemma array_slice_take_drop {A} (a : list A) (start count : nat) :
  array_slice a (Z.of_nat start) (Z.of_nat start + Z.of_nat count)
  = take count (drop start a).
Proof.
  unfold array_slice.
  assert (H1 : (Z.of_nat start <? 0)%Z = false) by (apply Z.ltb_ge; lia).
  assert (H2 : (Z.of_nat start + Z.of_nat count <? 0)%Z = false) by (apply Z.ltb_ge; lia).
  rewrite H1, H2.
  destruct (Nat.le_gt_cases (length a) start) as [Hge|Hlt].
  - rewrite (drop_ge a start Hge), take_nil.
    rewrite !Z.min_r by lia. rewrite Z.sub_diag. reflexivity.
  - rewrite (Z.min_l (Z.of_nat start)) by lia. rewrite Nat2Z.id.
    destruct (Nat.le_gt_cases (start + count) (length a)) as [Hin|Hout].
    + rewrite Z.min_l by lia. f_equal. lia.
    + rewrite Z.min_r by lia.
      rewrite !take_ge; [reflexivity | rewrite length_drop; lia..].
Qed.

Section Feed.
Variable parseOpdsEntries : jsstring -> list opdsEntry.
Variable web : internet.

(** A page of the search, once the feed has arrived. *)
Lemma searchStandardEbooks_page q e xml (page : nat) :
  encodeURIComponent q = Ret e ->
  web_text web (SE_OPDS_SEARCH_URL ++ js "?query=" ++ e) = Ok xml ->
  searchStandardEbooks parseOpdsEntries web q (Z.of_nat (S page))
  = Ret {| results :=
             map standardItem (take 25 (drop (25 * page) (parseOpdsEntries xml)));
           hasMore := (25 * S page <? length (parseOpdsEntries xml))%nat |}.
Proof.
  intros He Hxml. unfold searchStandardEbooks. rewrite He. cbn [obind].
  rewrite Hxml. cbn [fetchText obind].
  replace ((Z.of_nat (S page) - 1) * 25)%Z with (Z.of_nat (25 * page)) by lia.
  change 25%Z with (Z.of_nat 25) at 1. rewrite array_slice_take_drop.
  f_equal. f_equal.
  destruct (Nat.ltb_spec (25 * S page) (length (parseOpdsEntries xml)));
    [apply Z.ltb_lt | apply Z.ltb_ge]; lia.
Qed.

Lemma searchStandardEbooks_tiling q e xml (k : nat) :
  encodeURIComponent q = Ret e ->
  web_text web (SE_OPDS_SEARCH_URL ++ js "?query=" ++ e) = Ok xml ->
  flat_map (fun page =>
      match searchStandardEbooks parseOpdsEntries web q (Z.of_nat (S page)) with
      | Ret v => results v
      | Throw _ => []
      end) (seq 0 k)
  = map standardItem (take (25 * k) (parseOpdsEntries xml)).
Proof.
  intros He Hxml. induction k as [|k IH]; [reflexivity|].
  rewrite seq_S, flat_map_app, IH. cbn [flat_map plus].
  rewrite (searchStandardEbooks_page _ _ _ _ He Hxml). cbn [results].
  rewrite app_nil_r, <- map_app, take_take_drop. f_equal. f_equal. lia.
Qed.

End Feed.

(** X14.  The pages of a Standard Ebooks search tile the entries of the
    feed, for the pages 1 to 999 that [/search] passes on: page [n] holds
    the entries from 25(n-1) up to 25n, the pages 1 to [k] together are the
    first 25k entries, in order, and [hasMore] tells exactly whether entries
    are left after the page.  The feed is the same for every page, since its
    URL does not depend on the page. *)
Theorem searchStandardEbooks_pages
    (parseOpdsEntries : jsstring -> list opdsEntry) (web : internet)
    (q e xml : jsstring) :
  encodeURIComponent q = Ret e ->
  web_text web (SE_OPDS_SEARCH_URL ++ js "?query=" ++ e) = Ok xml ->
  (forall page : nat,
     (S page <= 999)%nat ->
     searchStandardEbooks parseOpdsEntries web q (Z.of_nat (S page))
     = Ret {| results :=
                map standardItem (take 25 (drop (25 * page) (parseOpdsEntries xml)));
              hasMore := (25 * S page <? length (parseOpdsEntries xml))%nat |})
  /\ (forall k : nat,
        (k <= 999)%nat ->
        flat_map (fun page =>
            match searchStandardEbooks parseOpdsEntries web q (Z.of_nat (S page)) with
            | Ret v => results v
            | Throw _ => []
            end) (seq 0 k)
        = map standardItem (take (25 * k) (parseOpdsEntries xml))).
Proof.
  intros He Hxml. split.
  - intros page _. apply (searchStandardEbooks_page _ _ _ _ _ _ He Hxml).
  - intros k _. apply (searchStandardEbooks_tiling _ _ _ _ _ _ He Hxml).
Qed.

Lemma searchStandardEbooks_pages_witness :
  let parse := OpdsFixtures.sixtyEntries in
  let web := OpdsFixtures.library in
  encodeURIComponent (js "jane austen") = Ret (js "jane%20austen")
  /\ web_text web (SE_OPDS_SEARCH_URL ++ js "?query=" ++ js "jane%20austen")
     = Ok (js "<feed/>")
  /\ searchStandardEbooks parse web (js "jane austen") 3
     = Ret {| results :=
                map standardItem (take 25 (drop (25 * 2) (parse (js "<feed/>"))));
              hasMore := (25 * 3 <? length (parse (js "<feed/>")))%nat |}
  /\ length (take 25 (drop (25 * 2) (parse (js "<feed/>")))) = 10%nat.
Proof.
  intros parse web.
  assert (H1 : encodeURIComponent (js "jane austen") = Ret (js "jane%20austen"))
    by (vm_compute; reflexivity).
  assert (H2 : web_text web (SE_OPDS_SEARCH_URL ++ js "?query=" ++ js "jane%20austen")
               = Ok (js "<feed/>")) by reflexivity.
  split; [exact H1|]. split; [exact H2|]. split; [|reflexivity].
  apply (proj1 (searchStandardEbooks_pages parse web _ _ _ H1 H2) 2%nat). lia.
Defined.

End FeedFacts.


(** ** Ids and answers of [/download-best] in the host with the OPDS parser *)

Module OpdsDownloadFacts.
Import URI URIFacts IdFacts HeaderFacts OpdsHost Base64Facts NameFacts OpdsFacts.
Import DownloadFacts LinkFacts OpdsRoutes.

Section Ids.
Variable toLowerCase : jsstring -> jsstring.

Lemma standardEbooksDownloadBest_payload u :
  wellFormed u = true ->
  standardEbooksDownloadBest toLowerCase (js "se:" ++ toB64Url u)
  = if negb (truthy u) || str_eqb u (js "about:blank")
    then Fault MissingDownloadUrl
    else
      let isTxt :=
        includes (toLowerCase u) (js ".txt") || includes (toLowerCase u) (js "text") in
      Done {| pick_url := u;
              pick_filename :=
                if isTxt then js "standard_ebook.txt" else js "standard_ebook.epub";
              pick_mime :=
                if isTxt then js "text/plain; charset=utf-8"
                else js "application/epub+zip" |}.
Proof.
  intros Hu. unfold standardEbooksDownloadBest, stripPrefix_i.
  rewrite matchesAt_i_app, (fromB64Url_toB64Url _ Hu). reflexivity.
Qed.

Lemma standardItem_ids (e : opdsEntry) :
  (truthyValue (entry_textUrl e) = false -> truthyValue (entry_epubUrl e) = false ->
   item_formats (standardItem e) = []
   /\ standardEbooksDownloadBest toLowerCase (item_id (standardItem e))
      = Fault MissingDownloadUrl)
  /\ (forall u,
        orElse (entry_textUrl e) (entry_epubUrl e) = Some u ->
        u <> [] -> wellFormed u = true -> u <> js "about:blank" ->
        exists p,
          standardEbooksDownloadBest toLowerCase (item_id (standardItem e)) = Done p
          /\ pick_url p = u)
  /\ (forall u,
        entry_textUrl e = Some u -> u <> [] ->
        orElse (entry_textUrl e) (entry_epubUrl e) = Some u
        /\ item_formats (standardItem e) = [js "text/plain"]).
Proof.
  split; [|split].
  - intros Ht He. unfold standardItem, orElse. cbn [item_formats item_id].
    rewrite Ht, He. cbn [truthy]. split; [reflexivity|].
    rewrite standardEbooksDownloadBest_payload by (vm_compute; reflexivity).
    vm_compute. reflexivity.
  - intros u Hbest Hne Hwf Hblank. unfold standardItem. cbn [item_id].
    rewrite Hbest. cbn [truthyValue default from_option Datatypes.id].
    rewrite (proj2 (truthy_true u) Hne).
    rewrite (standardEbooksDownloadBest_payload _ Hwf).
    rewrite (proj2 (truthy_true u) Hne). cbn [negb orb]. unfold str_eqb.
    rewrite bool_decide_eq_false_2 by exact Hblank.
    eexists. split; reflexivity.
  - intros u Ht Hne. unfold standardItem, orElse. cbn [item_formats].
    rewrite Ht. cbn [truthyValue]. rewrite (proj2 (truthy_true u) Hne).
    split; reflexivity.
Qed.

End Ids.

(** X15.  The id of a Standard Ebooks search result leads the download
    back to the link of its entry: the text link when the entry has one,
    else the EPUB link.  An entry without a link gets the id of the
    placeholder [about:blank], lists no format, and its download is refused
    for a missing URL. *)
Theorem standardItem_download
    (toLowerCase : jsstring -> jsstring) (e : opdsEntry) :
  (truthyValue (entry_textUrl e) = false -> truthyValue (entry_epubUrl e) = false ->
   item_formats (standardItem e) = []
   /\ standardEbooksDownloadBest toLowerCase (item_id (standardItem e))
      = Fault MissingDownloadUrl)
  /\ (forall u,
        orElse (entry_textUrl e) (entry_epubUrl e) = Some u ->
        u <> [] -> wellFormed u = true -> u <> js "about:blank" ->
        exists p,
          standardEbooksDownloadBest toLowerCase (item_id (standardItem e)) = Done p
          /\ pick_url p = u)
  /\ (forall u,
        entry_textUrl e = Some u -> u <> [] ->
        orElse (entry_textUrl e) (entry_epubUrl e) = Some u
        /\ item_formats (standardItem e) = [js "text/plain"]).
Proof. exact (standardItem_ids toLowerCase e). Qed.

Lemma standardItem_download_witness :
  let u := js "https://standardebooks.org/ebooks/jane-austen/emma.epub" in
  orElse (entry_textUrl OpdsFixtures.epubEntry) (entry_epubUrl OpdsFixtures.epubEntry)
    = Some u
  /\ u <> [] /\ wellFormed u = true /\ u <> js "about:blank"
  /\ (exists p,
        standardEbooksDownloadBest OpdsFixtures.asciiLower
          (item_id (standardItem OpdsFixtures.epubEntry)) = Done p
        /\ pick_url p = u)
  /\ (item_formats (standardItem OpdsFixtures.bareEntry) = []
      /\ standardEbooksDownloadBest OpdsFixtures.asciiLower
           (item_id (standardItem OpdsFixtures.bareEntry))
         = Fault MissingDownloadUrl).
Proof.
  intros u.
  assert (H1 : orElse (entry_textUrl OpdsFixtures.epubEntry)
                 (entry_epubUrl OpdsFixtures.epubEntry) = Some u) by reflexivity.
  assert (H2 : u <> []) by discriminate.
  assert (H3 : wellFormed u = true) by (vm_compute; reflexivity).
  assert (H4 : u <> js "about:blank") by (vm_compute; discriminate).
  split; [exact H1|]. split; [exact H2|]. split; [exact H3|]. split; [exact H4|].
  split.
  - exact (proj1 (proj2 (standardItem_download OpdsFixtures.asciiLower
                           OpdsFixtures.epubEntry)) u H1 H2 H3 H4).
  - exact (proj1 (standardItem_download OpdsFixtures.asciiLower OpdsFixtures.bareEntry)
             eq_refl eq_refl).
Defined.

Section Handler.
Variable normalizeNFKD : jsstring -> jsstring.
Variable toLowerCase : jsstring -> jsstring.
Variable web : internet.







End Handler.


End OpdsDownloadFacts.


(** ** [/download-best] of the proxy of [server.js] *)

Module EbooksFacts.
Import URI URIFacts IdFacts HeaderFacts EbooksProxy TrimFacts LinkFacts ParseFacts.
Import ClassifierFacts GutenbergFacts EbooksRoutes.

Lemma trimEnd_app_letters p s :
  Forall (fun c => isWhiteSpace c = false) p -> trimEnd (p ++ s) = p ++ trimEnd s.
Proof.
  induction 1 as [|c p Hc _ IH]; [reflexivity|]. cbn [app].
  rewrite trimEnd_cons_letter by exact Hc. rewrite IH. reflexivity.
Qed.

(** [clampStr] on an id with the prefix [standard:]. *)
Lemma clampStr_standard href :
  trimEnd href = href ->
  clampStr (Some (js "standard:" ++ href)) 400 = js "standard:" ++ take 391 href.
Proof.
  intros Htrim. unfold clampStr. cbn [default from_option Datatypes.id].
  assert (Hletters : Forall (fun c => isWhiteSpace c = false) (js "standard:"))
    by (repeat constructor).
  assert (Ht : trim (js "standard:" ++ href) = js "standard:" ++ href).
  { unfold trim. rewrite (proj2 (trimStart_fixed (js "standard:" ++ href))) by reflexivity.
    rewrite (trimEnd_app_letters _ _ Hletters), Htrim. reflexivity. }
  rewrite Ht.
  assert (Htake : take 400 (js "standard:" ++ href) = js "standard:" ++ take 391 href)
    by (apply (take_app_add' (js "standard:") href 9 391); reflexivity).
  destruct (Nat.ltb_spec 400 (length (js "standard:" ++ href))) as [Hlong|Hshort];
    [exact Htake|].
  rewrite <- Htake. symmetry. apply take_ge. exact Hshort.
Qed.

Lemma standard_tests :
  str_eqb (js "standard") (js "gutenberg") = false
  /\ str_eqb (js "standard") (js "standard") = true.
Proof. vm_compute. split; reflexivity. Qed.

Section Proxy.
Variable toLowerCase : jsstring -> jsstring.
Variable web : internet.

Lemma downloadBest_standard href :
  trimEnd href = href ->
  let link := take 391 href in
  downloadBest toLowerCase web (Some (js "standard:" ++ href))
  = match downloadStandardEbooks web link with
    | Throw e => Failed (Raised e)
    | Ret out => sendDelivery out
    end
  /\ ((length href <= 391)%nat -> link = href).
Proof.
  intros Htrim link. split; [|intros H; apply take_ge; exact H].
  unfold downloadBest. rewrite (clampStr_standard _ Htrim). fold link.
  assert (Hsplit : exists ls,
            split_on 0x3A (js "standard:" ++ link) = js "standard" :: ls).
  { destruct (split_on_first 0x3A (js "standard") link) as (ls & H & _).
    - intros Hin. apply list_elem_of_In in Hin. vm_compute in Hin.
      repeat (destruct Hin as [Hin|Hin]; [discriminate|]). exact Hin.
    - exists ls. exact H. }
  destruct Hsplit as (ls & ->).
  destruct standard_tests as [H1 H2]. rewrite H1, H2.
  change (drop (length (js "standard:")) (js "standard:" ++ link)) with link.
  reflexivity.
Qed.

End Proxy.

(** X17.  An id [standard:<link>] of a search result reaches the download
    of that very link, colons and all, as long as the id has at most 400
    code units (and the link does not end in white space): [/download-best]
    answers with the file of the link and its headers, or with the error of
    the download.  A longer id is cut first: the download is tried for the
    first 391 code units of the link. *)
Theorem downloadBest_standard_link
    (toLowerCase : jsstring -> jsstring) (web : internet) (href : jsstring) :
  trimEnd href = href ->
  let link := take 391 href in
  downloadBest toLowerCase web (Some (js "standard:" ++ href))
  = match downloadStandardEbooks web link with
    | Throw e => Failed (Raised e)
    | Ret out => sendDelivery out
    end
  /\ ((length href <= 391)%nat -> link = href).
Proof. exact (downloadBest_standard toLowerCase web href). Qed.

Lemma startsWith_app_r s r x : startsWith s x = true -> startsWith (s ++ r) x = true.
Proof.
  revert x. induction s as [|c s IH]; intros [|y x]; cbn; try discriminate.
  - destruct r; reflexivity.
  - reflexivity.
  - rewrite !andb_true_iff. intros [? H]. split; [assumption | apply IH, H].
Qed.

Lemma includes_app_l s r x : includes s x = true -> includes (s ++ r) x = true.
Proof.
  induction s as [|c s IH]; cbn [includes app].
  - rewrite orb_false_r. intros H. destruct x; [|discriminate].
    destruct r; reflexivity.
  - intros H. apply orb_true_iff. apply orb_true_iff in H as [H|H].
    + left. apply (startsWith_app_r (c :: s) r x H).
    + right. apply IH, H.
Qed.

(** The mime type that [pickBestFormat] returns. *)
Lemma pickBestFormat_mime formats mime url :
  pickBestFormat formats = Some (mime, url) ->
  mime ∈ candidates \/ startsWith mime (js "text/plain") = true.
Proof.
  unfold pickBestFormat.
  destruct (firstFormat formats candidates) as [[m u]|] eqn:Hf.
  - intros [= <- <-]. left.
    apply firstFormat_Some in Hf as (before & after & -> & _).
    apply list_elem_of_In, in_elt.
  - destruct (List.find _ formats) as [[key v]|] eqn:Hfind; [|discriminate].
    intros [= <- _]. right.
    apply find_first in Hfind as (_ & _ & _ & H & _). exact H.
Qed.

Section Extension.
Variable toLowerCase : jsstring -> jsstring.
Variable web : internet.

(** Lower case leaves alone a prefix of ASCII characters that are not
    capital letters. *)
Hypothesis toLowerCase_prefix :
  forall p s,
    Forall (fun c => (c <? 0x80) && negb ((0x41 <=? c) && (c <=? 0x5A)) = true) p ->
    exists r, toLowerCase (p ++ s) = p ++ r.

Lemma includes_lower p s x :
  forallb (fun c => (c <? 0x80) && negb ((0x41 <=? c) && (c <=? 0x5A))) p = true ->
  includes p x = true -> includes (toLowerCase (p ++ s)) x = true.
Proof.
  intros Hp Hx. destruct (toLowerCase_prefix p s) as (r & ->).
  - apply Forall_forall. intros c Hc. rewrite forallb_forall in Hp.
    apply Hp, list_elem_of_In, Hc.
  - apply includes_app_l, Hx.
Qed.

Lemma startsWith_split mime p :
  startsWith mime p = true -> exists s, mime = p ++ s.
Proof.
  revert mime. induction p as [|x p IH]; intros mime; [exists mime; reflexivity|].
  destruct mime as [|y m]; cbn; [discriminate|].
  rewrite andb_true_iff, N.eqb_eq. intros [-> H].
  destruct (IH _ H) as (s & ->). exists s. reflexivity.
Qed.

Lemma candidates_cases mime :
  mime ∈ candidates \/ startsWith mime (js "text/plain") = true ->
  (exists s, mime = js "text/plain" ++ s)
  \/ mime = js "application/epub+zip"
  \/ mime = js "application/x-mobipocket-ebook".
Proof.
  intros [Hin|Hs]; [|left; apply startsWith_split, Hs].
  unfold candidates in Hin. apply list_elem_of_In in Hin. cbn [In] in Hin.
  destruct Hin as [<-|[<-|[<-|[<-|[]]]]].
  - right. left. reflexivity.
  - right. right. reflexivity.
  - left. exists (js "; charset=utf-8"). vm_compute. reflexivity.
  - left. exists []. vm_compute. reflexivity.
Qed.

Lemma extension_known mime :
  mime ∈ candidates \/ startsWith mime (js "text/plain") = true ->
  extensionOf (toLowerCase mime) = js ".epub"
  \/ extensionOf (toLowerCase mime) = js ".txt"
  \/ extensionOf (toLowerCase mime) = js ".mobi".
Proof.
  intros Hmime. apply candidates_cases in Hmime. unfold extensionOf.
  generalize (js ".epub") (js ".txt") (js ".mobi") (js ".bin"). intros xe xt xm xb.
  destruct Hmime as [(s & ->)|[-> | ->]].
  - assert (Hl : includes (toLowerCase (js "text/plain" ++ s)) (js "text/plain") = true)
      by (apply includes_lower; vm_compute; reflexivity).
    revert Hl. generalize (toLowerCase (js "text/plain" ++ s)). intros l Hl.
    revert Hl. generalize (includes l (js "text/plain")) (includes l (js "epub")).
    intros b1 b2 ->. destruct b2; auto.
  - assert (Hl : includes (toLowerCase (js "application/epub+zip" ++ [])) (js "epub") = true)
      by (apply includes_lower; vm_compute; reflexivity).
    rewrite app_nil_r in Hl.
    revert Hl. generalize (toLowerCase (js "application/epub+zip")). intros l.
    generalize (includes l (js "epub")). intros b ->. auto.
  - assert (Hl : includes (toLowerCase (js "application/x-mobipocket-ebook" ++ []))
                   (js "mobipocket") = true)
      by (apply includes_lower; vm_compute; reflexivity).
    rewrite app_nil_r in Hl.
    revert Hl. generalize (toLowerCase (js "application/x-mobipocket-ebook")). intros l.
    generalize (includes l (js "mobipocket")) (includes l (js "epub"))
      (includes l (js "text/plain")) (includes l (js "mobi")).
    intros b1 b2 b3 b4 ->. destruct b2, b3; auto.
Qed.

Lemma contentType_plain mime :
  let first := match split_on 0x3B mime with part :: _ => part | [] => [] end in
  let ct := if truthy first then first else js "application/octet-stream" in
  (0x3B ∉ ct) /\ ct <> [].
Proof.
  cbv zeta. destruct (split_on_cons 0x3B mime) as (l & ls & Hs). rewrite Hs. split.
  - destruct (truthy l); [|vm_compute; intros H; apply list_elem_of_In in H;
                           repeat (destruct H as [H|H]; [discriminate|]); exact H].
    apply (split_on_head _ _ _ _ Hs).
  - destruct l; cbn [truthy]; discriminate.
Qed.

Lemma downloadGutenberg_run gId e b mime bestUrl buffer finalUrl :
  let g := default (js "undefined") gId in
  encodeURIComponent g = Ret e ->
  web_book web (js "https://gutendex.com/books/" ++ e) = Ok b ->
  pickBestFormat (b_formats b) = Some (mime, bestUrl) ->
  web_file web bestUrl = Ok (buffer, finalUrl) ->
  exists ext ct,
    downloadGutenberg toLowerCase web gId
    = Ret {| bytes := buffer;
             contentType := ct;
             filename :=
               (if truthy (b_title b) then b_title b else js "gutenberg-" ++ g) ++ ext |}
    /\ (ext = js ".epub" \/ ext = js ".txt" \/ ext = js ".mobi")
    /\ (0x3B ∉ ct) /\ ct <> [].
Proof.
  intros g He Hb Hbest Hfile. unfold downloadGutenberg. fold g.
  rewrite He. cbn [obind]. rewrite Hb. cbn [fetchOk obind]. rewrite Hbest, Hfile.
  eexists _, _. split; [reflexivity|]. split.
  - apply extension_known. eapply pickBestFormat_mime. exact Hbest.
  - apply contentType_plain.
Qed.

Lemma downloadGutenberg_delivery gId out :
  downloadGutenberg toLowerCase web gId = Ret out ->
  (exists title ext,
     filename out = title ++ ext /\
     (ext = js ".epub" \/ ext = js ".txt" \/ ext = js ".mobi"))
  /\ (0x3B ∉ contentType out) /\ contentType out <> [].
Proof.
  unfold downloadGutenberg.
  destruct (encodeURIComponent _) as [e|]; cbn [obind]; [|discriminate].
  destruct (web_book web _) as [| |b]; cbn [fetchOk obind]; [discriminate..|].
  destruct (pickBestFormat (b_formats b)) as [[mime bestUrl]|] eqn:Hbest; [|discriminate].
  destruct (web_file web bestUrl) as [| |[buffer responseUrl]]; [discriminate..|].
  intros [= <-]. cbn [filename contentType].
  split; [|apply contentType_plain].
  eexists _, _. split; [reflexivity|].
  apply extension_known. eapply pickBestFormat_mime. exact Hbest.
Qed.

End Extension.

(** X18.  The Gutenberg download of [server.js] never falls back to the
    extension [.bin].  When Gutendex answers with the book, a format is
    picked and its file arrives, the download returns that file under the
    title (or [gutenberg-] and the id) followed by [.epub], [.txt] or
    [.mobi], with a Content-Type that is not empty and carries no
    parameter, being the chosen mime type cut before its first semicolon;
    and every download that returns is of this kind.  Lower case is assumed
    to leave alone a prefix of ASCII characters that are not capital
    letters. *)
Theorem downloadGutenberg_extension
    (toLowerCase : jsstring -> jsstring) (web : internet)
    (gId : option jsstring) :
  (forall p s,
     Forall (fun c => (c <? 0x80) && negb ((0x41 <=? c) && (c <=? 0x5A)) = true) p ->
     exists r, toLowerCase (p ++ s) = p ++ r) ->
  let g := default (js "undefined") gId in
  (forall e b mime bestUrl buffer finalUrl,
     encodeURIComponent g = Ret e ->
     web_book web (js "https://gutendex.com/books/" ++ e) = Ok b ->
     pickBestFormat (b_formats b) = Some (mime, bestUrl) ->
     web_file web bestUrl = Ok (buffer, finalUrl) ->
     exists ext ct,
       downloadGutenberg toLowerCase web gId
       = Ret {| bytes := buffer;
                contentType := ct;
                filename :=
                  (if truthy (b_title b) then b_title b else js "gutenberg-" ++ g)
                  ++ ext |}
       /\ (ext = js ".epub" \/ ext = js ".txt" \/ ext = js ".mobi")
       /\ (0x3B ∉ ct) /\ ct <> [])
  /\ (forall out,
        downloadGutenberg toLowerCase web gId = Ret out ->
        (exists title ext,
           filename out = title ++ ext /\
           (ext = js ".epub" \/ ext = js ".txt" \/ ext = js ".mobi"))
        /\ (0x3B ∉ contentType out) /\ contentType out <> []).
Proof.
  intros Hlower g. split.
  - intros e b mime bestUrl buffer finalUrl.
    exact (downloadGutenberg_run toLowerCase web Hlower gId e b mime bestUrl buffer
             finalUrl).
  - intros out. exact (downloadGutenberg_delivery toLowerCase web Hlower gId out).
Qed.

Lemma asciiLower_prefix :
  forall p s,
    Forall (fun c => (c <? 0x80) && negb ((0x41 <=? c) && (c <=? 0x5A)) = true) p ->
    exists r, OpdsFixtures.asciiLower (p ++ s) = p ++ r.
Proof.
  intros p s Hp. exists (OpdsFixtures.asciiLower s). unfold OpdsFixtures.asciiLower.
  rewrite map_app. f_equal. induction Hp as [|c p Hc _ IH]; [reflexivity|].
  cbn [map]. rewrite IH. apply andb_true_iff in Hc as [_ Hc].
  apply negb_true_iff in Hc. rewrite Hc. reflexivity.
Qed.

Lemma downloadBest_standard_link_witness :
  let href := js "https://standardebooks.org/ebooks/jane-austen/emma.epub" in
  trimEnd href = href
  /\ (length href <= 391)%nat
  /\ downloadBest OpdsFixtures.asciiLower EbooksFixtures.shelf
       (Some (js "standard:" ++ href))
     = match downloadStandardEbooks EbooksFixtures.shelf (take 391 href) with
       | Throw e => Failed (Raised e)
       | Ret out => sendDelivery out
       end
  /\ take 391 href = href.
Proof.
  intros href.
  assert (H1 : trimEnd href = href) by (vm_compute; reflexivity).
  assert (H2 : (length href <= 391)%nat) by (vm_compute; lia).
  split; [exact H1|]. split; [exact H2|].
  destruct (downloadBest_standard_link OpdsFixtures.asciiLower EbooksFixtures.shelf
              href H1) as [Hrun Hlink].
  split; [exact Hrun | exact (Hlink H2)].
Defined.

Lemma downloadGutenberg_extension_witness :
  let out := {| bytes := buffer_from_utf8 (js "https://example.org/1.epub");
                contentType := js "application/epub+zip";
                filename := js "Emma.epub" |} in
  downloadGutenberg OpdsFixtures.asciiLower EbooksFixtures.shelf (Some (js "158"))
    = Ret out
  /\ (exists title ext,
        filename out = title ++ ext /\
        (ext = js ".epub" \/ ext = js ".txt" \/ ext = js ".mobi"))
  /\ (0x3B ∉ contentType out) /\ contentType out <> [].
Proof.
  intros out.
  assert (H : downloadGutenberg OpdsFixtures.asciiLower EbooksFixtures.shelf
                (Some (js "158")) = Ret out) by (vm_compute; reflexivity).
  split; [exact H|].
  exact (proj2 (downloadGutenberg_extension OpdsFixtures.asciiLower EbooksFixtures.shelf
                  (Some (js "158")) asciiLower_prefix) out H).
Defined.

End EbooksFacts.


(** ** [/search] and the response headers of the proxy of [server.js] *)

Module EbooksSearchFacts.
Import URI URIFacts IdFacts HeaderFacts EbooksProxy TrimFacts LinkFacts ParseFacts.
Import RouteLemmas DownloadFacts EbooksRoutes.



Section Search.
Variable readEntry : jsstring -> feedEntry.
Variable web : internet.




End Search.


(** The fallback name is not empty, printable, and free of the characters
    that the second replacement removes, the double quote and the backslash
    among them. *)
Lemma safeAsciiFilename_quotable name :
  safeAsciiFilename name <> []
  /\ Forall (fun c => isPrintableAscii c = true /\ isReservedChar c = false)
       (safeAsciiFilename name).
Proof.
  unfold safeAsciiFilename. cbv zeta.
  match goal with |- context [truthy ?b] => destruct (truthy b) eqn:Hb end.
  2:{ split; [discriminate|]. repeat constructor. }
  split; [now apply truthy_true|].
  apply trim_Forall, replaceRuns_Forall; [|repeat constructor].
  apply Forall_and. split.
  - apply replaceRuns_Forall; [|repeat constructor]. apply filter_Forall.
  - apply replaceRuns_chars; [|repeat constructor]. auto.
Qed.

Lemma sendDelivery_cases (out : delivery) :
  let type :=
    if truthy (contentType out) then contentType out
    else js "application/octet-stream" in
  let name := if truthy (filename out) then filename out else js "book.bin" in
  (validHeaderValue type = false -> sendDelivery out = Failed InvalidHeaderChar)
  /\ (validHeaderValue type = true -> isWellFormed name = false ->
      sendDelivery out = Failed (Raised URIError))
  /\ (validHeaderValue type = true -> wellFormed name = true ->
      exists fallback encoded,
        sendDelivery out
        = Sent [(js "Content-Type", type);
                (js "Content-Disposition",
                 js "attachment; filename=" ++ [dquote] ++ fallback ++ [dquote]
                 ++ js "; filename*=UTF-8''" ++ encoded)]
            (bytes out)
        /\ fallback <> []
        /\ Forall (fun c => isPrintableAscii c = true /\ isReservedChar c = false)
             fallback
        /\ (dquote ∉ encoded)
        /\ decodeURIComponent encoded = Ret name).
Proof.
  intros type name. unfold sendDelivery. cbv zeta. fold type. fold name.
  assert (Hname : truthy name = true).
  { unfold name. destruct (truthy (filename out)) eqn:Hf; [exact Hf|reflexivity]. }
  split; [intros ->; reflexivity|].
  split.
  - intros -> Hwf. cbn [negb]. unfold contentDisposition. cbv zeta. rewrite Hname.
    destruct (encodeURIComponent name) as [e|e] eqn:He; cbn [obind].
    + apply encodeURIComponent_wellFormed in He. congruence.
    + apply (Encode_error _ (length name)) in He; [|lia]. rewrite He. reflexivity.
  - intros Hty Hwf. rewrite Hty. cbn [negb].
    assert (Hcu : isCodeUnits name = true).
    { unfold wellFormed in Hwf. now apply andb_true_iff in Hwf as [? _]. }
    destruct (decode_encode _ alwaysUnescaped_ascii _ Hwf) as (encoded & Henc & Hdec).
    pose proof (Encode_chars _ _ _ _ (le_n _) Hcu Henc) as Hchars.
    destruct (safeAsciiFilename_quotable name) as [Hne Hfb].
    unfold contentDisposition. cbv zeta. rewrite Hname.
    unfold encodeURIComponent. rewrite Henc. cbn [obind].
    generalize dependent (safeAsciiFilename name). intros fallback Hne Hfb.
    assert (Hprint : Forall (fun c => isPrintableAscii c = true) encoded).
    { eapply Forall_impl; [exact Hchars|]. cbv beta. intros c.
      unfold alwaysUnescaped, isAsciiWord, isEscapeChar, isPrintableAscii.
      rewrite !orb_true_iff, !andb_true_iff, !N.leb_le, !N.eqb_eq. lia. }
    exists fallback, encoded. split; [|split; [exact Hne|split; [exact Hfb|split; [|exact Hdec]]]].
    + unfold send. cbn [forallb snd]. rewrite Hty.
      rewrite printable_valid; [reflexivity|].
      apply Forall_app; split; [by vm_compute; repeat constructor|].
      apply Forall_app; split; [by repeat constructor|].
      apply Forall_app; split.
      { eapply Forall_impl; [exact Hfb|]. now intros c [Hc _]. }
      apply Forall_app; split; [by repeat constructor|].
      apply Forall_app; split; [by vm_compute; repeat constructor|].
      exact Hprint.
    + intros Hin. rewrite Forall_forall in Hchars. apply Hchars in Hin.
      revert Hin. unfold alwaysUnescaped, isAsciiWord, isEscapeChar, dquote.
      vm_compute. intuition discriminate.
Qed.

(** X20.  The end of [GET /download-best] of the second generation of
    [server.js], for every result of a download adapter.  A content type
    that Node refuses as a header value makes the handler answer 500 before
    the file name is looked at.  Otherwise a file name (or [book.bin] for an
    empty one) with a lone surrogate makes [encodeURIComponent] throw a
    URIError, again a 500.  Otherwise the body is sent with exactly the two
    headers: the quoted fallback name is not empty and has no double quote
    and no backslash, so it ends at the closing quote, and decoding the
    [filename*] parameter gives back the name. *)
Theorem sendDelivery_outcomes (out : delivery) :
  let type :=
    if truthy (contentType out) then contentType out
    else js "application/octet-stream" in
  let name := if truthy (filename out) then filename out else js "book.bin" in
  (validHeaderValue type = false -> sendDelivery out = Failed InvalidHeaderChar)
  /\ (validHeaderValue type = true -> isWellFormed name = false ->
      sendDelivery out = Failed (Raised URIError))
  /\ (validHeaderValue type = true -> wellFormed name = true ->
      exists fallback encoded,
        sendDelivery out
        = Sent [(js "Content-Type", type);
                (js "Content-Disposition",
                 js "attachment; filename=" ++ [dquote] ++ fallback ++ [dquote]
                 ++ js "; filename*=UTF-8''" ++ encoded)]
            (bytes out)
        /\ fallback <> []
        /\ Forall (fun c => isPrintableAscii c = true /\ isReservedChar c = false)
             fallback
        /\ (dquote ∉ encoded)
        /\ decodeURIComponent encoded = Ret name).
Proof. exact (sendDelivery_cases out). Qed.

End EbooksSearchFacts.


(** ** [/download-best] of the single-source Gutendex host *)

Module GutendexFacts.
Import URI LinkFacts DownloadFacts GutendexHost GutendexRoutes.

(** A code unit that the pattern keeps is an ASCII letter or digit, or lies
    beyond Latin-1. *)
Lemma isNameChar_cases c :
  isNameChar c = true ->
  ((0x30 <= c <= 0x39) \/ (0x41 <= c <= 0x5A) \/ (0x61 <= c <= 0x7A)) \/ 0xFF < c.
Proof.
  unfold isNameChar, RegExp.canonicalize. cbv zeta.
  repeat match goal with
         | |- context [if ?b then _ else _] => destruct b eqn:?
         end;
    repeat match goal with
           | H : _ = true |- _ => revert H
           | H : _ = false |- _ => revert H
           end;
    bool_arith.
Qed.

Lemma safeName_length title : (length (safeName title) <= 80)%nat.
Proof. unfold safeName. rewrite length_take. lia. Qed.

Lemma safeName_take title :
  safeName title = map (fun c => if isNameChar c then c else 0x5F) (take 80 title).
Proof. unfold safeName. rewrite <- fmap_take. reflexivity. Qed.

(** The name is a valid part of a header exactly when the pattern kept
    nothing but ASCII. *)
Lemma safeName_valid title :
  validHeaderValue (safeName title) = true
  <-> Forall (fun c => isNameChar c = true -> c < 0x80) (take 80 title).
Proof.
  rewrite safeName_take. unfold validHeaderValue.
  induction (take 80 title) as [|c s IH]; [cbn; split; [constructor|reflexivity]|].
  cbn [map forallb]. rewrite andb_true_iff, IH, Forall_cons.
  apply and_iff_compat_r.
  destruct (isNameChar c) eqn:Hc.
  - apply isNameChar_cases in Hc. unfold validHeaderChar.
    split; [intros Hv _; revert Hv|intros Hv; specialize (Hv eq_refl)]; bool_arith.
  - split; [intros _ [=]|reflexivity].
Qed.

Lemma safeName_word title :
  validHeaderValue (safeName title) = true ->
  Forall (fun c => isAsciiWord c = true) (safeName title).
Proof.
  rewrite safeName_valid, safeName_take. intros H. apply Forall_fmap.
  eapply Forall_impl; [exact H|]. cbn. intros c Hc.
  destruct (isNameChar c) eqn:Hn; [|reflexivity].
  specialize (Hc eq_refl). apply isNameChar_cases in Hn.
  unfold isAsciiWord. bool_arith.
Qed.

Lemma chooseFile_Download formats fileUrl mime :
  chooseFile formats = Download fileUrl mime ->
  formats !! mime = Some fileUrl /\ mime ∈ candidates
  /\ includes fileUrl (js "index") = false
  /\ includes fileUrl (js "contents") = false.
Proof.
  unfold chooseFile.
  destruct (firstCandidate formats candidates) as [[url m]|] eqn:Hc; [|discriminate].
  destruct (includes url (js "index")) eqn:Hi; [discriminate|].
  destruct (includes url (js "contents")) eqn:Ho; [discriminate|].
  cbn [orb]. intros [= -> ->].
  pose proof (GutenbergFacts.firstCandidate_in _ _ _ _ Hc) as Hin.
  apply GutenbergFacts.firstCandidate_Some in Hc as (before & after & _ & _ & Hurl & _).
  split; [exact Hurl|]. split; [exact Hin|]. split; [exact Hi|exact Ho].
Qed.

Lemma header_valid (epub : bool) (name : jsstring) :
  validHeaderValue
    (js "inline; filename=" ++ [dquote] ++ name
     ++ (if epub then js ".epub" else js ".txt") ++ [dquote])
  = validHeaderValue name.
Proof.
  unfold validHeaderValue. rewrite !forallb_app.
  destruct epub; vm_compute (forallb _ (js _)); cbn; rewrite !andb_true_r; reflexivity.
Qed.

Section Handler.
Variable web : internet.

Lemma downloadBest_sent query_id headers body :
  downloadBest web query_id = Sent headers body ->
  exists id book fileUrl mime title,
    query_id = Some id /\ id <> []
    /\ web_book web (GUTENDEX ++ js "/" ++ id) = Ok book
    /\ book_formats book !! mime = Some fileUrl /\ mime ∈ candidates
    /\ includes fileUrl (js "index") = false
    /\ includes fileUrl (js "contents") = false
    /\ web_file web fileUrl = Ok body
    /\ 15000 <= strlen body
    /\ book_title book = Some title
    /\ (length (safeName title) <= 80)%nat
    /\ Forall (fun c => isAsciiWord c = true) (safeName title)
    /\ (headers = [(js "Content-Type", js "application/epub+zip");
                   (js "Content-Disposition",
                    js "inline; filename=" ++ [dquote] ++ safeName title
                    ++ js ".epub" ++ [dquote])]
        \/ headers = [(js "Content-Type", js "text/plain; charset=utf-8");
                      (js "Content-Disposition",
                       js "inline; filename=" ++ [dquote] ++ safeName title
                       ++ js ".txt" ++ [dquote])]).
Proof.
  unfold downloadBest. cbv zeta.
  destruct query_id as [id|]; [|discriminate]. cbn [default from_option Datatypes.id].
  destruct (truthy id) eqn:Hid; [|discriminate]. cbn [negb].
  destruct (web_book web _) as [| |book] eqn:Hbook; try discriminate.
  destruct (chooseFile (book_formats book)) as [| |fileUrl mime] eqn:Hch; try discriminate.
  destruct (web_file web fileUrl) as [| |buffer] eqn:Hfile; try discriminate.
  destruct (strlen buffer <? 15000) eqn:Hlen; [discriminate|].
  destruct (book_title book) as [title|] eqn:Ht; [|discriminate].
  unfold send. cbn [forallb snd]. rewrite header_valid, andb_true_r.
  generalize (includes mime (js "epub")). intros epub.
  replace (validHeaderValue (if epub then js "application/epub+zip"
                             else js "text/plain; charset=utf-8")) with true
    by (destruct epub; vm_compute; reflexivity).
  cbn [andb].
  destruct (validHeaderValue (safeName title)) eqn:Hv; [|discriminate].
  intros [= <- <-].
  apply chooseFile_Download in Hch as (Hf & Hin & Hi & Ho).
  exists id, book, fileUrl, mime, title.
  split; [reflexivity|]. split; [now apply truthy_true|].
  split; [exact Hbook|]. split; [exact Hf|]. split; [exact Hin|].
  split; [exact Hi|]. split; [exact Ho|]. split; [exact Hfile|].
  split; [apply N.ltb_ge, Hlen|].
  split; [exact Ht|]. split; [apply safeName_length|].
  split; [apply safeName_word, Hv|].
  destruct epub; [left|right]; reflexivity.
Qed.

Lemma downloadBest_title id book fileUrl mime buffer title :
  id <> [] ->
  web_book web (GUTENDEX ++ js "/" ++ id) = Ok book ->
  chooseFile (book_formats book) = Download fileUrl mime ->
  web_file web fileUrl = Ok buffer ->
  15000 <= strlen buffer ->
  book_title book = Some title ->
  (Forall (fun c => isNameChar c = true -> c < 0x80) (take 80 title) ->
   exists headers, downloadBest web (Some id) = Sent headers buffer)
  /\ (Exists (fun c => isNameChar c = true /\ 0x80 <= c) (take 80 title) ->
      downloadBest web (Some id) = Failed InvalidHeaderChar).
Proof.
  intros Hid Hbook Hch Hfile Hlen Ht.
  unfold downloadBest. cbv zeta. cbn [default from_option Datatypes.id].
  rewrite (proj2 (truthy_true id) Hid). cbn [negb].
  rewrite Hbook, Hch, Hfile.
  replace (strlen buffer <? 15000) with false
    by (symmetry; apply N.ltb_ge; exact Hlen).
  rewrite Ht. unfold send. cbn [forallb snd]. rewrite header_valid, andb_true_r.
  generalize (includes mime (js "epub")). intros epub.
  replace (validHeaderValue (if epub then js "application/epub+zip"
                             else js "text/plain; charset=utf-8")) with true
    by (destruct epub; vm_compute; reflexivity).
  cbn [andb]. split.
  - intros Hall. apply safeName_valid in Hall. rewrite Hall. eexists; reflexivity.
  - intros Hex.
    destruct (validHeaderValue (safeName title)) eqn:Hv; [|reflexivity].
    exfalso. apply safeName_valid in Hv.
    apply Exists_exists in Hex as (c & Hin & Hn & Hc).
    rewrite Forall_forall in Hv. specialize (Hv c Hin Hn). lia.
Qed.

End Handler.

(** X21.  What the single-source host sends from [GET /download-best] is
    guarded: whenever it answers with a file, the id was given, the body is
    the file that Gutendex lists under one of the three candidate formats
    for that book, the URL of the file contains neither [index] nor
    [contents], the body is at least 15000 bytes long, and the two headers
    are the EPUB or the plain-text pair, with a file name of at most 80
    ASCII letters, digits and underscores before the extension. *)
Theorem downloadBest_sent_guarded
    (web : internet) (query_id : option jsstring)
    (headers : list (jsstring * jsstring)) (body : list N) :
  downloadBest web query_id = Sent headers body ->
  exists id book fileUrl mime title,
    query_id = Some id /\ id <> []
    /\ web_book web (GUTENDEX ++ js "/" ++ id) = Ok book
    /\ book_formats book !! mime = Some fileUrl /\ mime ∈ candidates
    /\ includes fileUrl (js "index") = false
    /\ includes fileUrl (js "contents") = false
    /\ web_file web fileUrl = Ok body
    /\ 15000 <= strlen body
    /\ book_title book = Some title
    /\ (length (safeName title) <= 80)%nat
    /\ Forall (fun c => isAsciiWord c = true) (safeName title)
    /\ (headers = [(js "Content-Type", js "application/epub+zip");
                   (js "Content-Disposition",
                    js "inline; filename=" ++ [dquote] ++ safeName title
                    ++ js ".epub" ++ [dquote])]
        \/ headers = [(js "Content-Type", js "text/plain; charset=utf-8");
                      (js "Content-Disposition",
                       js "inline; filename=" ++ [dquote] ++ safeName title
                       ++ js ".txt" ++ [dquote])]).
Proof. exact (downloadBest_sent web query_id headers body). Qed.

(** X22.  The title decides whether a file that passed the checks of the
    single-source host is delivered.  The pattern of the file name keeps
    the Cyrillic letters, and Node refuses them in a header value: when one
    of the first 80 code units of the title is a kept letter outside ASCII,
    the answer is the status 500 of an invalid header; when none is, the
    file is sent. *)
Theorem downloadBest_title_decides
    (web : internet) (id : jsstring) (book : gutendexBook)
    (fileUrl mime : jsstring) (buffer : list N) (title : jsstring) :
  id <> [] ->
  web_book web (GUTENDEX ++ js "/" ++ id) = Ok book ->
  chooseFile (book_formats book) = Download fileUrl mime ->
  web_file web fileUrl = Ok buffer ->
  15000 <= strlen buffer ->
  book_title book = Some title ->
  (Forall (fun c => isNameChar c = true -> c < 0x80) (take 80 title) ->
   exists headers, downloadBest web (Some id) = Sent headers buffer)
  /\ (Exists (fun c => isNameChar c = true /\ 0x80 <= c) (take 80 title) ->
      downloadBest web (Some id) = Failed InvalidHeaderChar).
Proof. exact (downloadBest_title web id book fileUrl mime buffer title). Qed.

Lemma downloadBest_sent_guarded_witness :
  let headers :=
    [(js "Content-Type", js "text/plain; charset=utf-8");
     (js "Content-Disposition",
      js "inline; filename=" ++ [dquote] ++ js "Emma.txt" ++ [dquote])] in
  downloadBest GutendexFixtures.shelf (Some (js "158"))
    = Sent headers GutendexFixtures.longFile
  /\ exists id book fileUrl mime title,
      Some (js "158") = Some id /\ id <> []
      /\ web_book GutendexFixtures.shelf (GUTENDEX ++ js "/" ++ id) = Ok book
      /\ book_formats book !! mime = Some fileUrl /\ mime ∈ candidates
      /\ includes fileUrl (js "index") = false
      /\ includes fileUrl (js "contents") = false
      /\ web_file GutendexFixtures.shelf fileUrl = Ok GutendexFixtures.longFile
      /\ 15000 <= strlen GutendexFixtures.longFile
      /\ book_title book = Some title
      /\ (length (safeName title) <= 80)%nat
      /\ Forall (fun c => isAsciiWord c = true) (safeName title)
      /\ (headers = [(js "Content-Type", js "application/epub+zip");
                     (js "Content-Disposition",
                      js "inline; filename=" ++ [dquote] ++ safeName title
                      ++ js ".epub" ++ [dquote])]
          \/ headers = [(js "Content-Type", js "text/plain; charset=utf-8");
                        (js "Content-Disposition",
                         js "inline; filename=" ++ [dquote] ++ safeName title
                         ++ js ".txt" ++ [dquote])]).
Proof.
  intros headers.
  assert (H : downloadBest GutendexFixtures.shelf (Some (js "158"))
              = Sent headers GutendexFixtures.longFile) by (vm_compute; reflexivity).
  split; [exact H|].
  exact (downloadBest_sent_guarded GutendexFixtures.shelf (Some (js "158")) headers
           GutendexFixtures.longFile H).
Defined.

Lemma downloadBest_title_decides_witness :
  let id := js "2600" in
  let fileUrl := js "https://www.gutenberg.org/files/2600/2600.txt" in
  let title := js "Война и мир" in
  id <> []
  /\ web_book GutendexFixtures.shelf (GUTENDEX ++ js "/" ++ id)
     = Ok GutendexFixtures.warAndPeace
  /\ chooseFile (book_formats GutendexFixtures.warAndPeace)
     = Download fileUrl (js "text/plain")
  /\ web_file GutendexFixtures.shelf fileUrl = Ok GutendexFixtures.longFile
  /\ 15000 <= strlen GutendexFixtures.longFile
  /\ book_title GutendexFixtures.warAndPeace = Some title
  /\ Exists (fun c => isNameChar c = true /\ 0x80 <= c) (take 80 title)
  /\ downloadBest GutendexFixtures.shelf (Some id) = Failed InvalidHeaderChar.
Proof.
  intros id fileUrl title.
  assert (H1 : id <> []) by discriminate.
  assert (H2 : web_book GutendexFixtures.shelf (GUTENDEX ++ js "/" ++ id)
               = Ok GutendexFixtures.warAndPeace) by (vm_compute; reflexivity).
  assert (H3 : chooseFile (book_formats GutendexFixtures.warAndPeace)
               = Download fileUrl (js "text/plain")) by (vm_compute; reflexivity).
  assert (H4 : web_file GutendexFixtures.shelf fileUrl = Ok GutendexFixtures.longFile)
    by (vm_compute; reflexivity).
  assert (H5 : 15000 <= strlen GutendexFixtures.longFile) by (vm_compute; discriminate).
  assert (H6 : book_title GutendexFixtures.warAndPeace = Some title)
    by (vm_compute; reflexivity).
  assert (H7 : Exists (fun c => isNameChar c = true /\ 0x80 <= c) (take 80 title)).
  { apply Exists_exists. exists 0x412. split; [|split].
    - apply list_elem_of_In. vm_compute. left. reflexivity.
    - vm_compute. reflexivity.
    - vm_compute. discriminate. }
  split; [exact H1|]. split; [exact H2|]. split; [exact H3|]. split; [exact H4|].
  split; [exact H5|]. split; [exact H6|]. split; [exact H7|].
  exact (proj2 (downloadBest_title_decides GutendexFixtures.shelf id
                  GutendexFixtures.warAndPeace fileUrl (js "text/plain")
                  GutendexFixtures.longFile title H1 H2 H3 H4 H5 H6) H7).
Defined.

End GutendexFacts.


(** ** The first program of [server.js] *)

Module ReaderFacts.
Import URI IdFacts HeaderFacts TrimFacts LinkFacts ParseFacts ReaderRoutes.

(** An occurrence of [x] in [l] cuts [l] in three. *)
Lemma includes_split l x :
  includes l x = true <-> exists l1 l2, l = l1 ++ x ++ l2.
Proof.
  split.
  - induction l as [|c l IH]; cbn [includes].
    + rewrite orb_false_r. intros H. apply EbooksFacts.startsWith_split in H as (s & ->).
      exists [], s. reflexivity.
    + intros [H|H]%orb_true_iff.
      * apply EbooksFacts.startsWith_split in H as (s & ->). exists [], s. reflexivity.
      * destruct (IH H) as (l1 & l2 & ->). exists (c :: l1), l2. reflexivity.
  - intros (l1 & l2 & ->). apply includes_app_r, startsWith_includes, startsWith_app_true.
Qed.

Lemma includes_rev_spaces l :
  includes (rev l) (js "  ") = true -> includes l (js "  ") = true.
Proof.
  intros (l1 & l2 & H)%includes_split. apply includes_split.
  exists (rev l2), (rev l1). rewrite <- (rev_involutive l), H.
  rewrite !rev_app_distr. cbn [rev app]. rewrite <- !app_assoc. reflexivity.
Qed.

Lemma includes_trimStart l x : includes (trimStart l) x = true -> includes l x = true.
Proof.
  induction l as [|c l IH]; [auto|]. cbn [trimStart].
  destruct (isWhiteSpace c); [|auto]. intros H. apply includes_cons, IH, H.
Qed.

Lemma includes_trim_spaces l :
  includes (trim l) (js "  ") = true -> includes l (js "  ") = true.
Proof.
  unfold trim, trimEnd. intros H.
  apply includes_rev_spaces, includes_trimStart, includes_rev_spaces in H.
  apply includes_trimStart, H.
Qed.

(** A run of white space leaves one space, so no two spaces meet; after a
    character of the class, the result does not begin with a space. *)
Lemma replaceRuns_spaces s :
  forall b,
    includes (replaceRuns isWhiteSpace (js " ") b s) (js "  ") = false
    /\ (b = true -> startsWith (replaceRuns isWhiteSpace (js " ") b s) (js " ") = false).
Proof.
  induction s as [|c s IH]; intros b; cbn [replaceRuns]; [split; reflexivity|].
  destruct (isWhiteSpace c) eqn:Hc.
  - destruct b; cbn [app].
    + exact (IH true).
    + destruct (IH true) as [Hi Hs]. split; [|discriminate].
      change (js " " ++ replaceRuns isWhiteSpace (js " ") true s)
        with (0x20 :: replaceRuns isWhiteSpace (js " ") true s).
      cbn [includes]. rewrite Hi, orb_false_r.
      change (js "  ") with (0x20 :: js " "). cbn [startsWith].
      rewrite (Hs eq_refl). apply andb_false_r.
  - destruct (IH false) as [Hi _].
    assert (Hsp : (0x20 =? c) = false).
    { apply N.eqb_neq. intros <-. discriminate. }
    split.
    + cbn [includes]. rewrite Hi, orb_false_r.
      change (js "  ") with (0x20 :: js " "). cbn [startsWith]. rewrite Hsp. reflexivity.
    + intros _. change (js " ") with [0x20]. cbn [startsWith]. rewrite Hsp. reflexivity.
Qed.

(** A string whose white space is single spaces is left as it is. *)
Lemma replaceRuns_fixed l :
  forall b,
    Forall (fun c => isWhiteSpace c = true -> c = 0x20) l ->
    includes l (js "  ") = false ->
    (b = true -> startsWith l (js " ") = false) ->
    replaceRuns isWhiteSpace (js " ") b l = l.
Proof.
  induction l as [|c l IH]; intros b Hl Hi Hb; [reflexivity|].
  apply Forall_cons in Hl as [Hc Hl]. cbn [includes] in Hi.
  apply orb_false_iff in Hi as [Hs Hi]. cbn [replaceRuns].
  destruct (isWhiteSpace c) eqn:Hw.
  - rewrite (Hc eq_refl) in *. destruct b.
    + specialize (Hb eq_refl). change (js " ") with [0x20] in Hb.
      cbn [startsWith] in Hb. rewrite N.eqb_refl in Hb.
      destruct l; discriminate.
    + change (js " " ++ replaceRuns isWhiteSpace (js " ") true l)
        with (0x20 :: replaceRuns isWhiteSpace (js " ") true l).
      f_equal. apply IH; [exact Hl | exact Hi |]. intros _.
      change (js "  ") with (0x20 :: js " ") in Hs. cbn [startsWith] in Hs.
      rewrite N.eqb_refl in Hs. exact Hs.
  - f_equal. apply IH; [exact Hl | exact Hi | discriminate].
Qed.

Lemma filter_replaceRuns s :
  forall b,
    List.filter (fun c => negb (isWhiteSpace c)) (replaceRuns isWhiteSpace (js " ") b s)
    = List.filter (fun c => negb (isWhiteSpace c)) s.
Proof.
  induction s as [|c s IH]; intros b; [reflexivity|]. cbn [replaceRuns List.filter].
  destruct (isWhiteSpace c) eqn:Hc; cbn [negb].
  - rewrite List.filter_app, IH. destruct b; reflexivity.
  - cbn [List.filter]. rewrite Hc. cbn [negb]. rewrite IH. reflexivity.
Qed.

Lemma filter_trimStart s :
  List.filter (fun c => negb (isWhiteSpace c)) (trimStart s)
  = List.filter (fun c => negb (isWhiteSpace c)) s.
Proof.
  induction s as [|c s IH]; [reflexivity|]. cbn [trimStart List.filter].
  destruct (isWhiteSpace c) eqn:Hc; cbn [negb]; [exact IH|].
  cbn [List.filter]. rewrite Hc. reflexivity.
Qed.

Lemma filter_trim s :
  List.filter (fun c => negb (isWhiteSpace c)) (trim s)
  = List.filter (fun c => negb (isWhiteSpace c)) s.
Proof.
  unfold trim, trimEnd.
  rewrite List.filter_rev, filter_trimStart, List.filter_rev, rev_involutive.
  apply filter_trimStart.
Qed.

Lemma normalizeText_cases (s : option jsstring) :
  let t := normalizeText s in
  List.filter (fun c => negb (isWhiteSpace c)) t
  = List.filter (fun c => negb (isWhiteSpace c)) (default [] s)
  /\ Forall (fun c => isWhiteSpace c = true -> c = 0x20) t
  /\ includes t (js "  ") = false
  /\ trim t = t
  /\ normalizeText (Some t) = t.
Proof.
  destruct s as [s|]; cbn [normalizeText default from_option];
    [|repeat split; constructor].
  set (r := replaceRuns isWhiteSpace (js " ") false s).
  assert (H1 : Forall (fun c => isWhiteSpace c = true -> c = 0x20) (trim r)).
  { apply trim_Forall, replaceRuns_chars; [|repeat constructor].
    intros c Hc Hw. congruence. }
  assert (H2 : includes (trim r) (js "  ") = false).
  { destruct (includes (trim r) (js "  ")) eqn:E; [|reflexivity].
    apply includes_trim_spaces in E. unfold r in E.
    rewrite (proj1 (replaceRuns_spaces s false)) in E. discriminate. }
  split; [|split; [exact H1|split; [exact H2|split; [apply trim_idem|]]]].
  - unfold r. rewrite filter_trim. apply filter_replaceRuns.
  - rewrite replaceRuns_fixed; [apply trim_idem | exact H1 | exact H2 | discriminate].
Qed.

(** X23.  [normalizeText] keeps the characters that are not white space, in
    their order, and brings the white space to a normal form: the result
    holds no white space but the space, no two spaces in a row and no space
    at either end.  Normalising twice is normalising once, and a missing
    text gives the empty string. *)
Theorem normalizeText_normal_form (s : option jsstring) :
  let t := normalizeText s in
  List.filter (fun c => negb (isWhiteSpace c)) t
  = List.filter (fun c => negb (isWhiteSpace c)) (default [] s)
  /\ Forall (fun c => isWhiteSpace c = true -> c = 0x20) t
  /\ includes t (js "  ") = false
  /\ trim t = t
  /\ normalizeText (Some t) = t.
Proof. exact (normalizeText_cases s). Qed.

Lemma gutenberg_prefix_tests (s : jsstring) :
  startsWith (js "gutenberg:" ++ s) (js "gutenberg:") = true
  /\ startsWith (js "se:" ++ s) (js "gutenberg:") = false
  /\ startsWith (js "se:" ++ s) (js "se:") = true
  /\ replaceFirst (js "se:") [] (js "se:" ++ s) = s.
Proof.
  assert (H : forall (p : jsstring), startsWith (p ++ s) p = true)
    by (intros p; apply startsWith_app_true).
  split; [apply H|]. split; [vm_compute; reflexivity|]. split; [apply H|].
  change (js "se:" ++ s) with (0x73 :: 0x65 :: 0x3A :: s).
  change (js "se:") with [0x73; 0x65; 0x3A].
  cbn [replaceFirst startsWith length drop app]. rewrite !N.eqb_refl. cbn [andb].
  destruct s; reflexivity.
Qed.

Section Server.
Variable web : internet.

(** What [/download] answers once the file has been requested. *)
Lemma download_standard url :
  download web (Some (makeId (js "se") url))
  = match web_file web url with
    | None => Failed (Raised FetchFailed)
    | Some response => pipeResponse response
    end.
Proof.
  unfold download, makeId. cbn [default from_option Datatypes.id].
  change (js "se" ++ js ":" ++ url) with (js "se:" ++ url).
  destruct (gutenberg_prefix_tests url) as (_ & H1 & H2 & H3).
  rewrite H1, H2. unfold downloadStandardEbooks. rewrite H3.
  change (truthy (js "se:" ++ url)) with true. cbn [negb].
  destruct (web_file web url); reflexivity.
Qed.

Lemma download_gutenberg bookId formats :
  0x3A ∉ bookId ->
  web_book web (js "https://gutendex.com/books/" ++ bookId) = Some (Some formats) ->
  download web (Some (makeId (js "gutenberg") bookId))
  = match fileUrlOf formats with
    | Some fileUrl =>
      if truthy fileUrl then
        match web_file web fileUrl with
        | None => Failed (Raised FetchFailed)
        | Some response => pipeResponse response
        end
      else Failed (Raised NoReadableFormat)
    | None => Failed (Raised NoReadableFormat)
    end.
Proof.
  intros Hcolon Hbook. unfold download, makeId.
  cbn [default from_option Datatypes.id].
  change (js "gutenberg" ++ js ":" ++ bookId) with (js "gutenberg:" ++ bookId).
  rewrite (proj1 (gutenberg_prefix_tests bookId)).
  change (truthy (js "gutenberg:" ++ bookId)) with true. cbn [negb].
  unfold downloadGutenberg.
  change (js "gutenberg:" ++ bookId) with (js "gutenberg" ++ 0x3A :: bookId).
  rewrite split_on_pair; [|compute_done|exact Hcolon].
  rewrite Hbook.
  destruct (fileUrlOf formats) as [u|];
    cbn [truthyValue negb default from_option Datatypes.id]; [|reflexivity].
  destruct (truthy u); cbn [negb]; [|reflexivity].
  destruct (web_file web u); reflexivity.
Qed.

Lemma download_item b it :
  gutenbergItem b = Done it ->
  0x3A ∉ b_id b ->
  web_book web (js "https://gutendex.com/books/" ++ b_id b) = Some (b_formats b) ->
  download web (Some (item_id it))
  = match item_downloadUrl it with
    | Some fileUrl =>
      if truthy fileUrl then
        match web_file web fileUrl with
        | None => Failed (Raised FetchFailed)
        | Some response => pipeResponse response
        end
      else Failed (Raised NoReadableFormat)
    | None => Failed (Raised NoReadableFormat)
    end.
Proof.
  unfold gutenbergItem. destruct (b_formats b) as [formats|]; [|discriminate].
  intros [= <-] Hcolon Hbook. cbn [item_id item_downloadUrl].
  exact (download_gutenberg _ _ Hcolon Hbook).
Qed.

Lemma searchGutenberg_urls q items :
  searchGutenberg web q = Done items ->
  Forall (fun it => exists fileUrl,
            item_downloadUrl it = Some fileUrl /\ fileUrl <> []) items.
Proof.
  unfold searchGutenberg. destruct (encodeURIComponent q); [|discriminate].
  destruct (web_search web _); [|discriminate].
  destruct (mapAttempt gutenbergItem _) as [its|]; [|discriminate].
  intros [= <-]. apply Forall_forall. intros it Hin.
  apply list_elem_of_In, filter_In in Hin as [_ Ht].
  destruct (item_downloadUrl it) as [u|]; [|discriminate].
  exists u. split; [reflexivity|]. now apply truthy_true.
Qed.

End Server.

(** X24.  In the first program of [server.js], the id of a search result
    leads [/download] to the file that the result names.  For every URL,
    the id that [makeId] builds for the tag [se] makes [/download] request
    that very URL, wherever [se:] occurs in it, and pipe the response with
    its content type (or [application/octet-stream]) as an attachment.  For
    a book whose id holds no colon and whose formats Gutendex serves again,
    the id of its search result makes [/download] request the
    [downloadUrl] of the result: the EPUB, else the UTF-8 plain text, else
    the plain text; a book without any of them fails with status 500.
    Every result of [searchGutenberg] has a [downloadUrl] that is not
    empty. *)
Theorem download_of_search_result (web : internet) :
  (forall url,
     download web (Some (makeId (js "se") url))
     = match web_file web url with
       | None => Failed (Raised FetchFailed)
       | Some response => pipeResponse response
       end)
  /\ (forall b it,
        gutenbergItem b = Done it ->
        0x3A ∉ b_id b ->
        web_book web (js "https://gutendex.com/books/" ++ b_id b) = Some (b_formats b) ->
        download web (Some (item_id it))
        = match item_downloadUrl it with
          | Some fileUrl =>
            if truthy fileUrl then
              match web_file web fileUrl with
              | None => Failed (Raised FetchFailed)
              | Some response => pipeResponse response
              end
            else Failed (Raised NoReadableFormat)
          | None => Failed (Raised NoReadableFormat)
          end)
  /\ (forall q items,
        searchGutenberg web q = Done items ->
        Forall (fun it => exists fileUrl,
                  item_downloadUrl it = Some fileUrl /\ fileUrl <> []) items).
Proof.
  split; [exact (download_standard web)|].
  split; [exact (download_item web) | exact (searchGutenberg_urls web)].
Qed.

Lemma download_of_search_result_witness :
  let web := ReaderFixtures.shelf in
  let url := js "https://example.org/1.epub" in
  let it := {| item_id := js "gutenberg:158";
               item_title := js "Emma: a novel";
               item_author := js "Austen, Jane";
               item_downloadUrl := Some url |} in
  let response := {| up_type := Some (js "application/epub+zip");
                     up_body := buffer_from_utf8 url |} in
  searchGutenberg web (js "emma") = Done [it]
  /\ gutenbergItem ReaderFixtures.emma = Done it
  /\ (0x3A ∉ b_id ReaderFixtures.emma)
  /\ web_book web (js "https://gutendex.com/books/" ++ b_id ReaderFixtures.emma)
     = Some (b_formats ReaderFixtures.emma)
  /\ download web (Some (item_id it)) = pipeResponse response
  /\ pipeResponse response
     = Sent [(js "Content-Type", js "application/epub+zip");
             (js "Content-Disposition", js "attachment")]
         (buffer_from_utf8 url).
Proof.
  intros web url it response.
  assert (H0 : searchGutenberg web (js "emma") = Done [it]) by (vm_compute; reflexivity).
  assert (H1 : gutenbergItem ReaderFixtures.emma = Done it) by (vm_compute; reflexivity).
  assert (H2 : 0x3A ∉ b_id ReaderFixtures.emma).
  { intros H. apply list_elem_of_In in H. vm_compute in H.
    repeat (destruct H as [H|H]; [discriminate|]). exact H. }
  assert (H3 : web_book web (js "https://gutendex.com/books/" ++ b_id ReaderFixtures.emma)
               = Some (b_formats ReaderFixtures.emma)) by (vm_compute; reflexivity).
  split; [exact H0|]. split; [exact H1|]. split; [exact H2|]. split; [exact H3|].
  split; [|vm_compute; reflexivity].
  rewrite (proj1 (proj2 (download_of_search_result web)) ReaderFixtures.emma it H1 H2 H3).
  vm_compute. reflexivity.
Defined.

End ReaderFacts.
